(** * The plan-and-execute agent of [comps/agent/.../planexec/planner.py]

    A shallow embedding of the planner module: the two graders
    ([PlanStepChecker], [FinalAnswerChecker]), the three nodes that ask the
    model for a structured output ([Planner], [AnswerMaker], [Replanner]),
    the [Executor], the graph that [PlanExecuteAgentWithLangGraph.__init__]
    builds, and [stream_generator].

    Everything outside the module (the language model behind each chain, the
    tool-using agent, the other threads that write to the thread table) is an
    oracle over an abstract world; the embedded code threads that world
    through its calls and keeps a log of every call it makes. *)

From Stdlib Require Import String Ascii List Lia Bool Arith.
From stdpp Require Import base option list gmap strings.
Import ListNotations.
Open Scope string_scope.
Open Scope list_scope.

(** ** Python strings *)

Module PyStr.

(** A [str] is a [string]; each [ascii] stands for the code point of the
    same number (0..255). *)

Definition nl : ascii := "010"%char.
Definition tab : ascii := "009"%char.
Definition cr : ascii := "013"%char.
Definition squote : ascii := "039"%char.
Definition dquote : ascii := "034"%char.
Definition backslash : ascii := "092"%char.

Definition chr (c : ascii) : string := String c EmptyString.

(** [s.startswith(prefix)] *)
Fixpoint startswith (s prefix : string) {struct prefix} : bool :=
  match prefix with
  | EmptyString => true
  | String p prefix' =>
      match s with
      | EmptyString => false
      | String c s' => Ascii.eqb c p && startswith s' prefix'
      end
  end.

(** [sub in s] *)
Fixpoint contains (s sub : string) : bool :=
  startswith s sub ||
  match s with
  | EmptyString => false
  | String _ s' => contains s' sub
  end.

(** [c in s] for a single character *)
Fixpoint has_char (c : ascii) (s : string) : bool :=
  match s with
  | EmptyString => false
  | String d s' => Ascii.eqb d c || has_char c s'
  end.

(** [sep.join(parts)] *)
Fixpoint join (sep : string) (parts : list string) : string :=
  match parts with
  | [] => EmptyString
  | [p] => p
  | p :: rest => p +:+ sep +:+ join sep rest
  end.

(** *** [repr] of a [str], after CPython's [unicode_repr] *)

Definition hexdigit (n : nat) : ascii :=
  nth n (list_ascii_of_string "0123456789abcdef") "0"%char.

(** [\xhh] *)
Definition hex_escape (c : ascii) : string :=
  let n := nat_of_ascii c in
  String backslash (String "x" (String (hexdigit (n / 16)) (chr (hexdigit (n mod 16))))).

(** [Py_UNICODE_ISPRINTABLE] on the code points 128..255: the controls
    128..159, the no-break space 160 and the soft hyphen 173 are not. *)
Definition isprintable_high (n : nat) : bool :=
  (161 <=? n)%nat && negb (n =? 173)%nat.

Definition escape_char (quote c : ascii) : string :=
  let n := nat_of_ascii c in
  if Ascii.eqb c quote || Ascii.eqb c backslash then String backslash (chr c)
  else if Ascii.eqb c tab then String backslash "t"
  else if Ascii.eqb c nl then String backslash "n"
  else if Ascii.eqb c cr then String backslash "r"
  else if (n <? 32)%nat || (n =? 127)%nat then hex_escape c
  else if (n <? 127)%nat then chr c
  else if isprintable_high n then chr c
  else hex_escape c.

Fixpoint escape (quote : ascii) (s : string) : string :=
  match s with
  | EmptyString => EmptyString
  | String c s' => escape_char quote c +:+ escape quote s'
  end.

(** single quotes, unless the string has a single quote and no double one *)
Definition repr_quote (s : string) : ascii :=
  if has_char squote s && negb (has_char dquote s) then dquote else squote.

Definition repr (s : string) : string :=
  let q := repr_quote s in
  String q (escape q s +:+ chr q).

End PyStr.

(** ** Python values that reach the graph state and the stream *)

#[local] Set Warnings "-register-all".

Inductive pyval : Type :=
| PNone
| PStr (s : string)
| PList (items : list pyval)
| PTuple (items : list pyval).

Fixpoint py_repr (v : pyval) : string :=
  match v with
  | PNone => "None"
  | PStr s => PyStr.repr s
  | PList items => "[" +:+ PyStr.join ", " (map py_repr items) +:+ "]"
  | PTuple [x] => "(" +:+ py_repr x +:+ ",)"
  | PTuple items => "(" +:+ PyStr.join ", " (map py_repr items) +:+ ")"
  end.

(** [str(v)], which is what an f-string field [{v}] renders *)
Definition py_str (v : pyval) : string :=
  match v with
  | PStr s => s
  | _ => py_repr v
  end.

(** A [dict] keeps its keys in insertion order; [items()] walks them so. *)
Definition pydict (V : Type) : Type := list (string * V).

Fixpoint py_repr_items {V} (rv : V -> string) (d : pydict V) : list string :=
  match d with
  | [] => []
  | (k, v) :: rest => (PyStr.repr k +:+ ": " +:+ rv v) :: py_repr_items rv rest
  end.

Definition py_repr_dict {V} (rv : V -> string) (d : pydict V) : string :=
  "{" +:+ PyStr.join ", " (py_repr_items rv d) +:+ "}".


(** ** Exceptions and results *)

(** the exceptions of the code, all of them under [Exception]; what is
    only a [BaseException], a cancellation or an exit of the interpreter,
    is not modelled *)
Inductive exn : Type :=
| OutputParserException (msg : string)
| ValueError (msg : string)
| KeyError (key : string)
| IndexError (msg : string)
| OtherException (name msg : string).

Definition is_parse_failure (e : exn) : bool :=
  match e with
  | OutputParserException _ => true
  | _ => false
  end.

Inductive outcome (A : Type) : Type :=
| Value (a : A)
| Raise (e : exn).
Arguments Value {A} a.
Arguments Raise {A} e.

(** ** The data model *)

Record BaseMessage := { role : string; content : string }.

(** [class PlanExecute(TypedDict)]; a key that was never written is [None],
    the two channels with a reducer start empty. *)
Record PlanExecute := {
  messages : list BaseMessage;
  input : option string;
  plan : option (list string);
  past_steps : list pyval;
  response : option string;
  output : option string
}.

Record Plan := { steps : list string }.
Record Response := { Response_response : string }.
Record grade := { binary_score : string }.

(** the dict [{"context": step, "question": input}] given to the step grader *)
Record CheckState := { context : string; question : string }.

(** a tool, as far as [has_multi_tool_inputs] looks at it: the names of the
    inputs it accepts ([tool.args]) *)
Record Tool := { tool_name : string; tool_args : list string }.

Record AgentExecutor := {
  agent_tools : list Tool;
  handle_parsing_errors : bool;
  max_iterations : nat
}.

Record Executor := { agent_executor : AgentExecutor }.

(** [threads_global_kv]: thread id to (thread handle, creation time, status) *)
Definition ThreadEntry : Type := nat * nat * string.

(** what a node returns: a dict literal *)
Definition update : Type := pydict pyval.

(** one item of [astream]: [{node_name: node_state}] *)
Definition event : Type := pydict update.

(** ** The collaborators *)

(** Each chain ([prompt | llm | output_parser]) and the agent executor is a
    function of its input and of the world [W], which it may change; it either
    gives a value or raises.  [other_threads] is what the other threads wrote
    to the thread table while the graph was busy with a node. *)
Record Backend (W : Type) := {
  planner_chain : list (string * string) -> W -> outcome Plan * W;
  plan_check_chain : CheckState -> W -> outcome grade * W;
  agent_executor_invoke : AgentExecutor -> string -> W -> outcome string * W;
  answer_chain : PlanExecute -> W -> outcome Response * W;
  answer_check_chain : PlanExecute -> W -> outcome grade * W;
  replanner_chain : PlanExecute -> W -> outcome Plan * W;
  other_threads : W -> gmap string ThreadEntry -> gmap string ThreadEntry
}.
Arguments planner_chain {W} _ _ _.
Arguments plan_check_chain {W} _ _ _.
Arguments agent_executor_invoke {W} _ _ _ _.
Arguments answer_chain {W} _ _ _.
Arguments answer_check_chain {W} _ _ _.
Arguments replanner_chain {W} _ _ _.
Arguments other_threads {W} _ _ _.

(** the log of the calls made to the collaborators, oldest first *)
Inductive call : Type :=
| PlannerInvoke (msgs : list (string * string)) (r : outcome Plan)
| PlanCheckInvoke (state : CheckState) (r : outcome grade)
| AgentInvoke (prompt : string) (r : outcome string)
| AnswerInvoke (state : PlanExecute) (r : outcome Response)
| AnswerCheckInvoke (state : PlanExecute) (r : outcome grade)
| ReplanInvoke (state : PlanExecute) (r : outcome Plan).

(** ** Effects: state, exceptions and fuel *)

(** A computation over a state [S] gives a value or raises, and leaves a
    state; [None] is a loop that was cut off by its fuel. *)
Definition Eff (S A : Type) : Type := S -> option (outcome A * S).

Definition ret {S A} (a : A) : Eff S A := fun s => Some (Value a, s).
Definition raise {S A} (e : exn) : Eff S A := fun s => Some (Raise e, s).
Definition out_of_fuel {S A} : Eff S A := fun _ => None.

Definition bind {S A B} (m : Eff S A) (k : A -> Eff S B) : Eff S B :=
  fun s =>
    match m s with
    | None => None
    | Some (Raise e, s') => Some (Raise e, s')
    | Some (Value a, s') => k a s'
    end.

(** [try: body / except Exception as e: handler] *)
Definition try_except {S A} (body : Eff S A) (handler : exn -> Eff S A) : Eff S A :=
  fun s =>
    match body s with
    | Some (Raise e, s') => handler e s'
    | r => r
    end.

Notation "'let*' x ':=' m 'in' k" := (bind m (fun x => k))
  (at level 10, x pattern, m at level 100, k at level 200).

(** ** The nodes *)

Definition START : string := "__start__".
Definition END : string := "__end__".

(** what the nodes see of the outside: the world and the log of calls *)
Record Env (W : Type) := { world : W; calls : list call }.
Arguments world {W} _.
Arguments calls {W} _.

(** Modelled from the spec: [has_multi_tool_inputs] of the agent's [utils]
    module, which is not among the sources; the spec has the executor reject
    the tools accepting more than one input. *)
Definition has_multi_tool_inputs (tools : list Tool) : bool :=
  existsb (fun tool => (1 <? length (tool_args tool))%nat) tools.

Section Nodes.

Context {W : Type} (B : Backend W).

Abbreviation Run := (Eff (Env W)).

(** one call to a collaborator, entered in the log with its result *)
Definition external {I A} (chain : I -> W -> outcome A * W)
    (entry : I -> outcome A -> call) (arg : I) : Run A :=
  fun s =>
    let (r, w) := chain arg (world s) in
    Some (r, {| world := w; calls := calls s ++ [entry arg r] |}).

(** The loop shared by [Planner], [AnswerMaker] and [Replanner]:
<<
    while not success:
        try:
            output = self.__llm_invoke__(...)
            success = True
        except OutputParserException as e:
            pass
        except Exception as e:
            raise e
>> *)
Fixpoint retry_until_parsed {A} (fuel : nat) (llm_invoke : Run A) : Run A :=
  match fuel with
  | 0 => out_of_fuel
  | S fuel' =>
      try_except llm_invoke
        (fun e =>
           match e with
           | OutputParserException _ => retry_until_parsed fuel' llm_invoke
           | _ => raise e
           end)
  end.

(** *** PlanStepChecker *)

Definition PlanStepChecker_llm_invoke (state : CheckState) : Run grade :=
  external (plan_check_chain B) PlanCheckInvoke state.

Definition PlanStepChecker_call (state : CheckState) : Run bool :=
  let* scored_result := PlanStepChecker_llm_invoke state in
  let score := binary_score scored_result in
  if PyStr.startswith score "yes" then ret true else ret false.

(** *** Planner *)

Definition Planner_llm_invoke (msgs : list (string * string)) : Run Plan :=
  external (planner_chain B) PlannerInvoke msgs.

(** the [for step in plan.steps] loop; [steps] is the list being appended to *)
Fixpoint Planner_check_steps (input : string) (todo steps : list string)
    : Run (list string) :=
  match todo with
  | [] => ret steps
  | step :: todo' =>
      let* ok := PlanStepChecker_call {| context := step; question := input |} in
      Planner_check_steps input todo' (if ok then steps ++ [step] else steps)
  end.

(** the outer [while not success]; [rounds] bounds it and [tries] bounds
    each run of the inner one *)
Fixpoint Planner_loop (rounds tries : nat) (input : string) : Run update :=
  match rounds with
  | 0 => out_of_fuel
  | S rounds' =>
      let* plan := retry_until_parsed tries (Planner_llm_invoke [("user", input)]) in
      let* steps := Planner_check_steps input (steps plan) [] in
      if (length steps =? 0)%nat
      then Planner_loop rounds' tries input
      else ret [("input", PStr input); ("plan", PList (map PStr steps))]
  end.

Definition Planner_call (rounds tries : nat) (state : PlanExecute) : Run update :=
  match last (messages state) with
  | None => raise (IndexError "list index out of range")
  | Some m => Planner_loop rounds tries (content m)
  end.

(** *** Executor *)

Definition Executor_init (tools : list Tool) : outcome Executor :=
  if has_multi_tool_inputs tools
  then Raise (ValueError "Only supports single input tools when using strategy == react")
  else Value {| agent_executor :=
                  {| agent_tools := tools;
                     handle_parsing_errors := true;
                     max_iterations := 50 |} |}.

Definition task_formatted (step : string) (out_state : list string) : string :=
  PyStr.chr PyStr.nl +:+ "You are tasked with executing " +:+ step +:+ "."
    +:+ PyStr.chr PyStr.nl +:+ PyStr.chr PyStr.nl
    +:+ "You can leverage output from previous steps to help you."
    +:+ PyStr.chr PyStr.nl
    +:+ "previous steps and output: " +:+ py_str (PList (map PStr out_state))
    +:+ PyStr.chr PyStr.nl.

Definition step_record (step output : string) : string :=
  "Task is " +:+ step +:+ ", Response is " +:+ output.

(** the [for i, step in enumerate(plan)] loop; the [while not success]
    inside it sets [success] on its first pass and so runs once *)
Fixpoint Executor_steps (self : Executor) (plan out_state : list string)
    : Run (list string) :=
  match plan with
  | [] => ret out_state
  | step :: plan' =>
      let* output :=
        external (agent_executor_invoke B (agent_executor self)) AgentInvoke
                 (task_formatted step out_state) in
      Executor_steps self plan' (out_state ++ [step_record step output])
  end.

Definition Executor_call (self : Executor) (state : PlanExecute) : Run update :=
  match plan state with
  | None => raise (KeyError "plan")
  | Some plan =>
      let* out_state := Executor_steps self plan [] in
      ret [("past_steps", PList (map PStr out_state))]
  end.

(** *** AnswerMaker *)

Definition AnswerMaker_llm_invoke (state : PlanExecute) : Run Response :=
  external (answer_chain B) AnswerInvoke state.

Definition AnswerMaker_call (fuel : nat) (state : PlanExecute) : Run update :=
  let* output := retry_until_parsed fuel (AnswerMaker_llm_invoke state) in
  ret [("output", PStr (Response_response output))].

(** *** FinalAnswerChecker *)

Definition FinalAnswerChecker_llm_invoke (state : PlanExecute) : Run grade :=
  external (answer_check_chain B) AnswerCheckInvoke state.

Definition FinalAnswerChecker_call (state : PlanExecute) : Run string :=
  let* scored_result := FinalAnswerChecker_llm_invoke state in
  let score := binary_score scored_result in
  match response state with
  | None => raise (KeyError "response")
  | Some _ => if PyStr.startswith score "yes" then ret END else ret "replan"
  end.

(** *** Replanner *)

Definition Replanner_llm_invoke (state : PlanExecute) : Run Plan :=
  external (replanner_chain B) ReplanInvoke state.

Definition Replanner_call (fuel : nat) (state : PlanExecute) : Run update :=
  let* output := retry_until_parsed fuel (Replanner_llm_invoke state) in
  ret [("plan", PList (map PStr (steps output)))].

End Nodes.

(** ** The graph *)

Fixpoint dict_get {V} (d : pydict V) (key : string) : option V :=
  match d with
  | [] => None
  | (k, v) :: rest => if (k =? key)%string then Some v else dict_get rest key
  end.

(** The part of [langgraph]'s [StateGraph] that the module uses: named nodes,
    plain edges, and conditional edges (a function of the state that names
    the branch, and a map from branch names to nodes). *)
Record StateGraph (W : Type) := {
  nodes : pydict (PlanExecute -> Eff (Env W) update);
  edges : list (string * string);
  branches : pydict ((PlanExecute -> Eff (Env W) string) * pydict string)
}.
Arguments nodes {W} _.
Arguments edges {W} _.
Arguments branches {W} _.

(** the channels of [PlanExecute]: [past_steps] adds ([operator.add]), the
    keys the nodes write without a reducer are overwritten *)
Definition apply_entry (st : PlanExecute) (kv : string * pyval) : PlanExecute :=
  let (k, v) := kv in
  if (k =? "input")%string then
    {| messages := messages st; input := Some (py_str v); plan := plan st;
       past_steps := past_steps st; response := response st; output := output st |}
  else if (k =? "plan")%string then
    match v with
    | PList items =>
        {| messages := messages st; input := input st; plan := Some (map py_str items);
           past_steps := past_steps st; response := response st; output := output st |}
    | _ => st
    end
  else if (k =? "past_steps")%string then
    match v with
    | PList items =>
        {| messages := messages st; input := input st; plan := plan st;
           past_steps := past_steps st ++ items; response := response st;
           output := output st |}
    | _ => st
    end
  else if (k =? "response")%string then
    {| messages := messages st; input := input st; plan := plan st;
       past_steps := past_steps st; response := Some (py_str v); output := output st |}
  else if (k =? "output")%string then
    {| messages := messages st; input := input st; plan := plan st;
       past_steps := past_steps st; response := response st; output := Some (py_str v) |}
  else st.

Definition apply_update (st : PlanExecute) (upd : update) : PlanExecute :=
  fold_left apply_entry upd st.

(** where the graph stands: the node to run next and the state it will get *)
Definition cursor : Type := string * PlanExecute.

Section Graph.

Context {W : Type} (B : Backend W).

Abbreviation Run := (Eff (Env W)).

Definition new_graph : StateGraph W :=
  {| nodes := []; edges := []; branches := [] |}.

Definition add_node (name : string) (action : PlanExecute -> Run update)
    (g : StateGraph W) : StateGraph W :=
  {| nodes := nodes g ++ [(name, action)]; edges := edges g; branches := branches g |}.

Definition add_edge (start_key end_key : string) (g : StateGraph W) : StateGraph W :=
  {| nodes := nodes g; edges := edges g ++ [(start_key, end_key)];
     branches := branches g |}.

Definition add_conditional_edges (source : string) (path : PlanExecute -> Run string)
    (path_map : pydict string) (g : StateGraph W) : StateGraph W :=
  {| nodes := nodes g; edges := edges g;
     branches := branches g ++ [(source, (path, path_map))] |}.

(** the nodes an edge leads to from [node] *)
Definition successors (g : StateGraph W) (node : string) : list string :=
  map snd (filter (fun e => (fst e =? node)%string) (edges g)).

(** where control goes after [node]: the branch its conditional edge names
    if it has one, else along its edge; a node with no way out ends the run *)
Definition next_node (g : StateGraph W) (node : string) (st : PlanExecute) : Run string :=
  match dict_get (branches g) node with
  | Some (path, path_map) =>
      let* label := path st in
      match dict_get path_map label with
      | Some target => ret target
      | None => ret label
      end
  | None =>
      match successors g node with
      | target :: _ => ret target
      | [] => ret END
      end
  end.

(** one step of [astream]: run the node, merge what it returns into the
    state, and give the event [{node: update}]; [None] once [END] is reached *)
Definition graph_step (g : StateGraph W) (cur : cursor) : Run (option (event * cursor)) :=
  let (node, st) := cur in
  if (node =? END)%string then ret None
  else
    match dict_get (nodes g) node with
    | None => raise (ValueError ("Found edge ending at unknown node " +:+ node))
    | Some action =>
        let* upd := action st in
        let st' := apply_update st upd in
        let* target := next_node g node st' in
        ret (Some ([(node, upd)], (target, st')))
    end.

(** a whole run: the names of the nodes that ran, in order, and the last state *)
Fixpoint run_graph (fuel : nat) (g : StateGraph W) (cur : cursor)
    : Run (list string * PlanExecute) :=
  match fuel with
  | 0 => out_of_fuel
  | S fuel' =>
      let* r := graph_step g cur in
      match r with
      | None => ret ([], snd cur)
      | Some (ev, cur') =>
          let* rest := run_graph fuel' g cur' in
          ret (map fst ev ++ fst rest, snd rest)
      end
  end.

(** *** PlanExecuteAgentWithLangGraph *)

(** [__init__]: the nodes, then the graph.  [fuel] bounds the retry loops of
    the nodes; [with_memory] only picks the checkpointer. *)
Definition workflow (fuel : nat) (execute_step : Executor) : StateGraph W :=
  let plan_step := Planner_call B fuel fuel in
  let make_answer := AnswerMaker_call B fuel in
  add_edge "answer_maker" END
   (add_edge "plan_executor" "answer_maker"
    (add_edge "planner" "plan_executor"
     (add_edge START "planner"
      (add_node "answer_maker" make_answer
       (add_node "plan_executor" (Executor_call B execute_step)
        (add_node "planner" plan_step new_graph)))))).

Definition PlanExecuteAgentWithLangGraph_init (fuel : nat) (tools_descriptions : list Tool)
    (with_memory : bool) : outcome (StateGraph W) :=
  match Executor_init tools_descriptions with
  | Raise e => Raise e
  | Value execute_step => Value (workflow fuel execute_step)
  end.

(** the input of a run, [{"messages": [("user", query)]}], as the state
    [astream] makes of it when no state is restored for the thread *)
Definition prepare_initial_state (query : string) : PlanExecute :=
  {| messages := [{| role := "user"; content := query |}];
     input := None; plan := None; past_steps := []; response := None; output := None |}.

(** [self.app.astream(initial_state)] before its first item;
    [initial_state] is the state the run starts from, the input applied to
    the channels the checkpointer restored, if any *)
Definition astream_start (app : StateGraph W) (initial_state : PlanExecute) : cursor :=
  match successors app START with
  | target :: _ => (target, initial_state)
  | [] => (END, initial_state)
  end.

(** *** stream_generator *)

(** what the generator sees: the nodes' environment, the thread table and
    the frames it has yielded so far *)
Record GenState := {
  env : Env W;
  g_threads : gmap string ThreadEntry;
  emitted : list string
}.

Abbreviation Gen := (Eff GenState).

Definition lift_run {A} (m : Run A) : Gen A :=
  fun s =>
    match m (env s) with
    | None => None
    | Some (r, e') =>
        Some (r, {| env := e'; g_threads := g_threads s; emitted := emitted s |})
    end.

Definition yield_all (frames : list string) : Gen unit :=
  fun s =>
    Some (Value tt, {| env := env s; g_threads := g_threads s;
                       emitted := emitted s ++ frames |}).

(** the other threads had the time of one node to write to the table *)
Definition let_others_run : Gen unit :=
  fun s =>
    Some (Value tt, {| env := env s;
                       g_threads := other_threads B (world (env s)) (g_threads s);
                       emitted := emitted s |}).

(** the next item of [astream], or [None] when it is exhausted *)
Definition astream_next (app : StateGraph W) (cur : cursor) : Gen (option (event * cursor)) :=
  let* r := lift_run (graph_step app cur) in
  let* _ := let_others_run in
  ret r.

Definition cancel_notice : string :=
  "[thread_completion_callback] signal to cancel! Changed status to ready".

Definition done_frame : string :=
  "data: [DONE]" +:+ PyStr.chr PyStr.nl +:+ PyStr.chr PyStr.nl.

(** [for k, v in node_state.items(): if v is not None: yield f"{k}: {v}\n"] *)
Definition field_frames (node_state : update) : list string :=
  flat_map (fun kv : string * pyval =>
              match snd kv with
              | PNone => []
              | v => [fst kv +:+ ": " +:+ py_str v +:+ PyStr.chr PyStr.nl]
              end) node_state.

Definition event_frames (ev : event) : list string :=
  flat_map (fun item : string * update =>
              ("--- CALL " +:+ fst item +:+ " ---" +:+ PyStr.chr PyStr.nl)
                :: field_frames (snd item)) ev
  ++ ["data: " +:+ py_repr_dict (py_repr_dict py_repr) ev
        +:+ PyStr.chr PyStr.nl +:+ PyStr.chr PyStr.nl].

(** the [if thread_id is not None] block at the head of the loop body; it
    answers whether the loop is left by [break] *)
Definition poll_cancel (thread_id : option string) : Gen bool :=
  match thread_id with
  | None => ret false
  | Some tid =>
      fun s =>
        match g_threads s !! tid with
        | None => Some (Raise (KeyError tid), s)
        | Some (thread_inst, created_at, status) =>
            if (status =? "try_cancel")%string
            then Some (Value true,
                       {| env := env s;
                          g_threads := <[tid := (thread_inst, created_at, "ready")]> (g_threads s);
                          emitted := emitted s ++ [cancel_notice] |})
            else Some (Value false, s)
        end
  end.

(** [async for event in self.app.astream(...)] *)
Fixpoint stream_events (fuel : nat) (app : StateGraph W) (thread_id : option string)
    (cur : cursor) : Gen unit :=
  match fuel with
  | 0 => out_of_fuel
  | S fuel' =>
      let* item := astream_next app cur in
      match item with
      | None => ret tt
      | Some (ev, cur') =>
          let* cancelled := poll_cancel thread_id in
          if cancelled then ret tt
          else
            let* _ := yield_all (event_frames ev) in
            stream_events fuel' app thread_id cur'
      end
  end.

(** the generator from a point of the run on: the rest of the loop, then
    the last [yield] *)
Definition stream_from (fuel : nat) (app : StateGraph W) (thread_id : option string)
    (cur : cursor) : Gen unit :=
  let* _ := stream_events fuel app thread_id cur in
  yield_all [done_frame].

(** [config] only carries the thread id to [astream], which does not read it
    here, and is left out *)
Definition stream_generator (fuel : nat) (app : StateGraph W) (query : string)
    (thread_id : option string) : Gen unit :=
  let initial_state := prepare_initial_state query in
  stream_from fuel app thread_id (astream_start app initial_state).

End Graph.

(** ** A scripted backend, to run the code on *)

Module Mock.

(** The replies each collaborator will give, in order, and the number of
    calls served so far; a collaborator that has run out of replies raises. *)
Record World := {
  plans : list (outcome Plan);
  grades : list (outcome grade);
  agent_outputs : list (outcome string);
  answers : list (outcome Response);
  answer_grades : list (outcome grade);
  replans : list (outcome Plan);
  ticks : nat
}.

Definition exhausted {A} : outcome A := Raise (OtherException "StopIteration" "no reply left").

Definition next_plan (w : World) : outcome Plan * World :=
  (hd exhausted (plans w),
   {| plans := tl (plans w); grades := grades w; agent_outputs := agent_outputs w;
      answers := answers w; answer_grades := answer_grades w; replans := replans w;
      ticks := S (ticks w) |}).

Definition next_grade (w : World) : outcome grade * World :=
  (hd exhausted (grades w),
   {| plans := plans w; grades := tl (grades w); agent_outputs := agent_outputs w;
      answers := answers w; answer_grades := answer_grades w; replans := replans w;
      ticks := S (ticks w) |}).

Definition next_agent_output (w : World) : outcome string * World :=
  (hd exhausted (agent_outputs w),
   {| plans := plans w; grades := grades w; agent_outputs := tl (agent_outputs w);
      answers := answers w; answer_grades := answer_grades w; replans := replans w;
      ticks := S (ticks w) |}).

Definition next_answer (w : World) : outcome Response * World :=
  (hd exhausted (answers w),
   {| plans := plans w; grades := grades w; agent_outputs := agent_outputs w;
      answers := tl (answers w); answer_grades := answer_grades w; replans := replans w;
      ticks := S (ticks w) |}).

Definition next_answer_grade (w : World) : outcome grade * World :=
  (hd exhausted (answer_grades w),
   {| plans := plans w; grades := grades w; agent_outputs := agent_outputs w;
      answers := answers w; answer_grades := tl (answer_grades w); replans := replans w;
      ticks := S (ticks w) |}).

Definition next_replan (w : World) : outcome Plan * World :=
  (hd exhausted (replans w),
   {| plans := plans w; grades := grades w; agent_outputs := agent_outputs w;
      answers := answers w; answer_grades := answer_grades w; replans := tl (replans w);
      ticks := S (ticks w) |}).

(** Some other thread asks to cancel [thread_id] once [cancel_at] calls have
    been served ([None]: nobody asks). *)
Definition request_cancel (cancel_at : option nat) (thread_id : string) (w : World)
    (table : gmap string ThreadEntry) : gmap string ThreadEntry :=
  match cancel_at with
  | None => table
  | Some n =>
      if (n <=? ticks w)%nat
      then match table !! thread_id with
           | Some (thread_inst, created_at, _) =>
               <[thread_id := (thread_inst, created_at, "try_cancel")]> table
           | None => table
           end
      else table
  end.

Definition backend (cancel_at : option nat) (thread_id : string) : Backend World :=
  {| planner_chain := fun _ => next_plan;
     plan_check_chain := fun _ => next_grade;
     agent_executor_invoke := fun _ _ => next_agent_output;
     answer_chain := fun _ => next_answer;
     answer_check_chain := fun _ => next_answer_grade;
     replanner_chain := fun _ => next_replan;
     other_threads := request_cancel cancel_at thread_id |}.

Definition parse_failure {A} : outcome A :=
  Raise (OutputParserException "Failed to parse tool call").

Definition yes : outcome grade := Value {| binary_score := "yes" |}.
Definition no : outcome grade := Value {| binary_score := "no" |}.

(** the scenario of the arithmetic question: a first plan that does not
    parse, a plan whose two steps are accepted, the two tool results, an
    answer that parses at the second try, and an answer grader that would
    say no *)
Definition arithmetic : World :=
  {| plans := [parse_failure; Value {| steps := ["compute 2+3"; "double the result"] |}];
     grades := [yes; yes];
     agent_outputs := [Value "5"; Value "10"];
     answers := [parse_failure; Value {| Response_response := "10" |}];
     answer_grades := [no; no; no];
     replans := [Value {| steps := ["try again"] |}];
     ticks := 0 |}.

Definition start (w : World) : Env World := {| world := w; calls := [] |}.

Definition single_input_tool : Tool := {| tool_name := "calculator"; tool_args := ["expression"] |}.
Definition two_input_tool : Tool := {| tool_name := "search"; tool_args := ["query"; "top_k"] |}.

Definition table : gmap string ThreadEntry := {[ "t1" := (7, 1024, "running") ]}.

Definition gen_start (w : World) : GenState (W := World) :=
  {| env := start w; g_threads := table; emitted := [] |}.

(** the state the planner leaves in that scenario *)
Definition planned : PlanExecute :=
  {| messages := [{| role := "user"; content := "What is 2+3, then double it?" |}];
     input := Some "What is 2+3, then double it?";
     plan := Some ["compute 2+3"; "double the result"];
     past_steps := []; response := None; output := None |}.

(** the same, with a first tool result of two lines *)
Definition two_lines : string := "2+3" +:+ PyStr.chr PyStr.nl +:+ "= 5".

Definition multiline : World :=
  {| plans := []; grades := [];
     agent_outputs := [Value two_lines; Value "10"];
     answers := []; answer_grades := []; replans := []; ticks := 0 |}.

Definition executor : Executor :=
  {| agent_executor := {| agent_tools := [single_input_tool];
                          handle_parsing_errors := true;
                          max_iterations := 50 |} |}.

End Mock.


(** ** Vocabulary of the statements *)

(** from [s] to [s'], [n] invocations in a row that each fail to parse *)
Fixpoint parse_failures {S A} (n : nat) (llm_invoke : Eff S A) (s s' : S) : Prop :=
  match n with
  | 0 => s = s'
  | S n' =>
      exists msg s1,
        llm_invoke s = Some (Raise (OutputParserException msg), s1)
        /\ parse_failures n' llm_invoke s1 s'
  end.

(** from [s], the invocation fails to parse [n] times and then settles on
    [r], a value or another exception, leaving [s'] *)
Definition settles_after {S A} (n : nat) (llm_invoke : Eff S A) (s : S)
    (r : outcome A) (s' : S) : Prop :=
  exists s1,
    parse_failures n llm_invoke s s1
    /\ llm_invoke s1 = Some (r, s')
    /\ (forall e, r = Raise e -> is_parse_failure e = false).

(** what a component makes of the outcome its loop settles on *)
Definition outcome_map {A B} (f : A -> B) (r : outcome A) : outcome B :=
  match r with
  | Value a => Value (f a)
  | Raise e => Raise e
  end.

(** a character that [repr] copies as it is, whichever quote it picks *)
Definition kept_by_repr (c : ascii) : bool :=
  (PyStr.escape_char PyStr.squote c =? PyStr.chr c)%string
  && (PyStr.escape_char PyStr.dquote c =? PyStr.chr c)%string.

Fixpoint all_chars (p : ascii -> bool) (s : string) : bool :=
  match s with
  | EmptyString => true
  | String c s' => p c && all_chars p s'
  end.

(** a computation whose calls all satisfy [P] *)
Definition logs_only {W A} (P : call -> Prop) (m : Eff (Env W) A) : Prop :=
  forall s r s', m s = Some (r, s') -> exists log, calls s' = calls s ++ log /\ Forall P log.

(** the calls of the three nodes of the graph: to the planner's model, the
    step grader, the agent and the answer maker's model *)
Definition node_call (c : call) : Prop :=
  match c with
  | AnswerCheckInvoke _ _ | ReplanInvoke _ _ => False
  | _ => True
  end.

(** the state with [response] set to the answer found in [output] *)
Definition with_response (st : PlanExecute) : PlanExecute :=
  {| messages := messages st; input := input st; plan := plan st;
     past_steps := past_steps st; response := output st; output := output st |}.

(** the generator's state once it has yielded [frames] *)
Definition after_yield {W} (frames : list string) (s : GenState (W := W)) : GenState :=
  {| env := env s; g_threads := g_threads s; emitted := emitted s ++ frames |}.

(** [k] turns of the generator's loop, from [cur] and [s] to [cur'] and
    [s']: in each the graph gives its next event, the thread's entry is in
    the table with a status other than try_cancel, and the frames of the
    event are yielded *)
Fixpoint uncancelled_turns {W} (B : Backend W) (k : nat) (app : StateGraph W)
    (thread_id : string) (cur : cursor) (s : GenState) (cur' : cursor) (s' : GenState)
    : Prop :=
  match k with
  | 0 => cur = cur' /\ s = s'
  | S k' =>
      exists ev cur1 s1 thread_inst created_at status,
        astream_next B app cur s = Some (Value (Some (ev, cur1)), s1)
        /\ g_threads s1 !! thread_id = Some (thread_inst, created_at, status)
        /\ status <> "try_cancel"
        /\ uncancelled_turns B k' app thread_id cur1 (after_yield (event_frames ev) s1) cur' s'
  end.

(** a frame made of a node event *)
Definition node_frame (frame : string) : Prop :=
  exists ev, In frame (event_frames ev).

Fixpoint last_char (s : string) : option ascii :=
  match s with
  | EmptyString => None
  | String c EmptyString => Some c
  | String _ s' => last_char s'
  end.

(** ** The synchronous run *)

(** [str(e)]: the message of the exception; for a [KeyError], the [repr]
    of the key *)
Definition exn_str (e : exn) : string :=
  match e with
  | OutputParserException msg => msg
  | ValueError msg => msg
  | KeyError key => PyStr.repr key
  | IndexError msg => msg
  | OtherException _ msg => msg
  end.

(** [non_streaming_run]: the graph is run to its end, [s] being the last
    state [astream] gives in the values mode; [budget] bounds the run. The
    handler is [except Exception], which catches every [exn]. The run
    starts from the fresh state of the query, as on a graph without memory
    or on a new thread. *)
Definition non_streaming_run {W} (budget : nat) (app : StateGraph W) (query : string)
    : Eff (Env W) string :=
  let initial_state := prepare_initial_state query in
  try_except
    (let* r := run_graph budget app (astream_start app initial_state) in
     match output (snd r) with
     | Some last_message => ret last_message
     | None => raise (KeyError "output")
     end)
    (fun e => ret (exn_str e)).

(** the check at the head of the generator's loop lets the turn go on: no
    thread id was given, or the thread's entry is in the table with a status
    other than try_cancel *)
Definition not_cancelling (thread_id : option string) (table : gmap string ThreadEntry)
    : Prop :=
  match thread_id with
  | None => True
  | Some tid =>
      exists thread_inst created_at status,
        table !! tid = Some (thread_inst, created_at, status) /\ status <> "try_cancel"
  end.

(** the turns of the generator's loop in which the graph gives the events
    [evs], one after the other, and each goes on to yield its frames *)
Fixpoint streams_events {W} (B : Backend W) (app : StateGraph W)
    (thread_id : option string) (evs : list event)
    (cur : cursor) (s : GenState) (cur' : cursor) (s' : GenState) : Prop :=
  match evs with
  | [] => cur = cur' /\ s = s'
  | ev :: evs' =>
      exists cur1 s1,
        astream_next B app cur s = Some (Value (Some (ev, cur1)), s1)
        /\ not_cancelling thread_id (g_threads s1)
        /\ streams_events B app thread_id evs' cur1 (after_yield (event_frames ev) s1) cur' s'
  end.

(** the call is a grading of [step] against [input] that gave [score] *)
Definition grading (input : string) (step score : string) : call :=
  PlanCheckInvoke {| context := step; question := input |} (Value {| binary_score := score |}).

(** the steps whose score starts with yes *)
Definition accepted (todo scores : list string) : list string :=
  map fst (List.filter (fun p => PyStr.startswith (snd p) "yes") (zip todo scores)).

Definition replan_call (state : PlanExecute) (c : call) : Prop :=
  exists r, c = ReplanInvoke state r.

(** ** Trimming the input of a community summary ([neo4j_llamaindex.py]) *)

Module GraphRAGStore.

(** [len(s)], a Python int *)
Definition len (s : string) : Z := Z.of_nat (String.length s).

(** [s.split(sep)] for a separator of one character *)
Fixpoint split (sep : ascii) (s : string) : list string :=
  match s with
  | EmptyString => [EmptyString]
  | String c s' =>
      if Ascii.eqb c sep then EmptyString :: split sep s'
      else match split sep s' with
           | [] => [String c EmptyString]
           | first :: rest => String c first :: rest
           end
  end.

(** [l[:stop]] for an int [stop] of either sign *)
Definition slice_to {A} (l : list A) (stop : Z) : list A :=
  if (stop <? 0)%Z
  then take (Z.to_nat (Z.max 0 (Z.of_nat (length l) + stop))) l
  else take (Z.to_nat stop) l.

Definition warning : string :=
  PyStr.chr PyStr.nl +:+ PyStr.chr PyStr.nl
    +:+ "[NOTE: Some relationships were omitted due to estimated max token limits.]".

(** the [for rel in relationships] loop of the estimate; leaving the
    recursion is the [break] *)
Fixpoint keep_relationships (relationships trimmed_text : list string)
    (current_chars available_chars : Z) : list string :=
  match relationships with
  | [] => trimmed_text
  | rel :: relationships' =>
      let rel_chars := (len rel + 1)%Z in
      if (current_chars + rel_chars >? available_chars)%Z then trimmed_text
      else keep_relationships relationships' (trimmed_text ++ [rel])
                              (current_chars + rel_chars)%Z available_chars
  end.

(** the characters the loop counts for a list of relationships: one more
    than its length for each *)
Definition chars (relationships : list string) : Z :=
  fold_right (fun rel acc => (len rel + 1 + acc)%Z) 0%Z relationships.

(** the characters left for the text once the system prompt and the buffer
    of 100 tokens are taken off, at 4 characters for a token *)
Definition available_chars (system_prompt : string) (max_input_tokens : Z) : Z :=
  let chars_per_token := 4%Z in
  let estimated_system_tokens := Z.div (len system_prompt) chars_per_token in
  let available_tokens := (max_input_tokens - estimated_system_tokens - 100)%Z in
  (available_tokens * chars_per_token)%Z.

(** [_trim_messages_with_estimated_tokens]; the share of the text that was
    kept is only computed for the log, by a division by [len(text)] *)
Definition _trim_messages_with_estimated_tokens (text system_prompt : string)
    (max_input_tokens : Z) : outcome (string * bool) :=
  let available_chars := available_chars system_prompt max_input_tokens in
  if (len text <=? available_chars)%Z then Value (text, false)
  else
    let relationships := split PyStr.nl text in
    let trimmed_text := keep_relationships relationships [] 0%Z available_chars in
    let result := PyStr.join (PyStr.chr PyStr.nl) trimmed_text in
    let result :=
      if (len result + len warning <=? available_chars)%Z then result +:+ warning
      else result in
    if (len text =? 0)%Z
    then Raise (OtherException "ZeroDivisionError" "division by zero")
    else Value (result, true).

(** *** With a tokenizer *)

Record ChatMessage := { chat_role : string; chat_content : string }.

(** the message objects, by address; a list of messages is a list of
    addresses *)
Definition heap : Type := list ChatMessage.

Section Tokenizer.

(** the tokenizer of the model: [tokenize] and [convert_tokens_to_string] *)
Context {token : Type}
        (tokenize : string -> list token)
        (convert_tokens_to_string : list token -> string).

(** the [for message in messages] loop; the message that does not fit is
    cut in place, [message.content = ...], and ends the loop *)
Fixpoint trim_loop (messages : list nat) (h : heap) (total_tokens : Z)
    (trimmed_messages : list nat) (effective_max_tokens : Z) : list nat * heap :=
  match messages with
  | [] => (trimmed_messages, h)
  | message :: messages' =>
      match h !! message with
      | None => (trimmed_messages, h)
      | Some object =>
          let tokens := tokenize (chat_content object) in
          let message_token_count := Z.of_nat (length tokens) in
          if (total_tokens + message_token_count >? effective_max_tokens)%Z then
            let remaining_tokens := (effective_max_tokens - total_tokens)%Z in
            let tokens := slice_to tokens remaining_tokens in
            (trimmed_messages ++ [message],
             <[message := {| chat_role := chat_role object;
                             chat_content := convert_tokens_to_string tokens |}]> h)
          else
            trim_loop messages' h (total_tokens + message_token_count)%Z
                      (trimmed_messages ++ [message]) effective_max_tokens
      end
  end.

Definition _trim_messages_to_token_limit (h : heap) (messages : list nat) (max_tokens : Z)
    : list nat * heap :=
  let buffer := 100%Z in
  let effective_max_tokens := (max_tokens - buffer)%Z in
  trim_loop messages h 0%Z [] effective_max_tokens.

(** the number of tokens of the content of a message *)
Definition token_count (object : ChatMessage) : Z :=
  Z.of_nat (length (tokenize (chat_content object))).

(** the tokens of the messages at [addresses], added up *)
Definition total_count (h : heap) (addresses : list nat) : Z :=
  fold_right (fun a acc =>
                (match h !! a with Some object => token_count object | None => 0 end + acc)%Z)
             0%Z addresses.

(** the message with its content made again from the tokens [kept] *)
Definition cut (object : ChatMessage) (kept : list token) : ChatMessage :=
  {| chat_role := chat_role object; chat_content := convert_tokens_to_string kept |}.

(** [generate_community_summary] with a tokenizer at hand, up to the
    messages it will send: the two messages are made, trimmed, and
    [was_trimmed] is read off the lengths and off the content of the last
    message of either list; the note goes to the first message *)
Definition trimmed_messages_with_tokenizer (system_prompt text : string)
    (max_input_tokens : Z) : outcome (list nat * heap * bool) :=
  let h : heap := [{| chat_role := "system"; chat_content := system_prompt |};
                   {| chat_role := "user"; chat_content := text |}] in
  let original_messages := [0; 1] in
  let (messages, h) := _trim_messages_to_token_limit h original_messages max_input_tokens in
  let content_of (address : option nat) : option string :=
    match address with
    | Some a => option_map chat_content (h !! a)
    | None => None
    end in
  let was_trimmed :=
    (length messages <? length original_messages)%nat
    || negb (bool_decide (content_of (last messages) = content_of (last original_messages))) in
  if was_trimmed then
    match messages with
    | first :: _ =>
        match h !! first with
        | Some object =>
            Value
              (messages,
               <[first := {| chat_role := chat_role object;
                             chat_content :=
                               chat_content object
                               +:+ " Note: Due to token limits, only a subset of the relationships are summarized." |}]> h,
               true)
        | None => Raise (IndexError "list index out of range")
        end
    | [] => Raise (IndexError "list index out of range")
    end
  else Value (messages, h, false).

End Tokenizer.

End GraphRAGStore.

(** ** Collecting the communities ([neo4j_llamaindex.py]) *)

Module GraphCommunities.

(** an item of the clustering, as far as the function reads it:
    [item.node] and [item.cluster] *)
Record HierarchicalCluster : Type := {
  item_node : string;
  item_cluster : Z
}.

Section Graph.

(** the graph, as the two methods of [networkx] that are called on it:
    [neighbors] raises for a node the graph does not have, [get_edge_data]
    gives the attributes of the edge or [None] *)
Context (neighbors : string -> outcome (list string))
        (get_edge_data : string -> string -> option (pydict string)).

(** the f-string of a detail; the two lookups are evaluated in order *)
Definition detail (node neighbor : string) (edge_data : pydict string) : outcome string :=
  match dict_get edge_data "relationship" with
  | None => Raise (KeyError "relationship")
  | Some relationship =>
      match dict_get edge_data "description" with
      | None => Raise (KeyError "description")
      | Some description =>
          Value (node +:+ " -> " +:+ neighbor +:+ " -> " +:+ relationship
                 +:+ " -> " +:+ description)
      end
  end.

(** [entity_info[node].add(cluster_id)] on a [defaultdict(set)] *)
Definition add_cluster (entity_info : gmap string (gset Z)) (node : string) (cluster_id : Z)
    : gmap string (gset Z) :=
  <[node := default ∅ (entity_info !! node) ∪ {[cluster_id]}]> entity_info.

(** [community_info[cluster_id].append(detail)] on a [defaultdict(list)]:
    the key is made by the first detail appended under it *)
Definition append_detail (community_info : gmap Z (list string)) (cluster_id : Z)
    (d : string) : gmap Z (list string) :=
  <[cluster_id := default [] (community_info !! cluster_id) ++ [d]]> community_info.

(** the loop over the neighbours of a node; an edge without data, [None]
    or an empty dict, is passed over *)
Fixpoint collect_neighbors (node : string) (cluster_id : Z) (nbrs : list string)
    (community_info : gmap Z (list string)) : outcome (gmap Z (list string)) :=
  match nbrs with
  | [] => Value community_info
  | neighbor :: rest =>
      match get_edge_data node neighbor with
      | None | Some [] => collect_neighbors node cluster_id rest community_info
      | Some edge_data =>
          match detail node neighbor edge_data with
          | Raise e => Raise e
          | Value d =>
              collect_neighbors node cluster_id rest
                (append_detail community_info cluster_id d)
          end
      end
  end.

(** the loop over the items of the clustering *)
Fixpoint collect_items (clusters : list HierarchicalCluster)
    (entity_info : gmap string (gset Z)) (community_info : gmap Z (list string))
    : outcome (gmap string (gset Z) * gmap Z (list string)) :=
  match clusters with
  | [] => Value (entity_info, community_info)
  | item :: rest =>
      let entity_info := add_cluster entity_info (item_node item) (item_cluster item) in
      match neighbors (item_node item) with
      | Raise e => Raise e
      | Value nbrs =>
          match collect_neighbors (item_node item) (item_cluster item) nbrs community_info with
          | Raise e => Raise e
          | Value community_info => collect_items rest entity_info community_info
          end
      end
  end.

(** [_collect_community_info]. The two dicts are maps, the order of their
    keys is not kept; [list(v)] of a set holds each element once, in an order
    Python does not fix, here that of [elements] *)
Definition _collect_community_info (clusters : list HierarchicalCluster)
    : outcome (gmap string (list Z) * gmap Z (list string)) :=
  match collect_items clusters ∅ ∅ with
  | Raise e => Raise e
  | Value (entity_info, community_info) =>
      Value (elements <$> entity_info, community_info)
  end.

(** a detail is listed under a cluster *)
Definition listed (community_info : gmap Z (list string)) (cluster_id : Z) (d : string)
    : Prop :=
  exists details, community_info !! cluster_id = Some details /\ d ∈ details.

(** a node is filed under a cluster *)
Definition filed {C} `{ElemOf Z C} (entity_info : gmap string C) (node : string)
    (cluster_id : Z) : Prop :=
  exists ids, entity_info !! node = Some ids /\ cluster_id ∈ ids.

(** the detail of an edge of the node that carries data *)
Definition edge_detail (node : string) (nbrs : list string) (d : string) : Prop :=
  exists neighbor edge_data,
    neighbor ∈ nbrs
    /\ get_edge_data node neighbor = Some edge_data
    /\ edge_data <> []
    /\ detail node neighbor edge_data = Value d.

End Graph.

(** a small graph: [a] is tied to [b] by an edge with data and to [c] by
    an edge without, and [a] is of two clusters *)
Module Example.

Definition neighbors (node : string) : outcome (list string) :=
  if (node =? "a")%string then Value ["b"; "c"]
  else if (node =? "b")%string then Value ["a"]
  else if (node =? "c")%string then Value ["a"]
  else Raise (OtherException "NetworkXError"
                ("The node " +:+ node +:+ " is not in the graph.")).

Definition get_edge_data (u v : string) : option (pydict string) :=
  if ((u =? "a") && (v =? "b") || (u =? "b") && (v =? "a"))%string
  then Some [("relationship", "knows"); ("description", "met at school")]
  else if ((u =? "a") && (v =? "c") || (u =? "c") && (v =? "a"))%string
  then Some []
  else None.

Definition clusters : list HierarchicalCluster :=
  [{| item_node := "a"; item_cluster := 0 |};
   {| item_node := "b"; item_cluster := 0 |};
   {| item_node := "a"; item_cluster := 1 |};
   {| item_node := "c"; item_cluster := 2 |}].

End Example.

End GraphCommunities.

(** ** The file list of a search ([vectorstores/src/utils.py]) *)

Module VectorStoreUtils.

(** an element of the reply of the search: a count or a byte string *)
Inductive reply : Type :=
| ReplyInt (n : Z)
| ReplyBytes (b : list Byte.byte).

(** [range(start, stop, step)] for a positive step; [fuel] bounds the
    number of indices *)
Fixpoint py_range (fuel start stop step : nat) : list nat :=
  match fuel with
  | 0 => []
  | S fuel' =>
      if (start <? stop)%nat then start :: py_range fuel' (start + step) stop step
      else []
  end.

Section Codecs.

(** [bytes.decode()] and [urllib.parse.unquote], of the standard library *)
Context (bytes_decode : list Byte.byte -> outcome string)
        (unquote : string -> string).

Definition decode_filename (encoded_filename : string) : string :=
  unquote encoded_filename.

(** [s[5:]] *)
Fixpoint drop_chars (n : nat) (s : string) : string :=
  match n, s with
  | S n', String _ s' => drop_chars n' s'
  | _, _ => s
  end.

(** the body of the loop for the index [i]: the entry to append, or the
    exception of [response[i].decode()] *)
Definition file_entry (response : list reply) (i : nat) : outcome (pydict string) :=
  match response !! i with
  | None => Raise (IndexError "list index out of range")
  | Some (ReplyInt _) =>
      Raise (OtherException "AttributeError" "'int' object has no attribute 'decode'")
  | Some (ReplyBytes b) =>
      match bytes_decode b with
      | Raise e => Raise e
      | Value decoded =>
          let file_name := drop_chars 5 decoded in
          Value [("name", decode_filename file_name);
                 ("id", decode_filename file_name);
                 ("type", "File");
                 ("parent", EmptyString)]
      end
  end.

(** the loop over the indices; [file_list] is the list the caller gave,
    appended to in place: what is returned is the exception, if one was
    raised, and the list as the loop has left it *)
Fixpoint append_entries (response : list reply) (indices : list nat)
    (file_list : list (pydict string)) : option exn * list (pydict string) :=
  match indices with
  | [] => (None, file_list)
  | i :: indices' =>
      match file_entry response i with
      | Raise e => (Some e, file_list)
      | Value file_dict => append_entries response indices' (file_list ++ [file_dict])
      end
  end.

Definition format_search_results (response : list reply) (file_list : list (pydict string))
    : option exn * list (pydict string) :=
  append_entries response (py_range (length response) 1 (length response) 2) file_list.

End Codecs.

End VectorStoreUtils.

(** * Properties *)

(** ** Strings *)

Lemma append_cons (c : ascii) (s t : string) : String c s +:+ t = String c (s +:+ t).
Proof. reflexivity. Qed.

Lemma append_nil_r (s : string) : s +:+ EmptyString = s.
Proof.
  induction s as [|c s IH]; [reflexivity|].
  now rewrite append_cons, IH.
Qed.

Lemma append_assoc (a b c : string) : (a +:+ b) +:+ c = a +:+ (b +:+ c).
Proof.
  induction a as [|x a IH]; [reflexivity|].
  now rewrite !append_cons, IH.
Qed.

Lemma startswith_spec (s prefix : string) :
  PyStr.startswith s prefix = true <-> exists rest, s = prefix +:+ rest.
Proof.
  revert s; induction prefix as [|p prefix IH]; intros s; simpl.
  - split; [intros _; now exists s | reflexivity].
  - destruct s as [|c s].
    + split; [discriminate | intros [rest H]; discriminate].
    + rewrite andb_true_iff, IH. split.
      * intros [Hc [rest ->]]. apply Ascii.eqb_eq in Hc as ->. now exists rest.
      * intros [rest H]. rewrite append_cons in H. injection H as -> ->.
        split; [apply Ascii.eqb_refl | now exists rest].
Qed.

Lemma contains_spec (s sub : string) :
  PyStr.contains s sub = true <-> exists before after, s = before +:+ sub +:+ after.
Proof.
  induction s as [|c s IH].
  - simpl. rewrite orb_false_r, startswith_spec. split.
    + intros [rest ->]. now exists EmptyString, rest.
    + intros [[|x before] [after H]]; [now exists after | discriminate].
  - cbn [PyStr.contains]. rewrite orb_true_iff, startswith_spec, IH. split.
    + intros [[rest ->] | (before & after & ->)].
      * now exists EmptyString, rest.
      * now exists (String c before), after.
    + intros [[|x before] [after H]].
      * left; now exists after.
      * right. rewrite append_cons in H. injection H as -> ->. now exists before, after.
Qed.

(** ** The graders *)

Section Graders.

Context {W : Type} (B : Backend W).

(** C2, as the code has it. Whatever score the grading chain gives,
    [PlanStepChecker] answers [True] and [FinalAnswerChecker], called on a
    state that has a [response], answers [END] exactly when the score
    starts with the lower-case letters y, e, s; for any other score, among
    them Yes, no, the empty string and maybe, they answer [False] and
    replan. *)
Theorem checkers_accept_exactly_the_yes_prefix
    (score : string) (step_state : CheckState) (answer_state : PlanExecute)
    (s1 s1' s2 s2' : Env W) :
  PlanStepChecker_llm_invoke B step_state s1
    = Some (Value {| binary_score := score |}, s1') ->
  FinalAnswerChecker_llm_invoke B answer_state s2
    = Some (Value {| binary_score := score |}, s2') ->
  response answer_state <> None ->
  exists (accepted : bool) (verdict : string),
    PlanStepChecker_call B step_state s1 = Some (Value accepted, s1')
    /\ FinalAnswerChecker_call B answer_state s2 = Some (Value verdict, s2')
    /\ (accepted = true <-> exists rest, score = "yes" +:+ rest)
    /\ (verdict = END <-> exists rest, score = "yes" +:+ rest)
    /\ ((~ exists rest, score = "yes" +:+ rest) -> accepted = false /\ verdict = "replan")
    /\ (In score ["Yes"; "no"; EmptyString; "maybe"] -> accepted = false /\ verdict = "replan").
Proof.
  intros Hstep Hanswer Hresp.
  exists (PyStr.startswith score "yes"),
         (if PyStr.startswith score "yes" then END else "replan").
  assert (Hcall1 : PlanStepChecker_call B step_state s1
                   = Some (Value (PyStr.startswith score "yes"), s1')).
  { unfold PlanStepChecker_call, bind. rewrite Hstep. cbn [binary_score].
    now destruct (PyStr.startswith score "yes"). }
  assert (Hcall2 : FinalAnswerChecker_call B answer_state s2
                   = Some (Value (if PyStr.startswith score "yes" then END else "replan"), s2')).
  { unfold FinalAnswerChecker_call, bind. rewrite Hanswer. cbn [binary_score].
    destruct (response answer_state); [|congruence].
    now destruct (PyStr.startswith score "yes"). }
  pose proof (startswith_spec score "yes") as Hspec.
  repeat split; try assumption; try apply Hspec.
  - intros H. apply Hspec. destruct (PyStr.startswith score "yes"); [reflexivity | discriminate].
  - intros H. apply Hspec in H. now rewrite H.
  - destruct (PyStr.startswith score "yes") eqn:E; [|reflexivity].
    exfalso. apply H. now apply Hspec.
  - destruct (PyStr.startswith score "yes") eqn:E; [|reflexivity].
    exfalso. apply H. now apply Hspec.
  - destruct H as [<- | [<- | [<- | [<- | []]]]]; reflexivity.
  - destruct H as [<- | [<- | [<- | [<- | []]]]]; reflexivity.
Qed.

End Graders.

Lemma checkers_accept_exactly_the_yes_prefix_witness :
  let B := Mock.backend None "t1" in
  let step_state := {| context := "compute 2+3"; question := "What is 2+3?" |} in
  let answer_state :=
    {| messages := []; input := None; plan := None; past_steps := [];
       response := Some "5"; output := Some "5" |} in
  let w :=
    {| Mock.plans := []; Mock.grades := [Value {| binary_score := "yes, it is" |}];
       Mock.agent_outputs := []; Mock.answers := [];
       Mock.answer_grades := [Value {| binary_score := "yes, it is" |}];
       Mock.replans := []; Mock.ticks := 0 |} in
  exists s1' s2',
    PlanStepChecker_call B step_state (Mock.start w) = Some (Value true, s1')
    /\ FinalAnswerChecker_call B answer_state (Mock.start w) = Some (Value END, s2').
Proof.
  intros B step_state answer_state w.
  destruct (checkers_accept_exactly_the_yes_prefix B "yes, it is" step_state answer_state
              (Mock.start w) _ (Mock.start w) _ eq_refl eq_refl)
    as (accepted & verdict & H1 & H2 & Hacc & Hver & _).
  { discriminate. }
  assert (accepted = true) as -> by (apply Hacc; now exists ", it is").
  assert (verdict = END) as -> by (apply Hver; now exists ", it is").
  eauto.
Defined.

(** On a state without a [response], such as the state a query starts
    from, the score does not decide: the grader having scored yes, it is,
    [FinalAnswerChecker] gives no [END] but raises the [KeyError] of the key
    it reads for its message, and the grader having scored no, it gives no
    replan either. *)
Lemma answer_checker_gives_no_verdict_without_a_response :
  let B := Mock.backend None "t1" in
  let state := prepare_initial_state "What is 2+3?" in
  let graded (score : string) :=
    Mock.start
      {| Mock.plans := []; Mock.grades := []; Mock.agent_outputs := [];
         Mock.answers := [];
         Mock.answer_grades := [Value {| binary_score := score |}];
         Mock.replans := []; Mock.ticks := 0 |} in
  response state = None
  /\ option_map fst (FinalAnswerChecker_llm_invoke B state (graded "yes, it is"))
     = Some (Value {| binary_score := "yes, it is" |})
  /\ option_map fst (FinalAnswerChecker_call B state (graded "yes, it is"))
     = Some (Raise (KeyError "response"))
  /\ option_map fst (FinalAnswerChecker_call B state (graded "no"))
     = Some (Raise (KeyError "response"))
  /\ ~ (exists s',
          FinalAnswerChecker_call B state (graded "yes, it is") = Some (Value END, s')).
Proof.
  intros B state graded.
  split; [reflexivity|]. split; [vm_compute; reflexivity|].
  split; [vm_compute; reflexivity|]. split; [vm_compute; reflexivity|].
  intros [s' H]. vm_compute in H. discriminate.
Qed.

(** ** The retry loop *)

Section Retry.

Context {W : Type} (B : Backend W).

Lemma retry_settles {A} (n : nat) (llm_invoke : Eff (Env W) A) s r s' :
  settles_after n llm_invoke s r s' ->
  forall fuel, n < fuel -> retry_until_parsed fuel llm_invoke s = Some (r, s').
Proof.
  intros (s1 & Hfail & Hlast & Hr).
  revert s Hfail. induction n as [|n IH]; intros s Hfail fuel Hfuel.
  - simpl in Hfail. subst s1. destruct fuel as [|fuel]; [lia|].
    simpl. unfold try_except. rewrite Hlast.
    destruct r as [a|e]; [reflexivity|].
    specialize (Hr e eq_refl). now destruct e.
  - destruct Hfail as (msg & s2 & Hcall & Hfail).
    destruct fuel as [|fuel]; [lia|].
    simpl. unfold try_except. rewrite Hcall.
    apply IH; [assumption | lia].
Qed.

Lemma retry_hides_parse_failures {A} (fuel : nat) (llm_invoke : Eff (Env W) A) s e s' :
  retry_until_parsed fuel llm_invoke s = Some (Raise e, s') ->
  is_parse_failure e = false.
Proof.
  revert s. induction fuel as [|fuel IH]; intros s; simpl; [discriminate|].
  unfold try_except.
  destruct (llm_invoke s) as [[[a|e0] s1]|]; try discriminate.
  destruct e0; try (intros [= <- <-]; reflexivity).
  apply IH.
Qed.

(** the calls a loop makes are calls of its invocation, in a row *)
Lemma parse_failures_log {I A} (chain : I -> W -> outcome A * W)
    (entry : I -> outcome A -> call) (arg : I) (n : nat) (s s' : Env W) :
  parse_failures n (external chain entry arg) s s' ->
  exists msgs,
    length msgs = n
    /\ calls s' = calls s ++ map (fun msg => entry arg (Raise (OutputParserException msg))) msgs.
Proof.
  revert s. induction n as [|n IH]; intros s; simpl.
  - intros <-. exists []. now rewrite app_nil_r.
  - intros (msg & s1 & Hcall & Hrest).
    destruct (IH _ Hrest) as (msgs & Hlen & Hlog).
    exists (msg :: msgs). split; [simpl; congruence|].
    unfold external in Hcall. destruct (chain arg (world s)) as [r w].
    injection Hcall as -> <-. simpl in Hlog. rewrite Hlog, <- app_assoc. reflexivity.
Qed.

Lemma settles_log {I A} (chain : I -> W -> outcome A * W)
    (entry : I -> outcome A -> call) (arg : I) (n : nat) (s s' : Env W) r :
  settles_after n (external chain entry arg) s r s' ->
  exists msgs,
    length msgs = n
    /\ calls s' = calls s
                  ++ map (fun msg => entry arg (Raise (OutputParserException msg))) msgs
                  ++ [entry arg r].
Proof.
  intros (s1 & Hfail & Hlast & _).
  destruct (parse_failures_log _ _ _ _ _ _ Hfail) as (msgs & Hlen & Hlog).
  exists msgs. split; [assumption|].
  unfold external in Hlast. destruct (chain arg (world s1)) as [r' w].
  injection Hlast as -> <-. simpl. rewrite Hlog, <- app_assoc. reflexivity.
Qed.

End Retry.

(** ** The planner *)

Section PlannerFacts.

Context {W : Type} (B : Backend W).

Lemma external_inv {I A} (chain : I -> W -> outcome A * W)
    (entry : I -> outcome A -> call) (arg : I) (s : Env W) :
  exists r s',
    external chain entry arg s = Some (r, s')
    /\ calls s' = calls s ++ [entry arg r]
    /\ chain arg (world s) = (r, world s').
Proof.
  unfold external. destruct (chain arg (world s)) as [r w].
  now exists r, {| world := w; calls := calls s ++ [entry arg r] |}.
Qed.

Lemma PlanStepChecker_call_inv (state : CheckState) (s : Env W) :
  exists graded s',
    calls s' = calls s ++ [PlanCheckInvoke state graded]
    /\ PlanStepChecker_call B state s
       = Some (outcome_map (fun g => PyStr.startswith (binary_score g) "yes") graded, s').
Proof.
  destruct (external_inv (plan_check_chain B) PlanCheckInvoke state s)
    as (graded & s' & Hcall & Hlog & _).
  exists graded, s'. split; [assumption|].
  unfold PlanStepChecker_call, PlanStepChecker_llm_invoke, bind. rewrite Hcall.
  destruct graded as [[score]|e]; [|reflexivity].
  cbn [binary_score outcome_map]. now destruct (PyStr.startswith score "yes").
Qed.

(** what the filtering loop leaves: the steps it kept come from [todo] in
    order, each with a grading of its own in the log that starts with yes;
    every grading was asked against [input] *)
Lemma Planner_check_steps_value (input : string) (todo : list string) :
  forall acc s result s',
    Planner_check_steps B input todo acc s = Some (Value result, s') ->
    exists kept gradings,
      result = acc ++ kept
      /\ calls s' = calls s ++ gradings
      /\ kept `sublist_of` todo
      /\ length gradings = length todo
      /\ forall step, In step kept ->
           exists score,
             In (PlanCheckInvoke {| context := step; question := input |}
                                 (Value {| binary_score := score |})) gradings
             /\ PyStr.startswith score "yes" = true.
Proof.
  induction todo as [|step todo IH]; intros acc s result s'; simpl.
  - intros [= <- <-]. exists [], []. rewrite !app_nil_r.
    repeat split; try reflexivity. intros step [].
  - destruct (PlanStepChecker_call_inv {| context := step; question := input |} s)
      as (graded & s1 & Hlog & Hcall).
    unfold bind. rewrite Hcall.
    destruct graded as [[score]|e]; cbn [outcome_map binary_score]; [|discriminate].
    intros Hrest. apply IH in Hrest as (kept & gradings & -> & Hlog' & Hsub & Hlen & Hyes).
    destruct (PyStr.startswith score "yes") eqn:Hscore.
    + exists (step :: kept), (PlanCheckInvoke {| context := step; question := input |}
                                (Value {| binary_score := score |}) :: gradings).
      rewrite <- app_assoc. repeat split.
      * rewrite Hlog', Hlog, <- app_assoc. reflexivity.
      * now constructor.
      * simpl; congruence.
      * intros x [<- | Hin].
        -- exists score. split; [now left | assumption].
        -- destruct (Hyes x Hin) as (sc & Hc & Hp). exists sc. split; [now right | assumption].
    + exists kept, (PlanCheckInvoke {| context := step; question := input |}
                      (Value {| binary_score := score |}) :: gradings).
      repeat split.
      * rewrite Hlog', Hlog, <- app_assoc. reflexivity.
      * now constructor.
      * simpl; congruence.
      * intros x Hin. destruct (Hyes x Hin) as (sc & Hc & Hp).
        exists sc. split; [now right | assumption].
Qed.

(** an exception out of the filtering loop is one the grader raised *)
Lemma Planner_check_steps_raise (input : string) (todo : list string) :
  forall acc s e s',
    Planner_check_steps B input todo acc s = Some (Raise e, s') ->
    exists state log, calls s' = log ++ [PlanCheckInvoke state (Raise e)].
Proof.
  induction todo as [|step todo IH]; intros acc s e s'; simpl; [discriminate|].
  destruct (PlanStepChecker_call_inv {| context := step; question := input |} s)
    as (graded & s1 & Hlog & Hcall).
  unfold bind. rewrite Hcall.
  destruct graded as [[score]|e0]; cbn [outcome_map binary_score].
  - apply IH.
  - intros [= <- <-]. eauto.
Qed.

Lemma retry_log_grows {I A} (chain : I -> W -> outcome A * W)
    (entry : I -> outcome A -> call) (arg : I) (fuel : nat) :
  forall s r s',
    retry_until_parsed fuel (external chain entry arg) s = Some (r, s') ->
    exists log, calls s' = calls s ++ log ++ [entry arg r].
Proof.
  induction fuel as [|fuel IH]; intros s r s'; simpl; [discriminate|].
  unfold try_except.
  destruct (external_inv chain entry arg s) as (r1 & s1 & Hcall & Hlog & _).
  rewrite Hcall.
  assert (Hstop : Some (r1, s1) = Some (r, s') -> exists log, calls s' = calls s ++ log ++ [entry arg r]).
  { intros [= <- <-]. exists []. assumption. }
  destruct r1 as [a|e]; [exact Hstop|].
  destruct e; try exact Hstop.
  intros Hrest. apply IH in Hrest as (log & Hlog').
  exists (entry arg (Raise (OutputParserException msg)) :: log).
  rewrite Hlog', Hlog, <- app_assoc. reflexivity.
Qed.

Lemma Planner_loop_value (rounds tries : nat) (input : string) :
  forall s upd s',
    Planner_loop B rounds tries input s = Some (Value upd, s') ->
    exists generated kept log,
      upd = [("input", PStr input); ("plan", PList (map PStr kept))]
      /\ kept <> []
      /\ calls s' = calls s ++ log
      /\ In (PlannerInvoke [("user", input)] (Value generated)) log
      /\ kept `sublist_of` steps generated
      /\ forall step, In step kept ->
           exists score,
             In (PlanCheckInvoke {| context := step; question := input |}
                                 (Value {| binary_score := score |})) log
             /\ PyStr.startswith score "yes" = true.
Proof.
  induction rounds as [|rounds IH]; intros s upd s'; simpl; [discriminate|].
  unfold bind at 1.
  destruct (retry_until_parsed tries (Planner_llm_invoke B [("user", input)]) s)
    as [[[generated|e] s1]|] eqn:Hgen; try discriminate.
  apply retry_log_grows in Hgen as (log1 & Hlog1).
  unfold bind at 1.
  destruct (Planner_check_steps B input (steps generated) [] s1)
    as [[[kept|e] s2]|] eqn:Hcheck; try discriminate.
  apply Planner_check_steps_value in Hcheck
    as (kept' & gradings & Hkept & Hlog2 & Hsub & _ & Hyes).
  simpl in Hkept. subst kept'.
  destruct kept as [|step kept]; simpl.
  - intros Hrest. apply IH in Hrest as (g & k & log & -> & Hne & Hlog & Hin & Hsub' & Hyes').
    exists g, k, ((log1 ++ [PlannerInvoke [("user", input)] (Value generated)]) ++ gradings ++ log).
    repeat split; try assumption.
    + rewrite Hlog, Hlog2, Hlog1, <- !app_assoc. reflexivity.
    + rewrite !in_app_iff. auto.
    + intros x Hx. destruct (Hyes' x Hx) as (sc & Hc & Hp).
      exists sc. split; [rewrite !in_app_iff; auto | assumption].
  - intros [= <- <-].
    exists generated, (step :: kept),
      ((log1 ++ [PlannerInvoke [("user", input)] (Value generated)]) ++ gradings).
    repeat split; try assumption; try discriminate.
    + rewrite Hlog2, Hlog1, <- !app_assoc. reflexivity.
    + rewrite !in_app_iff. simpl. auto.
    + intros x Hx. destruct (Hyes x Hx) as (sc & Hc & Hp).
      exists sc. split; [rewrite !in_app_iff; auto | assumption].
Qed.

(** a parse failure that gets out of the planner is the step grader's *)
Lemma Planner_loop_raise (rounds tries : nat) (input : string) :
  forall s e s',
    Planner_loop B rounds tries input s = Some (Raise e, s') ->
    is_parse_failure e = true ->
    exists state log, calls s' = log ++ [PlanCheckInvoke state (Raise e)].
Proof.
  induction rounds as [|rounds IH]; intros s e s'; simpl; [discriminate|].
  unfold bind at 1.
  destruct (retry_until_parsed tries (Planner_llm_invoke B [("user", input)]) s)
    as [[[generated|e0] s1]|] eqn:Hgen; try discriminate.
  - unfold bind at 1.
    destruct (Planner_check_steps B input (steps generated) [] s1)
      as [[[kept|e1] s2]|] eqn:Hcheck; try discriminate.
    + destruct (length kept =? 0)%nat; [apply IH | discriminate].
    + intros [= <- <-] _. eapply Planner_check_steps_raise; eassumption.
  - intros [= <- <-] Hparse.
    apply retry_hides_parse_failures in Hgen. congruence.
Qed.

End PlannerFacts.

Section PlannerTheorems.

Context {W : Type} (B : Backend W).

(** C3. A value returned by [Planner] carries at least one step; each step
    it carries was graded, against the original input, with a score that
    starts with yes; the steps keep the order they have in the plan the model
    generated; and a generated plan of which no step survives the grading is
    dropped, the loop going back to the model for another one. *)
Theorem planner_returns_a_nonempty_graded_plan
    (rounds tries : nat) (state : PlanExecute) (s s' : Env W) (upd : update) :
  Planner_call B rounds tries state s = Some (Value upd, s') ->
  exists original generated kept log,
    last (messages state) = Some original
    /\ upd = [("input", PStr (content original)); ("plan", PList (map PStr kept))]
    /\ 1 <= length kept
    /\ calls s' = calls s ++ log
    /\ In (PlannerInvoke [("user", content original)] (Value generated)) log
    /\ kept `sublist_of` steps generated
    /\ (forall step, In step kept ->
          exists score rest,
            In (PlanCheckInvoke {| context := step; question := content original |}
                                (Value {| binary_score := score |})) log
            /\ score = "yes" +:+ rest)
    /\ (forall round tries' s0 dropped s1 s2,
          retry_until_parsed tries' (Planner_llm_invoke B [("user", content original)]) s0
            = Some (Value dropped, s1) ->
          Planner_check_steps B (content original) (steps dropped) [] s1
            = Some (Value [], s2) ->
          Planner_loop B (S round) tries' (content original) s0
            = Planner_loop B round tries' (content original) s2).
Proof.
  unfold Planner_call. destruct (last (messages state)) as [original|] eqn:Hlast;
    [|discriminate].
  intros Hloop.
  apply Planner_loop_value in Hloop
    as (generated & kept & log & -> & Hne & Hlog & Hin & Hsub & Hyes).
  exists original, generated, kept, log.
  repeat split; try assumption.
  - destruct kept; [congruence | simpl; lia].
  - intros step Hstep. destruct (Hyes step Hstep) as (score & Hc & Hp).
    apply startswith_spec in Hp as [rest ->]. eauto.
  - intros round tries' s0 dropped s1 s2 Hgen Hcheck.
    cbn [Planner_loop]. unfold bind. rewrite Hgen, Hcheck. reflexivity.
Qed.

(** C4, as the code has it. In [Planner], [AnswerMaker] and [Replanner]
    the component's own invocation of the model is issued again, with the
    same argument, as long as its output fails to parse, however many times
    that is: once it settles, after [n] failures, on a value or on another
    exception, the component gives that value or raises that very
    exception, having made [n + 1] invocations and nothing after the last.
    A parse failure of the component's own invocation never leaves the
    component: what [AnswerMaker] and [Replanner] raise is never one. The
    step grader that [Planner] calls is not under the retry: a parse failure
    that leaves [Planner] was raised by the step grader, as the last call
    of the log. *)
Theorem parse_failures_are_retried_and_other_exceptions_propagate
    (n fuel : nat) (query : string) (state : PlanExecute)
    (sp sp' sa sa' sr sr' : Env W)
    (rp : outcome Plan) (ra : outcome Response) (rr : outcome Plan) :
  n < fuel ->
  settles_after n (Planner_llm_invoke B [("user", query)]) sp rp sp' ->
  settles_after n (AnswerMaker_llm_invoke B state) sa ra sa' ->
  settles_after n (Replanner_llm_invoke B state) sr rr sr' ->
  (retry_until_parsed fuel (Planner_llm_invoke B [("user", query)]) sp = Some (rp, sp')
   /\ (forall e rounds, rp = Raise e ->
         Planner_loop B (S rounds) fuel query sp = Some (Raise e, sp'))
   /\ exists msgs,
        length msgs = n
        /\ calls sp' = calls sp
             ++ map (fun msg => PlannerInvoke [("user", query)]
                                  (Raise (OutputParserException msg))) msgs
             ++ [PlannerInvoke [("user", query)] rp])
  /\ (AnswerMaker_call B fuel state sa
        = Some (outcome_map (fun o => [("output", PStr (Response_response o))]) ra, sa')
      /\ exists msgs,
           length msgs = n
           /\ calls sa' = calls sa
                ++ map (fun msg => AnswerInvoke state (Raise (OutputParserException msg))) msgs
                ++ [AnswerInvoke state ra])
  /\ (Replanner_call B fuel state sr
        = Some (outcome_map (fun o => [("plan", PList (map PStr (steps o)))]) rr, sr')
      /\ exists msgs,
           length msgs = n
           /\ calls sr' = calls sr
                ++ map (fun msg => ReplanInvoke state (Raise (OutputParserException msg))) msgs
                ++ [ReplanInvoke state rr])
  /\ (forall k st s e s',
        AnswerMaker_call B k st s = Some (Raise e, s') -> is_parse_failure e = false)
  /\ (forall k st s e s',
        Replanner_call B k st s = Some (Raise e, s') -> is_parse_failure e = false)
  /\ (forall rounds k st s e s',
        Planner_call B rounds k st s = Some (Raise e, s') ->
        is_parse_failure e = true ->
        exists graded log, calls s' = log ++ [PlanCheckInvoke graded (Raise e)]).
Proof.
  intros Hfuel Hp Ha Hr.
  pose proof (retry_settles n _ _ _ _ Hp fuel Hfuel) as Hp'.
  pose proof (retry_settles n _ _ _ _ Ha fuel Hfuel) as Ha'.
  pose proof (retry_settles n _ _ _ _ Hr fuel Hfuel) as Hr'.
  repeat split.
  - exact Hp'.
  - intros e rounds ->. cbn [Planner_loop]. unfold bind. now rewrite Hp'.
  - exact (settles_log _ _ _ _ _ _ _ Hp).
  - unfold AnswerMaker_call, bind. rewrite Ha'. now destruct ra.
  - exact (settles_log _ _ _ _ _ _ _ Ha).
  - unfold Replanner_call, bind. rewrite Hr'. now destruct rr.
  - exact (settles_log _ _ _ _ _ _ _ Hr).
  - intros k st s e s'. unfold AnswerMaker_call, bind.
    destruct (retry_until_parsed k (AnswerMaker_llm_invoke B st) s)
      as [[[o|e0] s1]|] eqn:Hloop; try discriminate.
    intros [= <- <-]. eapply retry_hides_parse_failures; eassumption.
  - intros k st s e s'. unfold Replanner_call, bind.
    destruct (retry_until_parsed k (Replanner_llm_invoke B st) s)
      as [[[o|e0] s1]|] eqn:Hloop; try discriminate.
    intros [= <- <-]. eapply retry_hides_parse_failures; eassumption.
  - intros rounds k st s e s'. unfold Planner_call.
    destruct (last (messages st)); [apply Planner_loop_raise|].
    intros [= <- <-]. discriminate.
Qed.

End PlannerTheorems.

Lemma planner_returns_a_nonempty_graded_plan_witness :
  let B := Mock.backend None "t1" in
  let state := prepare_initial_state "What is 2+3, then double it?" in
  exists s',
    Planner_call B 3 3 state (Mock.start Mock.arithmetic)
      = Some (Value [("input", PStr "What is 2+3, then double it?");
                     ("plan", PList [PStr "compute 2+3"; PStr "double the result"])], s')
    /\ exists kept,
         1 <= length kept
         /\ kept `sublist_of` ["compute 2+3"; "double the result"].
Proof.
  intros B state. eexists. split; [vm_compute; reflexivity|].
  destruct (planner_returns_a_nonempty_graded_plan B 3 3 state
              (Mock.start Mock.arithmetic) _ _ eq_refl)
    as (original & generated & kept & log & Hlast & Hupd & Hlen & Hlog & Hin & Hsub & _).
  exists kept. split; [assumption|].
  vm_compute in Hlog. subst log.
  destruct Hin as [Hin | [Hin | [Hin | [Hin | []]]]]; try discriminate.
  injection Hin as _ <-. exact Hsub.
Defined.

Lemma parse_failures_are_retried_and_other_exceptions_propagate_witness :
  let B := Mock.backend None "t1" in
  let state := prepare_initial_state "What is 2+3?" in
  let w :=
    {| Mock.plans := [Mock.parse_failure; Mock.parse_failure;
                      Raise (OtherException "ConnectionError" "connection reset")];
       Mock.grades := [];
       Mock.agent_outputs := [];
       Mock.answers := [Mock.parse_failure; Mock.parse_failure;
                        Value {| Response_response := "5" |}];
       Mock.answer_grades := [];
       Mock.replans := [Mock.parse_failure; Mock.parse_failure;
                        Value {| steps := ["add 2 and 3"] |}];
       Mock.ticks := 0 |} in
  exists sp' sa' sr',
    Planner_call B 1 3 state (Mock.start w)
      = Some (Raise (OtherException "ConnectionError" "connection reset"), sp')
    /\ AnswerMaker_call B 3 state (Mock.start w) = Some (Value [("output", PStr "5")], sa')
    /\ Replanner_call B 3 state (Mock.start w)
       = Some (Value [("plan", PList [PStr "add 2 and 3"])], sr').
Proof.
  intros B state w.
  assert (Hp : exists sp', settles_after 2 (Planner_llm_invoke B [("user", "What is 2+3?")])
                 (Mock.start w) (Raise (OtherException "ConnectionError" "connection reset")) sp').
  { eexists. eexists. split; [|split].
    - simpl. eexists. eexists. split; [reflexivity|].
      eexists. eexists. split; reflexivity.
    - reflexivity.
    - intros e [= <-]. reflexivity. }
  assert (Ha : exists sa', settles_after 2 (AnswerMaker_llm_invoke B state)
                 (Mock.start w) (Value {| Response_response := "5" |}) sa').
  { eexists. eexists. split; [|split].
    - simpl. eexists. eexists. split; [reflexivity|].
      eexists. eexists. split; reflexivity.
    - reflexivity.
    - discriminate. }
  assert (Hr : exists sr', settles_after 2 (Replanner_llm_invoke B state)
                 (Mock.start w) (Value {| steps := ["add 2 and 3"] |}) sr').
  { eexists. eexists. split; [|split].
    - simpl. eexists. eexists. split; [reflexivity|].
      eexists. eexists. split; reflexivity.
    - reflexivity.
    - discriminate. }
  destruct Hp as [sp' Hp], Ha as [sa' Ha], Hr as [sr' Hr].
  destruct (parse_failures_are_retried_and_other_exceptions_propagate
              B 2 3 "What is 2+3?" state _ _ _ _ _ _ _ _ _ ltac:(lia) Hp Ha Hr)
    as ((_ & Hplanner & _) & (Hanswer & _) & (Hreplan & _) & _).
  exists sp', sa', sr'. repeat split.
  - exact (Hplanner _ 0 eq_refl).
  - exact Hanswer.
  - exact Hreplan.
Defined.

(** In [Planner] a parse failure does reach the caller when it is the step
    grader's: the model gives a plan of two steps, the grading of the second
    fails to parse, and the planner raises that failure, with fifty rounds
    and fifty tries at hand and a second plan in store. The plan is not
    asked for again and the grading is not repeated: the failed grading is
    the third and last call. *)
Lemma grader_parse_failure_reaches_the_caller_of_planner :
  let B := Mock.backend None "t1" in
  let query := "What is 2+3, then double it?" in
  let w :=
    {| Mock.plans := [Value {| steps := ["compute 2+3"; "double the result"] |};
                      Value {| steps := ["add 2 and 3"] |}];
       Mock.grades := [Mock.yes; Mock.parse_failure; Mock.yes; Mock.yes];
       Mock.agent_outputs := []; Mock.answers := []; Mock.answer_grades := [];
       Mock.replans := []; Mock.ticks := 0 |} in
  exists s',
    Planner_call B 50 50 (prepare_initial_state query) (Mock.start w)
      = Some (Raise (OutputParserException "Failed to parse tool call"), s')
    /\ calls s'
       = [PlannerInvoke [("user", query)]
            (Value {| steps := ["compute 2+3"; "double the result"] |});
          PlanCheckInvoke {| context := "compute 2+3"; question := query |} Mock.yes;
          PlanCheckInvoke {| context := "double the result"; question := query |}
            Mock.parse_failure].
Proof.
  intros B query w. eexists. split; vm_compute; reflexivity.
Qed.

(** ** What [repr] does to a string *)

Lemma contains_trans (s mid sub : string) :
  PyStr.contains s mid = true -> PyStr.contains mid sub = true ->
  PyStr.contains s sub = true.
Proof.
  rewrite !contains_spec. intros (a & b & ->) (c & d & ->).
  exists (a +:+ c), (d +:+ b). now rewrite !append_assoc.
Qed.

Lemma escape_app (quote : ascii) (a b : string) :
  PyStr.escape quote (a +:+ b) = PyStr.escape quote a +:+ PyStr.escape quote b.
Proof.
  induction a as [|c a IH]; [reflexivity|].
  rewrite append_cons. cbn [PyStr.escape]. now rewrite IH, append_assoc.
Qed.

Lemma repr_quote_cases (s : string) :
  PyStr.repr_quote s = PyStr.squote \/ PyStr.repr_quote s = PyStr.dquote.
Proof.
  unfold PyStr.repr_quote.
  destruct (PyStr.has_char PyStr.squote s && negb (PyStr.has_char PyStr.dquote s)); auto.
Qed.

Lemma escape_kept (quote : ascii) (s : string) :
  quote = PyStr.squote \/ quote = PyStr.dquote ->
  all_chars kept_by_repr s = true ->
  PyStr.escape quote s = s.
Proof.
  intros Hq. induction s as [|c s IH]; [reflexivity|].
  cbn [all_chars PyStr.escape]. rewrite andb_true_iff. intros [Hc Hs].
  rewrite (IH Hs). unfold kept_by_repr in Hc. apply andb_true_iff in Hc as [H1 H2].
  apply String.eqb_eq in H1, H2.
  destruct Hq as [-> | ->]; [rewrite H1 | rewrite H2]; reflexivity.
Qed.

(** the [repr] of a string that has [part] in it has [part] as [repr]
    escapes it *)
Lemma repr_contains_escaped (before part after : string) :
  let whole := before +:+ part +:+ after in
  PyStr.contains (PyStr.repr whole) (PyStr.escape (PyStr.repr_quote whole) part) = true.
Proof.
  intros whole. apply contains_spec. unfold PyStr.repr.
  set (q := PyStr.repr_quote whole). unfold whole.
  rewrite !escape_app.
  exists (String q (PyStr.escape q before)), (PyStr.escape q after +:+ PyStr.chr q).
  now rewrite append_cons, !append_assoc.
Qed.

Lemma join_cons (sep p p' : string) (parts : list string) :
  PyStr.join sep (p :: p' :: parts) = p +:+ sep +:+ PyStr.join sep (p' :: parts).
Proof. reflexivity. Qed.

Lemma join_contains (sep : string) (parts : list string) (part : string) :
  In part parts -> PyStr.contains (PyStr.join sep parts) part = true.
Proof.
  induction parts as [|p parts IH]; [intros []|].
  intros [<- | Hin].
  - destruct parts as [|p' parts].
    + apply contains_spec. exists EmptyString, EmptyString. now rewrite append_nil_r.
    + rewrite join_cons. apply contains_spec. exists EmptyString. eexists. reflexivity.
  - specialize (IH Hin). destruct parts as [|p' parts]; [destruct Hin|].
    rewrite join_cons. apply contains_spec in IH as (a & b & ->).
    apply contains_spec. exists (p +:+ sep +:+ a), b. now rewrite !append_assoc.
Qed.

Lemma contains_app_l (a b sub : string) :
  PyStr.contains a sub = true -> PyStr.contains (a +:+ b) sub = true.
Proof.
  rewrite !contains_spec. intros (x & y & ->).
  exists x, (y +:+ b). now rewrite !append_assoc.
Qed.

Lemma contains_app_r (a b sub : string) :
  PyStr.contains b sub = true -> PyStr.contains (a +:+ b) sub = true.
Proof.
  rewrite !contains_spec. intros (x & y & ->).
  exists (a +:+ x), y. now rewrite !append_assoc.
Qed.

(** the prompt of a step shows the [repr] of every record made so far *)
Lemma task_formatted_contains (step : string) (out_state : list string) (record : string) :
  In record out_state ->
  PyStr.contains (task_formatted step out_state) (PyStr.repr record) = true.
Proof.
  intros Hin. unfold task_formatted. cbn [py_str py_repr].
  do 9 apply contains_app_r.
  apply contains_app_l, contains_app_r, contains_app_l.
  apply join_contains. rewrite map_map. cbn [py_repr].
  apply (in_map PyStr.repr) in Hin. exact Hin.
Qed.

(** ** The executor *)

Lemma step_record_repr (step output : string) :
  PyStr.contains (PyStr.repr (step_record step output))
    (PyStr.escape (PyStr.repr_quote (step_record step output)) output) = true.
Proof.
  pose proof (repr_contains_escaped ("Task is " +:+ step +:+ ", Response is ")
                                    output EmptyString) as H.
  cbn zeta in H. rewrite append_nil_r, !append_assoc in H. exact H.
Qed.

Section ExecutorFacts.

Context {W : Type} (B : Backend W).

(** One run of the executor's loop, from any list of records [acc]: it never
    runs out of fuel; its calls are one prompt per step reached, each built
    from the records made before it; and it gives either the records of all
    the steps or the exception of its last call. *)
Lemma Executor_steps_log (self : Executor) (plan : list string) :
  forall (acc : list string) (s : Env W),
  exists r s' (outputs : list string) (log : list call),
    Executor_steps B self plan acc s = Some (r, s')
    /\ calls s' = calls s ++ log
    /\ (forall i c, log !! i = Some c ->
          exists step ri,
            plan !! i = Some step
            /\ c = AgentInvoke
                     (task_formatted step (acc ++ take i (zip_with step_record plan outputs)))
                     ri
            /\ (forall o, ri = Value o -> outputs !! i = Some o)
            /\ (forall e, ri = Raise e -> r = Raise e))
    /\ match r with
       | Value out =>
           out = acc ++ zip_with step_record plan outputs
           /\ length outputs = length plan
           /\ length log = length plan
       | Raise e => exists prompt front, log = front ++ [AgentInvoke prompt (Raise e)]
       end.
Proof.
  induction plan as [|step plan IH]; intros acc s.
  - exists (Value acc), s, [], []. simpl. rewrite !app_nil_r.
    repeat split; try reflexivity. intros i c Hic. destruct i; discriminate.
  - destruct (external_inv (agent_executor_invoke B (agent_executor self)) AgentInvoke
                (task_formatted step acc) s) as (r1 & s1 & Hcall & Hlog1 & _).
    destruct r1 as [o|e].
    + destruct (IH (acc ++ [step_record step o]) s1)
        as (r & s' & outputs & log & Hrun & Hlog & Hpoint & Hres).
      exists r, s', (o :: outputs), (AgentInvoke (task_formatted step acc) (Value o) :: log).
      split; [|split; [|split]].
      * cbn [Executor_steps]. unfold bind. rewrite Hcall. exact Hrun.
      * rewrite Hlog, Hlog1, <- app_assoc. reflexivity.
      * intros [|i] c Hic.
        -- injection Hic as <-. exists step, (Value o). simpl. rewrite app_nil_r.
           repeat split; [|discriminate]. intros o' [= <-]. reflexivity.
        -- simpl in Hic. destruct (Hpoint i c Hic) as (st & ri & Hst & Hc & Hout & Hexn).
           exists st, ri. repeat split; try assumption.
           rewrite Hc. simpl. rewrite <- app_assoc. reflexivity.
      * destruct r as [out|e].
        -- destruct Hres as (-> & Hlen & Hlen'). simpl. rewrite <- app_assoc.
           repeat split; congruence.
        -- destruct Hres as (prompt & front & ->).
           exists prompt, (AgentInvoke (task_formatted step acc) (Value o) :: front).
           reflexivity.
    + exists (Raise e), s1, [], [AgentInvoke (task_formatted step acc) (Raise e)].
      split; [|split; [|split]].
      * cbn [Executor_steps]. unfold bind. rewrite Hcall. reflexivity.
      * exact Hlog1.
      * intros [|i] c Hic; [|destruct i; discriminate].
        injection Hic as <-. exists step, (Raise e). simpl. rewrite app_nil_r.
        repeat split; [discriminate|]. intros e' [= <-]. reflexivity.
      * exists (task_formatted step acc), []. reflexivity.
Qed.

End ExecutorFacts.

Section ExecutorTheorems.

Context {W : Type} (B : Backend W).

(** a call of the executor on a state that has a plan: it ends, and this is
    what it leaves in the log and in the records *)
Lemma Executor_call_log (self : Executor) (state : PlanExecute) (todo : list string)
    (s : Env W) :
  plan state = Some todo ->
  exists r s' (outputs : list string) (log : list call),
    Executor_call B self state s = Some (r, s')
    /\ calls s' = calls s ++ log
    /\ (forall i c, log !! i = Some c ->
          exists step ri,
            todo !! i = Some step
            /\ c = AgentInvoke
                     (task_formatted step (take i (zip_with step_record todo outputs))) ri
            /\ (forall o, ri = Value o -> outputs !! i = Some o)
            /\ (forall e, ri = Raise e -> exists e', r = Raise e'))
    /\ match r with
       | Value upd =>
           upd = [("past_steps", PList (map PStr (zip_with step_record todo outputs)))]
           /\ length outputs = length todo
           /\ length log = length todo
       | Raise e => exists prompt front, log = front ++ [AgentInvoke prompt (Raise e)]
       end.
Proof.
  intros Hplan.
  destruct (Executor_steps_log B self todo [] s)
    as (rs & s' & outputs & log & Hrun & Hlog & Hpoint & Hres).
  exists (outcome_map (fun out_state => [("past_steps", PList (map PStr out_state))]) rs),
         s', outputs, log.
  split; [|split; [exact Hlog|split]].
  - unfold Executor_call. rewrite Hplan. unfold bind. rewrite Hrun. now destruct rs.
  - intros i c Hic. destruct (Hpoint i c Hic) as (step & ri & Hstep & Hc & Hout & Hexn).
    exists step, ri. repeat split; try assumption.
    intros e He. rewrite (Hexn e He). now exists e.
  - destruct rs as [out|e]; cbn [outcome_map]; [|exact Hres].
    destruct Hres as (-> & Hlen & Hlen'). now repeat split.
Qed.

(** C6. On a state that has a plan, a call of the executor ends without
    running out of fuel; when it returns, [past_steps] has as many entries
    as the plan has steps, the entry at each position being the record of
    the step at that position and of the output the agent gave for it. *)
Theorem executor_returns_one_record_per_plan_step
    (self : Executor) (state : PlanExecute) (todo : list string) (s : Env W) :
  plan state = Some todo ->
  exists r s' log,
    Executor_call B self state s = Some (r, s')
    /\ calls s' = calls s ++ log
    /\ (forall e, r = Raise e ->
          exists prompt front, log = front ++ [AgentInvoke prompt (Raise e)])
    /\ forall upd, r = Value upd ->
         exists out_state,
           upd = [("past_steps", PList (map PStr out_state))]
           /\ length out_state = length todo
           /\ length log = length todo
           /\ forall i step, todo !! i = Some step ->
                exists prompt output,
                  log !! i = Some (AgentInvoke prompt (Value output))
                  /\ out_state !! i = Some (step_record step output).
Proof.
  intros Hplan.
  destruct (Executor_call_log self state todo s Hplan)
    as (r & s' & outputs & log & Hcall & Hlog & Hpoint & Hres).
  exists r, s', log. split; [exact Hcall|split; [exact Hlog|split]].
  { intros e ->. exact Hres. }
  intros upd ->. destruct Hres as (-> & Hlen & Hlen').
  exists (zip_with step_record todo outputs).
  split; [reflexivity|split; [|split; [exact Hlen'|]]].
  - rewrite length_zip_with. lia.
  - intros i step Hstep.
    assert (Hi : i < length log) by (rewrite Hlen'; eapply lookup_lt_Some; eassumption).
    apply lookup_lt_is_Some in Hi as [c Hc].
    destruct (Hpoint i c Hc) as (step' & ri & Hstep' & -> & Hout & Hexn).
    destruct ri as [o|e]; [|destruct (Hexn e eq_refl); discriminate].
    eexists _, o. split; [exact Hc|].
    apply lookup_zip_with_Some. exists step, o. repeat split; auto.
Qed.

(** C5, as the code has it. Every entry of the returned [past_steps] is one
    string, [Task is <step>, Response is <output>], made of the text of the
    step at the same position and of the output the agent gave for it; it is
    not a tuple. *)
Theorem executor_records_are_formatted_strings
    (self : Executor) (state : PlanExecute) (todo : list string)
    (s s' : Env W) (upd : update) :
  plan state = Some todo ->
  Executor_call B self state s = Some (Value upd, s') ->
  exists records,
    upd = [("past_steps", PList records)]
    /\ forall i record, records !! i = Some record ->
         exists step output prompt,
           todo !! i = Some step
           /\ calls s' !! (length (calls s) + i) = Some (AgentInvoke prompt (Value output))
           /\ record = PStr ("Task is " +:+ step +:+ ", Response is " +:+ output)
           /\ forall items, record <> PTuple items.
Proof.
  intros Hplan Hcall.
  destruct (Executor_call_log self state todo s Hplan)
    as (r & s1 & outputs & log & Hcall' & Hlog & Hpoint & Hres).
  rewrite Hcall in Hcall'. injection Hcall' as <- <-.
  destruct Hres as (-> & Hlen & Hlen').
  eexists. split; [reflexivity|].
  intros i record Hrec.
  rewrite list_lookup_fmap in Hrec.
  destruct (zip_with step_record todo outputs !! i) as [text|] eqn:Htext; [|discriminate].
  injection Hrec as <-.
  apply lookup_zip_with_Some in Htext as (step & output & -> & Hstep & Hout).
  assert (Hi : i < length log) by (rewrite Hlen'; eapply lookup_lt_Some; eassumption).
  apply lookup_lt_is_Some in Hi as [c Hc].
  destruct (Hpoint i c Hc) as (step' & ri & Hstep' & -> & Hout' & Hexn).
  destruct ri as [o|e]; [|destruct (Hexn e eq_refl); discriminate].
  specialize (Hout' o eq_refl). rewrite Hout in Hout'. injection Hout' as <-.
  exists step, output. eexists. repeat split.
  - exact Hstep.
  - rewrite Hlog, lookup_app_r by lia.
    replace (length (calls s) + i - length (calls s)) with i by lia. exact Hc.
  - discriminate.
Qed.

(** C7, as the code has it. Whatever the call ends in, the prompt built for
    a step shows, for every earlier step of the call, the [repr] of that
    step's record, and so the earlier output as [repr] escapes it; it shows
    the output itself when [repr] leaves all its characters alone. *)
Theorem executor_prompt_shows_the_repr_of_earlier_records
    (self : Executor) (state : PlanExecute) (todo : list string)
    (s s' : Env W) (r : outcome update) :
  plan state = Some todo ->
  Executor_call B self state s = Some (r, s') ->
  exists log,
    calls s' = calls s ++ log
    /\ forall i j prompt_i ri prompt_j step_j output_j,
         j < i ->
         log !! i = Some (AgentInvoke prompt_i ri) ->
         log !! j = Some (AgentInvoke prompt_j (Value output_j)) ->
         todo !! j = Some step_j ->
         let record := step_record step_j output_j in
         PyStr.contains prompt_i (PyStr.repr record) = true
         /\ PyStr.contains prompt_i (PyStr.escape (PyStr.repr_quote record) output_j) = true
         /\ (all_chars kept_by_repr output_j = true ->
             PyStr.contains prompt_i output_j = true).
Proof.
  intros Hplan Hcall.
  destruct (Executor_call_log self state todo s Hplan)
    as (r1 & s1 & outputs & log & Hcall' & Hlog & Hpoint & _).
  rewrite Hcall in Hcall'. injection Hcall' as <- <-.
  exists log. split; [exact Hlog|].
  intros i j prompt_i ri prompt_j step_j output_j Hji Hi Hj Hstep record.
  destruct (Hpoint i _ Hi) as (step_i & ri' & Hstep_i & Hci & _).
  destruct (Hpoint j _ Hj) as (step_j' & rj & Hstep_j & Hcj & Hout & _).
  injection Hci as -> <-. injection Hcj as _ <-.
  specialize (Hout output_j eq_refl).
  assert (Hrepr : PyStr.contains
                    (task_formatted step_i (take i (zip_with step_record todo outputs)))
                    (PyStr.repr record) = true).
  { apply task_formatted_contains, list_elem_of_In, elem_of_take.
    exists j. split; [|exact Hji].
    apply lookup_zip_with_Some. exists step_j, output_j. repeat split; assumption. }
  assert (Hesc : PyStr.contains
                   (task_formatted step_i (take i (zip_with step_record todo outputs)))
                   (PyStr.escape (PyStr.repr_quote record) output_j) = true).
  { eapply contains_trans; [exact Hrepr | apply step_record_repr]. }
  repeat split; try assumption.
  intros Hkept. rewrite escape_kept in Hesc; auto using repr_quote_cases.
Qed.

(** C9. With a tool that takes more than one input in the list, building
    the executor, and so the agent, raises the [ValueError]; an executor that
    was built has no such tool, and what a call of it raises is the
    [KeyError] of a state without a plan or the exception the agent executor
    raised in the last call. *)
Theorem multi_input_tools_are_rejected_at_construction (tools : list Tool) :
  ((exists tool, In tool tools /\ 1 < length (tool_args tool)) ->
   Executor_init tools
     = Raise (ValueError "Only supports single input tools when using strategy == react")
   /\ forall fuel with_memory,
        PlanExecuteAgentWithLangGraph_init B fuel tools with_memory
          = Raise (ValueError "Only supports single input tools when using strategy == react"))
  /\ (forall self,
        Executor_init tools = Value self ->
        agent_tools (agent_executor self) = tools
        /\ (forall tool, In tool tools -> length (tool_args tool) <= 1)
        /\ forall state s e s',
             Executor_call B self state s = Some (Raise e, s') ->
             (plan state = None /\ e = KeyError "plan")
             \/ exists prompt front, calls s' = front ++ [AgentInvoke prompt (Raise e)]).
Proof.
  split.
  - intros (tool & Hin & Hargs).
    assert (Hmulti : has_multi_tool_inputs tools = true).
    { apply existsb_exists. exists tool. split; [exact Hin|]. now apply Nat.ltb_lt. }
    unfold PlanExecuteAgentWithLangGraph_init, Executor_init. rewrite Hmulti. auto.
  - intros self. unfold Executor_init.
    destruct (has_multi_tool_inputs tools) eqn:Hmulti; [discriminate|].
    intros [= Hself]. split; [now rewrite <- Hself|split].
    + intros tool Hin.
      destruct (Nat.ltb 1 (length (tool_args tool))) eqn:Hlt.
      * assert (has_multi_tool_inputs tools = true); [|congruence].
        apply existsb_exists. now exists tool.
      * apply Nat.ltb_ge in Hlt. exact Hlt.
    + intros state s e s' Hcall.
      destruct (plan state) as [todo|] eqn:Hplan.
      * right.
        destruct (Executor_call_log self state todo s Hplan)
          as (r & s1 & outputs & log & Hcall' & Hlog & _ & Hres).
        rewrite Hcall in Hcall'. injection Hcall' as <- <-.
        destruct Hres as (prompt & front & ->).
        exists prompt, (calls s ++ front). now rewrite Hlog, app_assoc.
      * left. unfold Executor_call in Hcall. rewrite Hplan in Hcall.
        injection Hcall as <- _. auto.
Qed.

End ExecutorTheorems.

Lemma executor_returns_one_record_per_plan_step_witness :
  plan Mock.planned = Some ["compute 2+3"; "double the result"]
  /\ exists r s' log,
       Executor_call (Mock.backend None "t1") Mock.executor Mock.planned
                     (Mock.start Mock.arithmetic) = Some (r, s')
       /\ calls s' = log
       /\ forall upd, r = Value upd ->
            exists out_state,
              upd = [("past_steps", PList (map PStr out_state))]
              /\ length out_state = 2.
Proof.
  split; [reflexivity|].
  destruct (executor_returns_one_record_per_plan_step (Mock.backend None "t1")
              Mock.executor Mock.planned ["compute 2+3"; "double the result"]
              (Mock.start Mock.arithmetic) eq_refl)
    as (r & s' & log & Hcall & Hlog & _ & Hvalue).
  exists r, s', log. repeat split; try assumption.
  intros upd Hr. destruct (Hvalue upd Hr) as (out_state & Hupd & Hlen & _).
  now exists out_state.
Defined.

(** The record of the first step of the arithmetic scenario is the string
    [Task is compute 2+3, Response is 5], not the pair of the step and its
    output. *)
Lemma executor_record_is_not_a_pair :
  option_map fst (Executor_call (Mock.backend None "t1") Mock.executor Mock.planned
                                (Mock.start Mock.arithmetic))
    = Some (Value [("past_steps",
                    PList [PStr "Task is compute 2+3, Response is 5";
                           PStr "Task is double the result, Response is 10"])])
  /\ PStr "Task is compute 2+3, Response is 5" <> PTuple [PStr "compute 2+3"; PStr "5"]
  /\ ~ (exists s',
          Executor_call (Mock.backend None "t1") Mock.executor Mock.planned
                        (Mock.start Mock.arithmetic)
            = Some (Value [("past_steps",
                            PList [PTuple [PStr "compute 2+3"; PStr "5"];
                                   PTuple [PStr "double the result"; PStr "10"]])], s')).
Proof.
  split; [vm_compute; reflexivity|]. split; [discriminate|].
  intros [s' H]. vm_compute in H. discriminate.
Qed.

Lemma executor_records_are_formatted_strings_witness :
  plan Mock.planned = Some ["compute 2+3"; "double the result"]
  /\ exists s',
       Executor_call (Mock.backend None "t1") Mock.executor Mock.planned
                     (Mock.start Mock.arithmetic)
         = Some (Value [("past_steps",
                         PList [PStr "Task is compute 2+3, Response is 5";
                                PStr "Task is double the result, Response is 10"])], s')
       /\ exists records,
            [("past_steps",
              PList [PStr "Task is compute 2+3, Response is 5";
                     PStr "Task is double the result, Response is 10"])]
              = [("past_steps", PList records)]
            /\ forall i record, records !! i = Some record ->
                 forall items, record <> PTuple items.
Proof.
  split; [reflexivity|]. eexists. split; [vm_compute; reflexivity|].
  destruct (executor_records_are_formatted_strings (Mock.backend None "t1")
              Mock.executor Mock.planned ["compute 2+3"; "double the result"]
              (Mock.start Mock.arithmetic) _ _ eq_refl eq_refl)
    as (records & Hupd & Hrec).
  exists records. split; [exact Hupd|].
  intros i record Hi. destruct (Hrec i record Hi) as (step & output & prompt & _ & _ & _ & H).
  exact H.
Defined.

(** With a first output of two lines, the prompt of the second step does
    not have that output in it: it has [2+3\n= 5], the line break turned
    into a backslash and an n. *)
Lemma executor_prompt_escapes_the_earlier_output :
  exists prompt s',
    Executor_call (Mock.backend None "t1") Mock.executor Mock.planned
                  (Mock.start Mock.multiline)
      = Some (Value [("past_steps",
                      PList [PStr ("Task is compute 2+3, Response is " +:+ Mock.two_lines);
                             PStr "Task is double the result, Response is 10"])], s')
    /\ calls s' !! 1 = Some (AgentInvoke prompt (Value "10"))
    /\ PyStr.contains prompt Mock.two_lines = false
    /\ PyStr.contains prompt
         ("2+3" +:+ String PyStr.backslash "n" +:+ "= 5") = true.
Proof.
  eexists. eexists. split; [vm_compute; reflexivity|].
  split; [vm_compute; reflexivity|].
  split; vm_compute; reflexivity.
Qed.

Lemma executor_prompt_shows_the_repr_of_earlier_records_witness :
  plan Mock.planned = Some ["compute 2+3"; "double the result"]
  /\ exists s' prompt,
       Executor_call (Mock.backend None "t1") Mock.executor Mock.planned
                     (Mock.start Mock.arithmetic)
         = Some (Value [("past_steps",
                         PList [PStr "Task is compute 2+3, Response is 5";
                                PStr "Task is double the result, Response is 10"])], s')
       /\ calls s' !! 1 = Some (AgentInvoke prompt (Value "10"))
       /\ PyStr.contains prompt "'Task is compute 2+3, Response is 5'" = true
       /\ PyStr.contains prompt "5" = true.
Proof.
  split; [reflexivity|].
  destruct (executor_prompt_shows_the_repr_of_earlier_records (Mock.backend None "t1")
              Mock.executor Mock.planned ["compute 2+3"; "double the result"]
              (Mock.start Mock.arithmetic) _ _ eq_refl eq_refl)
    as (log & Hlog & Hshow).
  eexists. eexists. split; [vm_compute; reflexivity|].
  vm_compute in Hlog. subst log.
  split; [vm_compute; reflexivity|].
  destruct (Hshow 1 0 _ _ _ "compute 2+3" "5" ltac:(lia) eq_refl eq_refl eq_refl)
    as (Hrepr & _ & Hplain).
  split; [exact Hrepr | exact (Hplain eq_refl)].
Defined.

Lemma multi_input_tools_are_rejected_at_construction_witness :
  Executor_init [Mock.single_input_tool; Mock.two_input_tool]
    = Raise (ValueError "Only supports single input tools when using strategy == react")
  /\ exists self,
       Executor_init [Mock.single_input_tool] = Value self
       /\ forall tool, In tool [Mock.single_input_tool] -> length (tool_args tool) <= 1.
Proof.
  split.
  - apply (multi_input_tools_are_rejected_at_construction (Mock.backend None "t1")
             [Mock.single_input_tool; Mock.two_input_tool]).
    exists Mock.two_input_tool. split; [simpl; auto | simpl; lia].
  - exists Mock.executor. split; [reflexivity|].
    apply (proj2 (multi_input_tools_are_rejected_at_construction (Mock.backend None "t1")
                    [Mock.single_input_tool]) Mock.executor eq_refl).
Defined.

(** ** Which collaborators a computation calls *)

Section Logs.

Context {W : Type} (B : Backend W) (P : call -> Prop).

Lemma logs_only_ret {A} (a : A) : logs_only (W := W) P (ret a).
Proof. intros s r s' [= <- <-]. exists []. now rewrite app_nil_r. Qed.

Lemma logs_only_raise {A} (e : exn) : logs_only (W := W) (A := A) P (raise e).
Proof. intros s r s' [= <- <-]. exists []. now rewrite app_nil_r. Qed.

Lemma logs_only_bind {A C} (m : Eff (Env W) A) (k : A -> Eff (Env W) C) :
  logs_only P m -> (forall a, logs_only P (k a)) -> logs_only P (bind m k).
Proof.
  intros Hm Hk s r s'. unfold bind.
  destruct (m s) as [[[a|e] s1]|] eqn:Hms; try discriminate.
  - intros Hks. destruct (Hm _ _ _ Hms) as (log1 & Hlog1 & HP1).
    destruct (Hk a _ _ _ Hks) as (log2 & Hlog2 & HP2).
    exists (log1 ++ log2). split; [now rewrite Hlog2, Hlog1, app_assoc|].
    apply Forall_app; auto.
  - intros [= <- <-]. exact (Hm _ _ _ Hms).
Qed.

Lemma logs_only_try {A} (body : Eff (Env W) A) (handler : exn -> Eff (Env W) A) :
  logs_only P body -> (forall e, logs_only P (handler e)) ->
  logs_only P (try_except body handler).
Proof.
  intros Hb Hh s r s'. unfold try_except.
  destruct (body s) as [[[a|e] s1]|] eqn:Hbs; try discriminate.
  - intros [= <- <-]. exact (Hb _ _ _ Hbs).
  - intros Hhs. destruct (Hb _ _ _ Hbs) as (log1 & Hlog1 & HP1).
    destruct (Hh e _ _ _ Hhs) as (log2 & Hlog2 & HP2).
    exists (log1 ++ log2). split; [now rewrite Hlog2, Hlog1, app_assoc|].
    apply Forall_app; auto.
Qed.

Lemma logs_only_external {I A} (chain : I -> W -> outcome A * W)
    (entry : I -> outcome A -> call) (arg : I) :
  (forall r, P (entry arg r)) -> logs_only P (external chain entry arg).
Proof.
  intros HP s r s' Hcall.
  destruct (external_inv chain entry arg s) as (r1 & s1 & Hcall1 & Hlog & _).
  rewrite Hcall in Hcall1. injection Hcall1 as <- <-.
  exists [entry arg r]. split; [exact Hlog | repeat constructor; apply HP].
Qed.

Lemma logs_only_retry {A} (fuel : nat) (llm_invoke : Eff (Env W) A) :
  logs_only P llm_invoke -> logs_only P (retry_until_parsed fuel llm_invoke).
Proof.
  intros Hinv. induction fuel as [|fuel IH]; [intros s r s'; discriminate|].
  cbn [retry_until_parsed]. apply logs_only_try; [exact Hinv|].
  intros e. destruct e; try apply logs_only_raise. exact IH.
Qed.

End Logs.

Create HintDb logs.

#[local] Hint Resolve logs_only_ret logs_only_raise logs_only_bind logs_only_try
  logs_only_external logs_only_retry : logs.

Section NodeLogs.

Context {W : Type} (B : Backend W).

Lemma Planner_call_logs (rounds tries : nat) (state : PlanExecute) :
  logs_only node_call (Planner_call B rounds tries state).
Proof.
  unfold Planner_call. destruct (last (messages state)) as [m|]; [|auto with logs].
  induction rounds as [|rounds IH]; [intros s r s'; discriminate|].
  cbn [Planner_loop]. apply logs_only_bind.
  - apply logs_only_retry, logs_only_external. intros r. exact I.
  - intros generated. apply logs_only_bind.
    + generalize (@nil string). induction (steps generated) as [|step todo IHt]; intros acc.
      * apply logs_only_ret.
      * cbn [Planner_check_steps]. apply logs_only_bind; [|intros ok; apply IHt].
        unfold PlanStepChecker_call. apply logs_only_bind.
        -- apply logs_only_external. intros r. exact I.
        -- intros g. destruct (PyStr.startswith (binary_score g) "yes"); apply logs_only_ret.
    + intros kept. destruct (length kept =? 0)%nat; [exact IH | apply logs_only_ret].
Qed.

Lemma Executor_call_logs (self : Executor) (state : PlanExecute) :
  logs_only node_call (Executor_call B self state).
Proof.
  unfold Executor_call. destruct (plan state) as [todo|]; [|apply logs_only_raise].
  apply logs_only_bind; [|intros out; apply logs_only_ret].
  generalize (@nil string). induction todo as [|step todo IH]; intros acc.
  - apply logs_only_ret.
  - cbn [Executor_steps]. apply logs_only_bind; [|intros o; apply IH].
    apply logs_only_external. intros r. exact I.
Qed.

Lemma AnswerMaker_call_logs (fuel : nat) (state : PlanExecute) :
  logs_only node_call (AnswerMaker_call B fuel state).
Proof.
  unfold AnswerMaker_call. apply logs_only_bind; [|intros o; apply logs_only_ret].
  apply logs_only_retry, logs_only_external. intros r. exact I.
Qed.

End NodeLogs.

(** ** The graph *)

Section GraphFacts.

Context {W : Type} (B : Backend W).

(** a step of the graph from a node that has an action and a single edge *)
Lemma graph_step_workflow (fuel : nat) (ex : Executor) (st : PlanExecute) (s : Env W) :
  let app := workflow B fuel ex in
  graph_step app ("planner", st) s
    = bind (Planner_call B fuel fuel st)
        (fun upd => ret (Some ([("planner", upd)], ("plan_executor", apply_update st upd)))) s
  /\ graph_step app ("plan_executor", st) s
     = bind (Executor_call B ex st)
         (fun upd => ret (Some ([("plan_executor", upd)],
                                ("answer_maker", apply_update st upd)))) s
  /\ graph_step app ("answer_maker", st) s
     = bind (AnswerMaker_call B fuel st)
         (fun upd => ret (Some ([("answer_maker", upd)], (END, apply_update st upd)))) s
  /\ graph_step app (END, st) s = Some (Value None, s).
Proof. repeat split. Qed.

(** what a finished run of the graph went through *)
Lemma run_workflow_inv (budget fuel : nat) (ex : Executor) (query : string)
    (s s' : Env W) (ran : list string) (final : PlanExecute) :
  let app := workflow B fuel ex in
  let st0 := prepare_initial_state query in
  run_graph budget app (astream_start app st0) s = Some (Value (ran, final), s') ->
  exists upd1 upd2 upd3 s1 s2,
    Planner_call B fuel fuel st0 s = Some (Value upd1, s1)
    /\ Executor_call B ex (apply_update st0 upd1) s1 = Some (Value upd2, s2)
    /\ AnswerMaker_call B fuel (apply_update (apply_update st0 upd1) upd2) s2
       = Some (Value upd3, s')
    /\ final = apply_update (apply_update (apply_update st0 upd1) upd2) upd3
    /\ ran = ["planner"; "plan_executor"; "answer_maker"]
    /\ 4 <= budget.
Proof.
  cbv zeta. set (st0 := prepare_initial_state query).
  change (astream_start (workflow B fuel ex) st0) with ("planner", st0).
  destruct budget as [|budget]; [discriminate|].
  cbn [run_graph]. unfold bind at 1.
  rewrite (proj1 (graph_step_workflow fuel ex st0 s)). unfold bind at 1.
  destruct (Planner_call B fuel fuel st0 s) as [[[upd1|e] s1]|] eqn:H1; try discriminate.
  cbn [ret]. unfold bind at 1.
  destruct budget as [|budget]; [discriminate|].
  cbn [run_graph]. unfold bind at 1.
  rewrite (proj1 (proj2 (graph_step_workflow fuel ex (apply_update st0 upd1) s1))).
  unfold bind at 1.
  destruct (Executor_call B ex (apply_update st0 upd1) s1) as [[[upd2|e] s2]|] eqn:H2;
    try discriminate.
  cbn [ret]. unfold bind at 1.
  destruct budget as [|budget]; [discriminate|].
  cbn [run_graph]. unfold bind at 1.
  rewrite (proj1 (proj2 (proj2 (graph_step_workflow fuel ex
             (apply_update (apply_update st0 upd1) upd2) s2)))).
  unfold bind at 1.
  destruct (AnswerMaker_call B fuel (apply_update (apply_update st0 upd1) upd2) s2)
    as [[[upd3|e] s3]|] eqn:H3; try discriminate.
  cbn [ret]. unfold bind at 1.
  destruct budget as [|budget]; [discriminate|].
  cbn [run_graph]. unfold bind at 1.
  rewrite (proj2 (proj2 (proj2 (graph_step_workflow fuel ex
             (apply_update (apply_update (apply_update st0 upd1) upd2) upd3) s3)))).
  cbn. intros [= <- <- <-].
  exists upd1, upd2, upd3, s1, s2. repeat split; try assumption. lia.
Qed.

(** and the other way round: three nodes that give a value make a run *)
Lemma run_workflow_intro (budget fuel : nat) (ex : Executor) (query : string)
    (s s1 s2 s3 : Env W) (upd1 upd2 upd3 : update) :
  let app := workflow B fuel ex in
  let st0 := prepare_initial_state query in
  4 <= budget ->
  Planner_call B fuel fuel st0 s = Some (Value upd1, s1) ->
  Executor_call B ex (apply_update st0 upd1) s1 = Some (Value upd2, s2) ->
  AnswerMaker_call B fuel (apply_update (apply_update st0 upd1) upd2) s2
    = Some (Value upd3, s3) ->
  run_graph budget app (astream_start app st0) s
    = Some (Value (["planner"; "plan_executor"; "answer_maker"],
                   apply_update (apply_update (apply_update st0 upd1) upd2) upd3), s3).
Proof.
  cbv zeta. set (st0 := prepare_initial_state query). intros Hbudget H1 H2 H3.
  change (astream_start (workflow B fuel ex) st0) with ("planner", st0).
  do 4 (destruct budget as [|budget]; [lia|]).
  cbn [run_graph]. unfold bind at 1.
  rewrite (proj1 (graph_step_workflow fuel ex st0 s)). unfold bind at 1.
  rewrite H1. cbn [ret]. unfold bind at 1. unfold bind at 1.
  rewrite (proj1 (proj2 (graph_step_workflow fuel ex (apply_update st0 upd1) s1))).
  unfold bind at 1. rewrite H2. cbn [ret]. unfold bind at 1. unfold bind at 1.
  rewrite (proj1 (proj2 (proj2 (graph_step_workflow fuel ex
             (apply_update (apply_update st0 upd1) upd2) s2)))).
  unfold bind at 1. rewrite H3. cbn [ret]. unfold bind at 1. unfold bind at 1.
  rewrite (proj2 (proj2 (proj2 (graph_step_workflow fuel ex
             (apply_update (apply_update (apply_update st0 upd1) upd2) upd3) s3)))).
  reflexivity.
Qed.

End GraphFacts.

Section GraphTheorems.

Context {W : Type} (B : Backend W).

(** C1, as the code has it. The graph that [__init__] builds has the three
    nodes planner, plan_executor and answer_maker, no conditional edge, and
    out of answer_maker only the edge to [END].  So every run that ends has
    run the three nodes once each, in that order, and stopped after
    answer_maker, having called neither the answer grader nor the replanner;
    and whenever the three nodes give a value the run does end there. *)
Theorem run_ends_after_answer_maker_unconditionally
    (fuel : nat) (tools : list Tool) (with_memory : bool) (app : StateGraph W) :
  PlanExecuteAgentWithLangGraph_init B fuel tools with_memory = Value app ->
  map fst (nodes app) = ["planner"; "plan_executor"; "answer_maker"]
  /\ map fst (branches app) = []
  /\ successors app "answer_maker" = [END]
  /\ (forall st, next_node app "answer_maker" st = ret END)
  /\ (forall budget query s ran final s',
        run_graph budget app (astream_start app (prepare_initial_state query)) s
          = Some (Value (ran, final), s') ->
        ran = ["planner"; "plan_executor"; "answer_maker"]
        /\ exists log, calls s' = calls s ++ log /\ Forall node_call log)
  /\ (forall budget query s upd1 s1 upd2 s2 upd3 s3 self,
        Executor_init tools = Value self ->
        4 <= budget ->
        let st0 := prepare_initial_state query in
        Planner_call B fuel fuel st0 s = Some (Value upd1, s1) ->
        Executor_call B self (apply_update st0 upd1) s1 = Some (Value upd2, s2) ->
        AnswerMaker_call B fuel (apply_update (apply_update st0 upd1) upd2) s2
          = Some (Value upd3, s3) ->
        run_graph budget app (astream_start app st0) s
          = Some (Value (["planner"; "plan_executor"; "answer_maker"],
                         apply_update (apply_update (apply_update st0 upd1) upd2) upd3), s3)).
Proof.
  unfold PlanExecuteAgentWithLangGraph_init.
  destruct (Executor_init tools) as [ex|e] eqn:Hinit; [|discriminate].
  intros [= <-].
  do 4 (split; [reflexivity|]). split.
  - intros budget query s ran final s' Hrun.
    apply run_workflow_inv in Hrun
      as (upd1 & upd2 & upd3 & s1 & s2 & H1 & H2 & H3 & _ & -> & _).
    split; [reflexivity|].
    destruct (Planner_call_logs B _ _ _ _ _ _ H1) as (log1 & Hlog1 & HP1).
    destruct (Executor_call_logs B _ _ _ _ _ H2) as (log2 & Hlog2 & HP2).
    destruct (AnswerMaker_call_logs B _ _ _ _ _ H3) as (log3 & Hlog3 & HP3).
    exists (log1 ++ log2 ++ log3). split.
    + rewrite Hlog3, Hlog2, Hlog1, <- !app_assoc. reflexivity.
    + repeat (apply Forall_app; split); assumption.
  - intros n query s upd1 s1 upd2 s2 upd3 s3 self [= <-] Hsteps H1 H2 H3.
    now apply run_workflow_intro with (s1 := s1) (s2 := s2).
Qed.

End GraphTheorems.

(** In the arithmetic scenario the answer grader would say no to the answer
    (it says no to everything), and the run has ended after answer_maker all
    the same, without a call to the grader or to the replanner. *)
Lemma rejected_answer_still_ends_the_run :
  let B := Mock.backend None "t1" in
  exists app final s',
    PlanExecuteAgentWithLangGraph_init B 5 [Mock.single_input_tool] false = Value app
    /\ run_graph 4 app
         (astream_start app (prepare_initial_state "What is 2+3, then double it?"))
         (Mock.start Mock.arithmetic)
       = Some (Value (["planner"; "plan_executor"; "answer_maker"], final), s')
    /\ output final = Some "10"
    /\ option_map fst (FinalAnswerChecker_call B (with_response final) s')
       = Some (Value "replan")
    /\ Forall node_call (calls s').
Proof.
  intros B. eexists. eexists. eexists.
  split; [reflexivity|]. split; [vm_compute; reflexivity|].
  split; [reflexivity|]. split; [vm_compute; reflexivity|].
  repeat constructor.
Qed.

Lemma run_ends_after_answer_maker_unconditionally_witness :
  let B := Mock.backend None "t1" in
  exists app,
    PlanExecuteAgentWithLangGraph_init B 5 [Mock.single_input_tool] false = Value app
    /\ successors app "answer_maker" = [END]
    /\ forall budget ran final s',
         run_graph budget app
           (astream_start app (prepare_initial_state "What is 2+3, then double it?"))
           (Mock.start Mock.arithmetic) = Some (Value (ran, final), s') ->
         ran = ["planner"; "plan_executor"; "answer_maker"].
Proof.
  intros B. eexists. split; [reflexivity|].
  destruct (run_ends_after_answer_maker_unconditionally B 5 [Mock.single_input_tool]
              false _ eq_refl) as (_ & _ & Hsucc & _ & Hrun & _).
  split; [exact Hsucc|].
  intros budget ran final s' H. exact (proj1 (Hrun budget _ _ ran final s' H)).
Defined.

(** ** The stream *)

Lemma last_char_app (s : string) (c : ascii) : last_char (s +:+ PyStr.chr c) = Some c.
Proof.
  induction s as [|x s IH]; [reflexivity|].
  rewrite append_cons. cbn [last_char]. rewrite IH.
  destruct s; reflexivity.
Qed.

(** every frame of a node event ends with a line break *)
Lemma event_frame_ends_with_newline (ev : event) (frame : string) :
  In frame (event_frames ev) -> last_char frame = Some PyStr.nl.
Proof.
  unfold event_frames. rewrite in_app_iff, in_flat_map.
  intros [((node_name & node_state) & _ & [<- | Hfield]) | [<- | []]].
  - cbn [fst]. rewrite <- !append_assoc. apply last_char_app.
  - unfold field_frames in Hfield. apply in_flat_map in Hfield as ((k & v) & _ & Hin).
    cbn [fst snd] in Hin.
    destruct v; try contradiction;
      (destruct Hin as [<- | Hin]; [|contradiction]);
      rewrite <- !append_assoc; apply last_char_app.
  - rewrite <- !append_assoc. apply last_char_app.
Qed.

Lemma node_frame_is_not_the_notice (frame : string) :
  node_frame frame -> frame <> cancel_notice.
Proof.
  intros [ev Hin] ->. apply event_frame_ends_with_newline in Hin. discriminate.
Qed.

Section StreamFacts.

Context {W : Type} (B : Backend W).

(** the graph does not touch the frames *)
Lemma astream_next_emitted (app : StateGraph W) (cur : cursor) (s s' : GenState)
    (r : outcome (option (event * cursor))) :
  astream_next B app cur s = Some (r, s') -> emitted s' = emitted s.
Proof.
  unfold astream_next, bind, lift_run, let_others_run, ret.
  destruct (graph_step app cur (env s)) as [[[item|e] e']|]; try discriminate;
    intros [= <- <-]; reflexivity.
Qed.

Lemma uncancelled_turns_emitted (k : nat) (app : StateGraph W) (thread_id : string) :
  forall cur s cur' s',
    uncancelled_turns B k app thread_id cur s cur' s' ->
    exists frames, emitted s' = emitted s ++ frames /\ Forall node_frame frames.
Proof.
  induction k as [|k IH]; intros cur s cur' s'; cbn [uncancelled_turns].
  - intros [_ <-]. exists []. now rewrite app_nil_r.
  - intros (ev & cur1 & s1 & thread_inst & created_at & status & Hnext & _ & _ & Hrest).
    apply IH in Hrest as (frames & Hemit & Hframes).
    apply astream_next_emitted in Hnext.
    exists (event_frames ev ++ frames). split.
    + rewrite Hemit. cbn [after_yield emitted]. rewrite Hnext.
      symmetry. apply app_assoc.
    + apply Forall_app. split; [|exact Hframes].
      apply Forall_forall. intros frame Hin. exists ev. now apply list_elem_of_In.
Qed.

(** the loop, when the request to cancel is seen at turn [k + 1] *)
Lemma stream_events_cancelled (k : nat) (app : StateGraph W) (thread_id : string) :
  forall fuel cur s cur_k s_k ev cur' s1 thread_inst created_at,
    uncancelled_turns B k app thread_id cur s cur_k s_k ->
    astream_next B app cur_k s_k = Some (Value (Some (ev, cur')), s1) ->
    g_threads s1 !! thread_id = Some (thread_inst, created_at, "try_cancel") ->
    k < fuel ->
    stream_events B fuel app (Some thread_id) cur s
      = Some (Value tt,
              {| env := env s1;
                 g_threads := <[thread_id := (thread_inst, created_at, "ready")]> (g_threads s1);
                 emitted := emitted s1 ++ [cancel_notice] |}).
Proof.
  induction k as [|k IH];
    intros fuel cur s cur_k s_k ev cur' s1 thread_inst created_at Hturns Hnext Hstatus Hfuel;
    (destruct fuel as [|fuel]; [lia|]); cbn [uncancelled_turns] in Hturns.
  - destruct Hturns as [<- <-].
    cbn [stream_events]. unfold bind at 1. rewrite Hnext.
    unfold bind, poll_cancel. rewrite Hstatus. reflexivity.
  - destruct Hturns
      as (ev1 & cur1 & s1' & inst1 & created1 & status1 & Hnext1 & Hstatus1 & Hne & Hrest).
    cbn [stream_events]. unfold bind at 1. rewrite Hnext1.
    unfold bind at 1. unfold poll_cancel. rewrite Hstatus1.
    destruct (String.eqb_spec status1 "try_cancel") as [->|_]; [congruence|].
    unfold bind at 1. cbn [yield_all].
    apply (IH fuel cur1 _ cur_k s_k ev cur' s1 thread_inst created_at Hrest Hnext Hstatus).
    lia.
Qed.

(** the whole generator in that case *)
Lemma stream_from_cancelled (k fuel : nat) (app : StateGraph W) (thread_id : string)
    (cur cur_k cur' : cursor) (s s_k s1 : GenState) (ev : event)
    (thread_inst created_at : nat) :
  uncancelled_turns B k app thread_id cur s cur_k s_k ->
  astream_next B app cur_k s_k = Some (Value (Some (ev, cur')), s1) ->
  g_threads s1 !! thread_id = Some (thread_inst, created_at, "try_cancel") ->
  k < fuel ->
  exists frames,
    Forall node_frame frames
    /\ stream_from B fuel app (Some thread_id) cur s
       = Some (Value tt,
               {| env := env s1;
                  g_threads := <[thread_id := (thread_inst, created_at, "ready")]> (g_threads s1);
                  emitted := emitted s ++ frames ++ [cancel_notice; done_frame] |}).
Proof.
  intros Hturns Hnext Hstatus Hfuel.
  destruct (uncancelled_turns_emitted _ _ _ _ _ _ _ Hturns) as (frames & Hemit & Hframes).
  exists frames. split; [exact Hframes|].
  unfold stream_from, bind.
  rewrite (stream_events_cancelled k app thread_id fuel cur s cur_k s_k ev cur' s1
             thread_inst created_at Hturns Hnext Hstatus Hfuel).
  unfold yield_all. cbn [env g_threads emitted].
  rewrite (astream_next_emitted _ _ _ _ _ Hnext), Hemit, <- !app_assoc. reflexivity.
Qed.

End StreamFacts.

Section StreamTheorems.

Context {W : Type} (B : Backend W).

(** C8. In a streaming run with a thread id, let the status of the thread
    be try_cancel at a check of the table, after [k] turns that went
    through.  Then the generator ends; after the frames of the [k] earlier
    events it has yielded the acknowledgment, once, and then only the final
    frame; the event that had just come is not yielded and the graph is not
    resumed; and the status of the thread is ready, the rest of the table
    being as it was. *)
Theorem cancellation_is_acknowledged_once_and_ends_the_events
    (k fuel : nat) (app : StateGraph W) (thread_id : string)
    (cur cur_k cur' : cursor) (s s_k s1 : GenState) (ev : event)
    (thread_inst created_at : nat) :
  uncancelled_turns B k app thread_id cur s cur_k s_k ->
  astream_next B app cur_k s_k = Some (Value (Some (ev, cur')), s1) ->
  g_threads s1 !! thread_id = Some (thread_inst, created_at, "try_cancel") ->
  k < fuel ->
  exists frames s_end,
    stream_from B fuel app (Some thread_id) cur s = Some (Value tt, s_end)
    /\ emitted s_end = emitted s ++ frames ++ [cancel_notice; done_frame]
    /\ Forall node_frame frames
    /\ count_occ string_dec (frames ++ [cancel_notice; done_frame]) cancel_notice = 1
    /\ g_threads s_end !! thread_id = Some (thread_inst, created_at, "ready")
    /\ (forall other, other <> thread_id -> g_threads s_end !! other = g_threads s1 !! other)
    /\ env s_end = env s1.
Proof.
  intros Hturns Hnext Hstatus Hfuel.
  destruct (stream_from_cancelled B k fuel app thread_id cur cur_k cur' s s_k s1 ev
              thread_inst created_at Hturns Hnext Hstatus Hfuel)
    as (frames & Hframes & Hrun).
  exists frames. eexists. split; [exact Hrun|]. cbn [emitted g_threads env].
  split; [reflexivity|]. split; [exact Hframes|]. split; [|split; [|split]].
  - rewrite count_occ_app.
    assert (Hnone : count_occ string_dec frames cancel_notice = 0).
    { apply count_occ_not_In. intros Hin.
      apply list_elem_of_In in Hin.
      rewrite Forall_forall in Hframes.
      exact (node_frame_is_not_the_notice _ (Hframes _ Hin) eq_refl). }
    rewrite Hnone. reflexivity.
  - apply lookup_insert_eq.
  - intros other Hother. now apply lookup_insert_ne.
  - reflexivity.
Qed.

(** C10. In the same case the last frame the generator yields is the final
    one, [data: [DONE]] and two line breaks, right after the acknowledgment. *)
Theorem cancelled_stream_still_ends_with_done
    (k fuel : nat) (app : StateGraph W) (thread_id : string)
    (cur cur_k cur' : cursor) (s s_k s1 : GenState) (ev : event)
    (thread_inst created_at : nat) :
  uncancelled_turns B k app thread_id cur s cur_k s_k ->
  astream_next B app cur_k s_k = Some (Value (Some (ev, cur')), s1) ->
  g_threads s1 !! thread_id = Some (thread_inst, created_at, "try_cancel") ->
  k < fuel ->
  exists before s_end,
    stream_from B fuel app (Some thread_id) cur s = Some (Value tt, s_end)
    /\ emitted s_end = before ++ [cancel_notice; done_frame]
    /\ last (emitted s_end) = Some done_frame
    /\ done_frame = "data: [DONE]" +:+ String PyStr.nl (String PyStr.nl EmptyString).
Proof.
  intros Hturns Hnext Hstatus Hfuel.
  destruct (stream_from_cancelled B k fuel app thread_id cur cur_k cur' s s_k s1 ev
              thread_inst created_at Hturns Hnext Hstatus Hfuel)
    as (frames & Hframes & Hrun).
  exists (emitted s ++ frames). eexists. split; [exact Hrun|]. cbn [emitted].
  split; [now rewrite <- app_assoc|]. split; [|reflexivity].
  change [cancel_notice; done_frame] with ([cancel_notice] ++ [done_frame]).
  rewrite !app_assoc. apply last_snoc.
Qed.

End StreamTheorems.

Lemma cancellation_is_acknowledged_once_and_ends_the_events_witness :
  let B := Mock.backend (Some 5) "t1" in
  let app := workflow B 5 Mock.executor in
  let cur := astream_start app (prepare_initial_state "What is 2+3, then double it?") in
  exists cur_k s_k ev cur' s1 s_end,
    uncancelled_turns B 1 app "t1" cur (Mock.gen_start Mock.arithmetic) cur_k s_k
    /\ astream_next B app cur_k s_k = Some (Value (Some (ev, cur')), s1)
    /\ g_threads s1 !! "t1" = Some (7, 1024, "try_cancel")
    /\ stream_generator B 5 app "What is 2+3, then double it?" (Some "t1")
         (Mock.gen_start Mock.arithmetic) = Some (Value tt, s_end)
    /\ g_threads s_end !! "t1" = Some (7, 1024, "ready")
    /\ env s_end = env s1.
Proof.
  intros B app cur.
  assert (Hturns : exists cur_k s_k,
            uncancelled_turns B 1 app "t1" cur (Mock.gen_start Mock.arithmetic) cur_k s_k).
  { eexists. eexists. cbn [uncancelled_turns].
    eexists. eexists. eexists. eexists. eexists. eexists.
    split; [vm_compute; reflexivity|].
    split; [vm_compute; reflexivity|].
    split; [discriminate|].
    split; reflexivity. }
  destruct Hturns as (cur_k & s_k & Hturns).
  assert (Hnext : exists ev cur' s1,
            astream_next B app cur_k s_k = Some (Value (Some (ev, cur')), s1)
            /\ g_threads s1 !! "t1" = Some (7, 1024, "try_cancel")).
  { cbn [uncancelled_turns] in Hturns.
    destruct Hturns as (ev0 & cur1 & s0 & i0 & c0 & st0 & H0 & _ & _ & <- & <-).
    vm_compute in H0. injection H0 as <- <- <-.
    eexists. eexists. eexists. split; vm_compute; reflexivity. }
  destruct Hnext as (ev & cur' & s1 & Hnext & Hstatus).
  destruct (cancellation_is_acknowledged_once_and_ends_the_events B 1 5 app "t1"
              cur cur_k cur' _ s_k s1 ev 7 1024 Hturns Hnext Hstatus ltac:(lia))
    as (frames & s_end & Hrun & _ & _ & _ & Hready & _ & Henv).
  exists cur_k, s_k, ev, cur', s1, s_end. repeat split; assumption.
Defined.

Lemma cancelled_stream_still_ends_with_done_witness :
  let B := Mock.backend (Some 5) "t1" in
  let app := workflow B 5 Mock.executor in
  let cur := astream_start app (prepare_initial_state "What is 2+3, then double it?") in
  exists cur_k s_k ev cur' s1 s_end,
    uncancelled_turns B 1 app "t1" cur (Mock.gen_start Mock.arithmetic) cur_k s_k
    /\ astream_next B app cur_k s_k = Some (Value (Some (ev, cur')), s1)
    /\ g_threads s1 !! "t1" = Some (7, 1024, "try_cancel")
    /\ stream_generator B 5 app "What is 2+3, then double it?" (Some "t1")
         (Mock.gen_start Mock.arithmetic) = Some (Value tt, s_end)
    /\ last (emitted s_end) = Some done_frame.
Proof.
  intros B app cur.
  assert (Hturns : exists cur_k s_k,
            uncancelled_turns B 1 app "t1" cur (Mock.gen_start Mock.arithmetic) cur_k s_k).
  { eexists. eexists. cbn [uncancelled_turns].
    eexists. eexists. eexists. eexists. eexists. eexists.
    split; [vm_compute; reflexivity|].
    split; [vm_compute; reflexivity|].
    split; [discriminate|].
    split; reflexivity. }
  destruct Hturns as (cur_k & s_k & Hturns).
  assert (Hnext : exists ev cur' s1,
            astream_next B app cur_k s_k = Some (Value (Some (ev, cur')), s1)
            /\ g_threads s1 !! "t1" = Some (7, 1024, "try_cancel")).
  { cbn [uncancelled_turns] in Hturns.
    destruct Hturns as (ev0 & cur1 & s0 & i0 & c0 & st0 & H0 & _ & _ & <- & <-).
    vm_compute in H0. injection H0 as <- <- <-.
    eexists. eexists. eexists. split; vm_compute; reflexivity. }
  destruct Hnext as (ev & cur' & s1 & Hnext & Hstatus).
  destruct (cancelled_stream_still_ends_with_done B 1 5 app "t1"
              cur cur_k cur' _ s_k s1 ev 7 1024 Hturns Hnext Hstatus ltac:(lia))
    as (before & s_end & Hrun & _ & Hlast & _).
  exists cur_k, s_k, ev, cur', s1, s_end. repeat split; assumption.
Defined.

(** * Further properties of the nodes *)

Section PlannerGrading.

Context {W : Type} (B : Backend W).

Lemma accepted_cons (step score : string) (todo scores : list string) :
  accepted (step :: todo) (score :: scores)
  = if PyStr.startswith score "yes" then step :: accepted todo scores
    else accepted todo scores.
Proof.
  unfold accepted. cbn [zip zip_with List.filter snd].
  destruct (PyStr.startswith score "yes"); reflexivity.
Qed.

(** the filtering loop grades every step once, in the order of the plan,
    and keeps the steps whose score starts with yes, no other *)
Lemma Planner_check_steps_exact (input : string) (todo : list string) :
  forall acc s result s',
    Planner_check_steps B input todo acc s = Some (Value result, s') ->
    exists scores,
      length scores = length todo
      /\ calls s' = calls s ++ zip_with (grading input) todo scores
      /\ result = acc ++ accepted todo scores.
Proof.
  induction todo as [|step todo IH]; intros acc s result s'.
  - intros [= <- <-]. exists []. now rewrite !app_nil_r.
  - cbn [Planner_check_steps].
    destruct (PlanStepChecker_call_inv B {| context := step; question := input |} s)
      as (graded & s1 & Hlog & Hcall).
    unfold bind. rewrite Hcall.
    destruct graded as [[score]|e]; cbn [outcome_map binary_score]; [|discriminate].
    intros Hrest. apply IH in Hrest as (scores & Hlen & Hlog' & ->).
    exists (score :: scores). split; [simpl; congruence|]. split.
    + rewrite Hlog', Hlog, <- app_assoc. reflexivity.
    + rewrite accepted_cons.
      destruct (PyStr.startswith score "yes"); [now rewrite <- app_assoc | reflexivity].
Qed.

Lemma Planner_check_steps_app (input : string) (before after : list string) :
  forall acc s,
    Planner_check_steps B input (before ++ after) acc s
    = match Planner_check_steps B input before acc s with
      | Some (Value kept, s1) => Planner_check_steps B input after kept s1
      | other => other
      end.
Proof.
  induction before as [|step before IH]; intros acc s; [reflexivity|].
  cbn [app Planner_check_steps]. unfold bind.
  destruct (PlanStepChecker_call B {| context := step; question := input |} s)
    as [[[ok|e] s1]|]; try reflexivity.
  apply IH.
Qed.

(** X1. The plan [Planner] returns is the list of the accepted steps of the
    last plan the model generated: the log of the call ends with the
    invocation that gave that plan and then one grading for each of its
    steps, in order, against the original input; a step is in the returned
    plan exactly when its score starts with yes. *)
Theorem planner_returns_exactly_the_accepted_steps
    (rounds tries : nat) (state : PlanExecute) (s s' : Env W) (upd : update) :
  Planner_call B rounds tries state s = Some (Value upd, s') ->
  exists original generated scores earlier,
    last (messages state) = Some original
    /\ length scores = length (steps generated)
    /\ calls s' = calls s ++ earlier
         ++ PlannerInvoke [("user", content original)] (Value generated)
         :: zip_with (grading (content original)) (steps generated) scores
    /\ upd = [("input", PStr (content original));
              ("plan", PList (map PStr (accepted (steps generated) scores)))]
    /\ accepted (steps generated) scores <> [].
Proof.
  unfold Planner_call. destruct (last (messages state)) as [original|]; [|discriminate].
  intros Hloop. exists original.
  revert s Hloop. induction rounds as [|rounds IH]; intros s; [discriminate|].
  cbn [Planner_loop]. unfold bind at 1.
  destruct (retry_until_parsed tries (Planner_llm_invoke B [("user", content original)]) s)
    as [[[generated|e] s1]|] eqn:Hgen; try discriminate.
  apply retry_log_grows in Hgen as (log1 & Hlog1).
  unfold bind at 1.
  destruct (Planner_check_steps B (content original) (steps generated) [] s1)
    as [[[kept|e] s2]|] eqn:Hcheck; try discriminate.
  apply Planner_check_steps_exact in Hcheck as (scores & Hlen & Hlog2 & Hkept).
  simpl in Hkept. subst kept.
  destruct (accepted (steps generated) scores) as [|step kept] eqn:Hacc; cbn [length Nat.eqb].
  - intros Hrest. destruct (IH _ Hrest) as (g & sc & earlier & _ & Hl & Hlog & Hupd & Hne).
    exists g, sc,
      (log1 ++ PlannerInvoke [("user", content original)] (Value generated)
            :: zip_with (grading (content original)) (steps generated) scores ++ earlier).
    repeat split; try assumption.
    rewrite Hlog, Hlog2, Hlog1, <- !app_assoc. cbn [app]. now rewrite <- !app_assoc.
  - intros [= <- <-]. exists generated, scores, log1.
    rewrite Hacc. repeat split; try assumption; try discriminate.
    rewrite Hlog2, Hlog1, <- !app_assoc. reflexivity.
Qed.

(** X2. An exception of the step grader is not retried and not swallowed,
    a parse failure no more than another: when the grading of a step of
    the generated plan raises, [Planner] raises that exception at once,
    the call that raised being the last of the log. *)
Theorem grader_exceptions_leave_the_planner_at_once
    (rounds tries : nat) (input : string) (generated : Plan)
    (before after kept : list string) (step : string)
    (s s1 s2 : Env W) (e : exn) (w : W) :
  retry_until_parsed tries (Planner_llm_invoke B [("user", input)]) s
    = Some (Value generated, s1) ->
  steps generated = before ++ step :: after ->
  Planner_check_steps B input before [] s1 = Some (Value kept, s2) ->
  plan_check_chain B {| context := step; question := input |} (world s2) = (Raise e, w) ->
  Planner_loop B (S rounds) tries input s
    = Some (Raise e,
            {| world := w;
               calls := calls s2
                        ++ [PlanCheckInvoke {| context := step; question := input |}
                                            (Raise e)] |}).
Proof.
  intros Hgen Hsteps Hbefore Hgrade.
  cbn [Planner_loop]. unfold bind at 1. rewrite Hgen.
  unfold bind at 1. rewrite Hsteps, Planner_check_steps_app, Hbefore.
  cbn [Planner_check_steps]. unfold bind at 1.
  unfold PlanStepChecker_call, PlanStepChecker_llm_invoke, bind, external.
  rewrite Hgrade. reflexivity.
Qed.

(** X3. [Replanner] hands on the plan of the model as it is: it calls
    nothing but its own chain, always with the state it was given, and what
    it returns is the list of steps of the last reply, be it empty; no step
    is graded. *)
Theorem replanner_returns_the_plan_unfiltered
    (fuel : nat) (state : PlanExecute) (s s' : Env W) (upd : update) :
  Replanner_call B fuel state s = Some (Value upd, s') ->
  exists replanned log,
    calls s' = calls s ++ log ++ [ReplanInvoke state (Value replanned)]
    /\ Forall (replan_call state) log
    /\ upd = [("plan", PList (map PStr (steps replanned)))].
Proof.
  unfold Replanner_call, bind.
  destruct (retry_until_parsed fuel (Replanner_llm_invoke B state) s)
    as [[[replanned|e] s1]|] eqn:Hloop; try discriminate.
  intros [= <- <-].
  assert (Hall : logs_only (replan_call state)
                   (retry_until_parsed fuel (Replanner_llm_invoke B state))).
  { apply logs_only_retry, logs_only_external. intros r. now exists r. }
  destruct (Hall _ _ _ Hloop) as (all & Hall_log & Hall_P).
  apply retry_log_grows in Hloop as (log & Hlog).
  exists replanned, log. split; [exact Hlog|]. split; [|reflexivity].
  rewrite Hall_log in Hlog. apply app_inv_head in Hlog. subst all.
  now apply Forall_app in Hall_P as [? _].
Qed.

End PlannerGrading.

Lemma planner_returns_exactly_the_accepted_steps_witness :
  let B := Mock.backend None "t1" in
  let state := prepare_initial_state "What is 2+3, then double it?" in
  let w :=
    {| Mock.plans := [Value {| steps := ["guess"] |};
                      Value {| steps := ["compute 2+3"; "ask a friend"; "double the result"] |}];
       Mock.grades := [Mock.no; Mock.yes; Mock.no; Mock.yes];
       Mock.agent_outputs := []; Mock.answers := []; Mock.answer_grades := [];
       Mock.replans := []; Mock.ticks := 0 |} in
  exists s',
    Planner_call B 3 3 state (Mock.start w)
      = Some (Value [("input", PStr "What is 2+3, then double it?");
                     ("plan", PList [PStr "compute 2+3"; PStr "double the result"])], s')
    /\ exists generated scores,
         [PStr "compute 2+3"; PStr "double the result"]
           = map PStr (accepted (steps generated) scores)
         /\ length scores = length (steps generated).
Proof.
  intros B state w.
  assert (Hcall : exists s',
            Planner_call B 3 3 state (Mock.start w)
            = Some (Value [("input", PStr "What is 2+3, then double it?");
                           ("plan", PList [PStr "compute 2+3"; PStr "double the result"])], s'))
    by (eexists; vm_compute; reflexivity).
  destruct Hcall as [s' Hcall]. exists s'. split; [exact Hcall|].
  destruct (planner_returns_exactly_the_accepted_steps B 3 3 state (Mock.start w) s' _ Hcall)
    as (original & generated & scores & earlier & _ & Hlen & _ & Hupd & _).
  exists generated, scores. split; [|exact Hlen].
  injection Hupd as _ Hplan. exact Hplan.
Defined.

Lemma grader_exceptions_leave_the_planner_at_once_witness :
  let B := Mock.backend None "t1" in
  let w :=
    {| Mock.plans := [Value {| steps := ["compute 2+3"; "double the result"] |}];
       Mock.grades := [Mock.yes; Mock.parse_failure; Mock.yes];
       Mock.agent_outputs := []; Mock.answers := []; Mock.answer_grades := [];
       Mock.replans := []; Mock.ticks := 0 |} in
  exists s',
    Planner_loop B 2 2 "What is 2+3, then double it?" (Mock.start w)
      = Some (Raise (OutputParserException "Failed to parse tool call"), s')
    /\ length (calls s') = 3.
Proof.
  intros B w. eexists. split.
  - apply (grader_exceptions_leave_the_planner_at_once B 1 2 "What is 2+3, then double it?"
             {| steps := ["compute 2+3"; "double the result"] |}
             ["compute 2+3"] [] ["compute 2+3"] "double the result"
             (Mock.start w) _ _ (OutputParserException "Failed to parse tool call") _
             eq_refl eq_refl eq_refl eq_refl).
  - reflexivity.
Defined.

Lemma replanner_returns_the_plan_unfiltered_witness :
  let B := Mock.backend None "t1" in
  let w :=
    {| Mock.plans := []; Mock.grades := [Mock.no];
       Mock.agent_outputs := []; Mock.answers := []; Mock.answer_grades := [];
       Mock.replans := [Mock.parse_failure; Value {| steps := [] |}]; Mock.ticks := 0 |} in
  exists s',
    Replanner_call B 2 Mock.planned (Mock.start w) = Some (Value [("plan", PList [])], s')
    /\ exists replanned, [("plan", PList [])] = [("plan", PList (map PStr (steps replanned)))].
Proof.
  intros B w.
  assert (Hcall : exists s',
            Replanner_call B 2 Mock.planned (Mock.start w)
            = Some (Value [("plan", PList [])], s'))
    by (eexists; vm_compute; reflexivity).
  destruct Hcall as [s' Hcall]. exists s'. split; [exact Hcall|].
  destruct (replanner_returns_the_plan_unfiltered B 2 Mock.planned (Mock.start w) s' _ Hcall)
    as (replanned & log & _ & _ & Hupd).
  exists replanned. exact Hupd.
Defined.

(** * Further properties of the graph and of the synchronous run *)

Lemma map_py_str_PStr (l : list string) : map py_str (map PStr l) = l.
Proof. induction l as [|x l IH]; [reflexivity | cbn [map py_str]; now rewrite IH]. Qed.

Section RunFacts.

Context {W : Type} (B : Backend W).

(** the state a finished run of the graph ends in *)
Lemma run_workflow_final (budget fuel : nat) (ex : Executor) (query : string)
    (s s' : Env W) (ran : list string) (final : PlanExecute) :
  run_graph budget (workflow B fuel ex)
    (astream_start (workflow B fuel ex) (prepare_initial_state query)) s
    = Some (Value (ran, final), s') ->
  exists kept outputs answer log,
    kept <> []
    /\ length outputs = length kept
    /\ final = {| messages := [{| role := "user"; content := query |}];
                  input := Some query;
                  plan := Some kept;
                  past_steps := map PStr (zip_with step_record kept outputs);
                  response := None;
                  output := Some answer |}
    /\ calls s' = calls s ++ log
         ++ [AnswerInvoke {| messages := [{| role := "user"; content := query |}];
                             input := Some query;
                             plan := Some kept;
                             past_steps := map PStr (zip_with step_record kept outputs);
                             response := None;
                             output := None |}
                          (Value {| Response_response := answer |})].
Proof.
  intros Hrun.
  apply run_workflow_inv in Hrun
    as (upd1 & upd2 & upd3 & s1 & s2 & H1 & H2 & H3 & -> & _ & _).
  unfold Planner_call in H1. cbn [prepare_initial_state messages last content] in H1.
  apply Planner_loop_value in H1
    as (generated & kept & log1 & -> & Hne & Hlog1 & _).
  cbn [prepare_initial_state apply_update fold_left apply_entry String.eqb Ascii.eqb
       Bool.eqb py_str messages input plan past_steps response output] in H2, H3 |- *.
  rewrite map_py_str_PStr in H2, H3 |- *.
  set (st1 := {| messages := [{| role := "user"; content := query |}];
                 input := Some query; plan := Some kept; past_steps := [];
                 response := None; output := None |}) in *.
  destruct (Executor_call_log B ex st1 kept s1 eq_refl)
    as (r2 & s2' & outputs & log2 & H2' & Hlog2 & _ & Hres).
  rewrite H2 in H2'. injection H2' as <- <-.
  destruct Hres as (-> & Hlen & _).
  unfold st1 in H3 |- *. clear st1 H2.
  cbn [apply_update fold_left apply_entry String.eqb Ascii.eqb Bool.eqb
       messages input plan past_steps response output app] in H3 |- *.
  unfold AnswerMaker_call, bind in H3.
  match type of H3 with
  | match retry_until_parsed fuel ?inv s2 with _ => _ end = _ =>
      destruct (retry_until_parsed fuel inv s2) as [[[[answer]|e] s3]|] eqn:Hloop;
        try discriminate
  end.
  injection H3 as <- <-.
  apply retry_log_grows in Hloop as (log3 & Hlog3).
  exists kept, outputs, answer, (log1 ++ log2 ++ log3).
  split; [exact Hne|]. split; [exact Hlen|]. split; [reflexivity|].
  rewrite Hlog3, Hlog2, Hlog1, <- !app_assoc. reflexivity.
Qed.

(** the same from any state: [astream] starts the run from the channels
    the checkpointer restored for the thread, if the graph has one and the
    thread has run before, with the message of the query added *)
Lemma run_workflow_inv_from (budget fuel : nat) (ex : Executor) (st0 : PlanExecute)
    (s s' : Env W) (ran : list string) (final : PlanExecute) :
  run_graph budget (workflow B fuel ex) (astream_start (workflow B fuel ex) st0) s
    = Some (Value (ran, final), s') ->
  exists upd1 upd2 upd3 s1 s2,
    Planner_call B fuel fuel st0 s = Some (Value upd1, s1)
    /\ Executor_call B ex (apply_update st0 upd1) s1 = Some (Value upd2, s2)
    /\ AnswerMaker_call B fuel (apply_update (apply_update st0 upd1) upd2) s2
       = Some (Value upd3, s')
    /\ final = apply_update (apply_update (apply_update st0 upd1) upd2) upd3.
Proof.
  change (astream_start (workflow B fuel ex) st0) with ("planner", st0).
  destruct budget as [|budget]; [discriminate|].
  cbn [run_graph]. unfold bind at 1.
  rewrite (proj1 (graph_step_workflow B fuel ex st0 s)). unfold bind at 1.
  destruct (Planner_call B fuel fuel st0 s) as [[[upd1|e] s1]|] eqn:H1; try discriminate.
  cbn [ret]. unfold bind at 1.
  destruct budget as [|budget]; [discriminate|].
  cbn [run_graph]. unfold bind at 1.
  rewrite (proj1 (proj2 (graph_step_workflow B fuel ex (apply_update st0 upd1) s1))).
  unfold bind at 1.
  destruct (Executor_call B ex (apply_update st0 upd1) s1) as [[[upd2|e] s2]|] eqn:H2;
    try discriminate.
  cbn [ret]. unfold bind at 1.
  destruct budget as [|budget]; [discriminate|].
  cbn [run_graph]. unfold bind at 1.
  rewrite (proj1 (proj2 (proj2 (graph_step_workflow B fuel ex
             (apply_update (apply_update st0 upd1) upd2) s2)))).
  unfold bind at 1.
  destruct (AnswerMaker_call B fuel (apply_update (apply_update st0 upd1) upd2) s2)
    as [[[upd3|e] s3]|] eqn:H3; try discriminate.
  cbn [ret]. unfold bind at 1.
  destruct budget as [|budget]; [discriminate|].
  cbn [run_graph]. unfold bind at 1.
  rewrite (proj2 (proj2 (proj2 (graph_step_workflow B fuel ex
             (apply_update (apply_update (apply_update st0 upd1) upd2) upd3) s3)))).
  cbn. intros [= <- <- <-].
  exists upd1, upd2, upd3, s1, s2. repeat split; assumption.
Qed.

Lemma run_workflow_final_from (budget fuel : nat) (ex : Executor) (st0 : PlanExecute)
    (s s' : Env W) (ran : list string) (final : PlanExecute) :
  run_graph budget (workflow B fuel ex) (astream_start (workflow B fuel ex) st0) s
    = Some (Value (ran, final), s') ->
  exists original kept outputs answer log,
    last (messages st0) = Some original
    /\ kept <> []
    /\ length outputs = length kept
    /\ final = {| messages := messages st0;
                  input := Some (content original);
                  plan := Some kept;
                  past_steps := past_steps st0
                                ++ map PStr (zip_with step_record kept outputs);
                  response := response st0;
                  output := Some answer |}
    /\ calls s' = calls s ++ log
         ++ [AnswerInvoke {| messages := messages st0;
                             input := Some (content original);
                             plan := Some kept;
                             past_steps := past_steps st0
                                           ++ map PStr (zip_with step_record kept outputs);
                             response := response st0;
                             output := output st0 |}
                          (Value {| Response_response := answer |})].
Proof.
  intros Hrun.
  apply run_workflow_inv_from in Hrun
    as (upd1 & upd2 & upd3 & s1 & s2 & H1 & H2 & H3 & ->).
  unfold Planner_call in H1.
  destruct (last (messages st0)) as [original|] eqn:Hlast; [|discriminate].
  apply Planner_loop_value in H1
    as (generated & kept & log1 & -> & Hne & Hlog1 & _).
  cbn [apply_update fold_left apply_entry String.eqb Ascii.eqb
       Bool.eqb py_str messages input plan past_steps response output] in H2, H3 |- *.
  rewrite map_py_str_PStr in H2, H3 |- *.
  set (st1 := {| messages := messages st0;
                 input := Some (content original); plan := Some kept;
                 past_steps := past_steps st0;
                 response := response st0; output := output st0 |}) in *.
  destruct (Executor_call_log B ex st1 kept s1 eq_refl)
    as (r2 & s2' & outputs & log2 & H2' & Hlog2 & _ & Hres).
  rewrite H2 in H2'. injection H2' as <- <-.
  destruct Hres as (-> & Hlen & _).
  unfold st1 in H3 |- *. clear st1 H2.
  cbn [apply_update fold_left apply_entry String.eqb Ascii.eqb Bool.eqb
       messages input plan past_steps response output] in H3 |- *.
  unfold AnswerMaker_call, bind in H3.
  match type of H3 with
  | match retry_until_parsed fuel ?inv s2 with _ => _ end = _ =>
      destruct (retry_until_parsed fuel inv s2) as [[[[answer]|e] s3]|] eqn:Hloop;
        try discriminate
  end.
  injection H3 as <- <-.
  apply retry_log_grows in Hloop as (log3 & Hlog3).
  exists original, kept, outputs, answer, (log1 ++ log2 ++ log3).
  split; [reflexivity|]. split; [exact Hne|]. split; [exact Hlen|]. split; [reflexivity|].
  rewrite Hlog3, Hlog2, Hlog1, <- !app_assoc. reflexivity.
Qed.

(** a run of the graph that a node cuts short with an exception *)
Lemma run_graph_raise_first (budget : nat) (app : StateGraph W) (cur : cursor)
    (s s' : Env W) (e : exn) :
  graph_step app cur s = Some (Raise e, s') ->
  run_graph (S budget) app cur s = Some (Raise e, s').
Proof. intros H. cbn [run_graph]. unfold bind. now rewrite H. Qed.

End RunFacts.

Section RunTheorems.

Context {W : Type} (B : Backend W).

(** X4. The state a finished run ends in, whatever state it started from,
    the fresh state of the query or, on a graph with memory and a thread
    that has run before, the state restored for the thread with the message
    of the query added: the messages are those of the start, the input is
    the content of the last of them, the plan is the non-empty plan of the
    planner and replaces the old one, [past_steps] is what the start had
    followed by one record for each step of that plan, so that records add
    up from run to run of a thread, [output] is the answer of the last reply
    of the answer maker's model, which was asked with that input, plan and
    records, and [response] is as it was at the start, no node writing it. *)
Theorem finished_run_final_state (budget fuel : nat) (ex : Executor) (st0 : PlanExecute)
    (s s' : Env W) (ran : list string) (final : PlanExecute) :
  run_graph budget (workflow B fuel ex) (astream_start (workflow B fuel ex) st0) s
    = Some (Value (ran, final), s') ->
  exists original kept outputs answer asked log,
    last (messages st0) = Some original
    /\ messages final = messages st0
    /\ input final = Some (content original)
    /\ plan final = Some kept
    /\ 1 <= length kept
    /\ past_steps final = past_steps st0 ++ map PStr (zip_with step_record kept outputs)
    /\ length outputs = length kept
    /\ length (past_steps final) = length (past_steps st0) + length kept
    /\ output final = Some answer
    /\ response final = response st0
    /\ calls s' = calls s ++ log
         ++ [AnswerInvoke asked (Value {| Response_response := answer |})]
    /\ input asked = input final
    /\ plan asked = plan final
    /\ past_steps asked = past_steps final.
Proof.
  intros Hrun.
  apply run_workflow_final_from in Hrun
    as (original & kept & outputs & answer & log & Hlast & Hne & Hlen & -> & Hlog).
  eexists original, kept, outputs, answer, _, log.
  cbn [messages input plan past_steps response output].
  split; [exact Hlast|]. split; [reflexivity|]. split; [reflexivity|].
  split; [reflexivity|].
  split; [destruct kept; [congruence | simpl; lia]|].
  split; [reflexivity|]. split; [exact Hlen|].
  split; [rewrite length_app, length_map, length_zip_with; lia|].
  split; [reflexivity|]. split; [reflexivity|].
  split; [exact Hlog|]. repeat split.
Qed.

(** X5. [FinalAnswerChecker] cannot grade the state a run of the graph
    ends in: that state has no [response], so after its chain has given a
    score, whatever the score, the lookup of [state['response']] raises the
    [KeyError]. *)
Theorem answer_checker_raises_on_the_state_of_a_finished_run
    (budget fuel : nat) (ex : Executor) (query : string)
    (s s' : Env W) (ran : list string) (final : PlanExecute)
    (score : string) (s0 s1 : Env W) :
  run_graph budget (workflow B fuel ex)
    (astream_start (workflow B fuel ex) (prepare_initial_state query)) s
    = Some (Value (ran, final), s') ->
  FinalAnswerChecker_llm_invoke B final s0 = Some (Value {| binary_score := score |}, s1) ->
  FinalAnswerChecker_call B final s0 = Some (Raise (KeyError "response"), s1).
Proof.
  intros Hrun Hgrade.
  apply run_workflow_final in Hrun
    as (kept & outputs & answer & log & _ & _ & -> & _).
  unfold FinalAnswerChecker_call, bind. rewrite Hgrade. reflexivity.
Qed.

(** X7. On the graph of the agent, when the three nodes give a value the
    synchronous run returns the answer of the last reply of the answer
    maker's model. *)
Theorem non_streaming_run_returns_the_answer (budget fuel : nat) (ex : Executor)
    (query : string) (s s' : Env W) (ran : list string) (final : PlanExecute) :
  run_graph budget (workflow B fuel ex)
    (astream_start (workflow B fuel ex) (prepare_initial_state query)) s
    = Some (Value (ran, final), s') ->
  exists answer asked log,
    non_streaming_run budget (workflow B fuel ex) query s = Some (Value answer, s')
    /\ calls s' = calls s ++ log
         ++ [AnswerInvoke asked (Value {| Response_response := answer |})].
Proof.
  intros Hrun.
  destruct (run_workflow_final B budget fuel ex query s s' ran final Hrun)
    as (kept & outputs & answer & log & _ & _ & Hfinal & Hlog).
  eexists answer, _, log. split; [|exact Hlog].
  unfold non_streaming_run, try_except, bind. rewrite Hrun. cbn [snd].
  rewrite Hfinal. reflexivity.
Qed.

(** X8. An exception of the planner, of the executor or of the answer
    maker does not leave the synchronous run: the run stops at the node
    that raised and returns the text of the exception as its result. *)
Theorem non_streaming_run_returns_the_error_text (budget fuel : nat) (ex : Executor)
    (query : string) (s s' : Env W) (e : exn) :
  let st0 := prepare_initial_state query in
  (Planner_call B fuel fuel st0 s = Some (Raise e, s')
   \/ (exists upd1 s1,
         Planner_call B fuel fuel st0 s = Some (Value upd1, s1)
         /\ Executor_call B ex (apply_update st0 upd1) s1 = Some (Raise e, s'))
   \/ (exists upd1 s1 upd2 s2,
         Planner_call B fuel fuel st0 s = Some (Value upd1, s1)
         /\ Executor_call B ex (apply_update st0 upd1) s1 = Some (Value upd2, s2)
         /\ AnswerMaker_call B fuel (apply_update (apply_update st0 upd1) upd2) s2
            = Some (Raise e, s'))) ->
  3 <= budget ->
  non_streaming_run budget (workflow B fuel ex) query s = Some (Value (exn_str e), s').
Proof.
  cbv zeta. set (st0 := prepare_initial_state query). intros Hnode Hbudget.
  assert (Hrun : run_graph budget (workflow B fuel ex)
                   (astream_start (workflow B fuel ex) st0) s = Some (Raise e, s')).
  { change (astream_start (workflow B fuel ex) st0) with ("planner", st0).
    do 3 (destruct budget as [|budget]; [lia|]).
    cbn [run_graph]. unfold bind at 1.
    rewrite (proj1 (graph_step_workflow B fuel ex st0 s)). unfold bind at 1.
    destruct Hnode as [H1 | [(upd1 & s1 & H1 & H2) | (upd1 & s1 & upd2 & s2 & H1 & H2 & H3)]];
      rewrite H1; [reflexivity| |];
      cbn [ret]; unfold bind at 1; unfold bind at 1;
      rewrite (proj1 (proj2 (graph_step_workflow B fuel ex (apply_update st0 upd1) s1)));
      unfold bind at 1; rewrite H2; [reflexivity|].
    cbn [ret]. unfold bind at 1. unfold bind at 1.
    rewrite (proj1 (proj2 (proj2 (graph_step_workflow B fuel ex
               (apply_update (apply_update st0 upd1) upd2) s2)))).
    unfold bind at 1. rewrite H3. reflexivity. }
  unfold non_streaming_run, try_except, bind. fold st0. rewrite Hrun. reflexivity.
Qed.

End RunTheorems.

(** the second run of a thread: the state restored holds the first query,
    its plan, its record and its answer, and the new query has been added
    to the messages *)
Lemma finished_run_final_state_witness :
  let B := Mock.backend None "t1" in
  let app := workflow B 5 Mock.executor in
  let resumed :=
    {| messages := [{| role := "user"; content := "What is 1+1?" |};
                    {| role := "user"; content := "What is 2+3, then double it?" |}];
       input := Some "What is 1+1?";
       plan := Some ["add 1 and 1"];
       past_steps := [PStr "Task is add 1 and 1, Response is 2"];
       response := None;
       output := Some "2" |} in
  exists final s',
    run_graph 4 app (astream_start app resumed) (Mock.start Mock.arithmetic)
      = Some (Value (["planner"; "plan_executor"; "answer_maker"], final), s')
    /\ messages final = messages resumed
    /\ input final = Some "What is 2+3, then double it?"
    /\ response final = None
    /\ exists kept,
         plan final = Some kept /\ length (past_steps final) = 1 + length kept.
Proof.
  intros B app resumed.
  assert (Hrun : exists final s',
            run_graph 4 app (astream_start app resumed) (Mock.start Mock.arithmetic)
            = Some (Value (["planner"; "plan_executor"; "answer_maker"], final), s'))
    by (eexists; eexists; vm_compute; reflexivity).
  destruct Hrun as (final & s' & Hrun). exists final, s'. split; [exact Hrun|].
  destruct (finished_run_final_state B 4 5 Mock.executor resumed
              (Mock.start Mock.arithmetic) s' _ final Hrun)
    as (original & kept & outputs & answer & asked & log & Hlast & Hmsgs & Hinput & Hplan
        & _ & _ & _ & Hlen & _ & Hresp & _).
  injection Hlast as <-.
  split; [exact Hmsgs|]. split; [exact Hinput|]. split; [exact Hresp|].
  exists kept. split; [exact Hplan | exact Hlen].
Defined.

Lemma answer_checker_raises_on_the_state_of_a_finished_run_witness :
  let B := Mock.backend None "t1" in
  let app := workflow B 5 Mock.executor in
  exists final s' s1,
    run_graph 4 app (astream_start app (prepare_initial_state "What is 2+3, then double it?"))
              (Mock.start Mock.arithmetic)
      = Some (Value (["planner"; "plan_executor"; "answer_maker"], final), s')
    /\ FinalAnswerChecker_llm_invoke B final (Mock.start Mock.arithmetic)
       = Some (Value {| binary_score := "no" |}, s1)
    /\ FinalAnswerChecker_call B final (Mock.start Mock.arithmetic)
       = Some (Raise (KeyError "response"), s1).
Proof.
  intros B app.
  assert (Hrun : exists final s',
            run_graph 4 app
              (astream_start app (prepare_initial_state "What is 2+3, then double it?"))
              (Mock.start Mock.arithmetic)
            = Some (Value (["planner"; "plan_executor"; "answer_maker"], final), s'))
    by (eexists; eexists; vm_compute; reflexivity).
  destruct Hrun as (final & s' & Hrun).
  assert (Hgrade : exists s1,
            FinalAnswerChecker_llm_invoke B final (Mock.start Mock.arithmetic)
            = Some (Value {| binary_score := "no" |}, s1))
    by (eexists; reflexivity).
  destruct Hgrade as (s1 & Hgrade).
  exists final, s', s1. split; [exact Hrun|]. split; [exact Hgrade|].
  exact (answer_checker_raises_on_the_state_of_a_finished_run B 4 5 Mock.executor
           "What is 2+3, then double it?" (Mock.start Mock.arithmetic) s' _ final
           "no" (Mock.start Mock.arithmetic) s1 Hrun Hgrade).
Defined.

Lemma non_streaming_run_returns_the_answer_witness :
  let B := Mock.backend None "t1" in
  let app := workflow B 5 Mock.executor in
  exists final s' answer,
    run_graph 4 app (astream_start app (prepare_initial_state "What is 2+3, then double it?"))
              (Mock.start Mock.arithmetic)
      = Some (Value (["planner"; "plan_executor"; "answer_maker"], final), s')
    /\ non_streaming_run 4 app "What is 2+3, then double it?" (Mock.start Mock.arithmetic)
       = Some (Value answer, s').
Proof.
  intros B app.
  assert (Hrun : exists final s',
            run_graph 4 app
              (astream_start app (prepare_initial_state "What is 2+3, then double it?"))
              (Mock.start Mock.arithmetic)
            = Some (Value (["planner"; "plan_executor"; "answer_maker"], final), s'))
    by (eexists; eexists; vm_compute; reflexivity).
  destruct Hrun as (final & s' & Hrun).
  destruct (non_streaming_run_returns_the_answer B 4 5 Mock.executor
              "What is 2+3, then double it?" (Mock.start Mock.arithmetic) s' _ final Hrun)
    as (answer & asked & log & Hanswer & _).
  exists final, s', answer. split; [exact Hrun | exact Hanswer].
Defined.

Lemma non_streaming_run_returns_the_error_text_witness :
  let B := Mock.backend None "t1" in
  let w :=
    {| Mock.plans := [Mock.parse_failure;
                      Raise (OtherException "ConnectionError" "connection reset")];
       Mock.grades := []; Mock.agent_outputs := []; Mock.answers := [];
       Mock.answer_grades := []; Mock.replans := []; Mock.ticks := 0 |} in
  exists s',
    Planner_call B 5 5 (prepare_initial_state "What is 2+3?") (Mock.start w)
      = Some (Raise (OtherException "ConnectionError" "connection reset"), s')
    /\ non_streaming_run 3 (workflow B 5 Mock.executor) "What is 2+3?" (Mock.start w)
       = Some (Value "connection reset", s').
Proof.
  intros B w.
  assert (Hplan : exists s',
            Planner_call B 5 5 (prepare_initial_state "What is 2+3?") (Mock.start w)
            = Some (Raise (OtherException "ConnectionError" "connection reset"), s'))
    by (eexists; vm_compute; reflexivity).
  destruct Hplan as (s' & Hplan). exists s'. split; [exact Hplan|].
  apply (non_streaming_run_returns_the_error_text B 3 5 Mock.executor "What is 2+3?"
           (Mock.start w) s' (OtherException "ConnectionError" "connection reset")).
  - left. exact Hplan.
  - lia.
Defined.

(** * Further properties of the stream *)

Section StreamRuns.

Context {W : Type} (B : Backend W).

Lemma poll_cancel_not_cancelling (thread_id : option string) (s : GenState) :
  not_cancelling thread_id (g_threads s) ->
  poll_cancel (W := W) thread_id s = Some (Value false, s).
Proof.
  destruct thread_id as [tid|]; [|reflexivity].
  intros (thread_inst & created_at & status & Hentry & Hstatus).
  unfold poll_cancel. rewrite Hentry.
  destruct (String.eqb_spec status "try_cancel") as [->|_]; [congruence | reflexivity].
Qed.

(** the turns that go through cost one unit of fuel each and leave the
    loop where the graph stands after them *)
Lemma stream_events_through (app : StateGraph W) (thread_id : option string)
    (evs : list event) :
  forall n cur s cur_k s_k,
    streams_events B app thread_id evs cur s cur_k s_k ->
    stream_events B (length evs + n) app thread_id cur s
    = stream_events B n app thread_id cur_k s_k.
Proof.
  induction evs as [|ev evs IH]; intros n cur s cur_k s_k; cbn [streams_events].
  - intros [<- <-]. reflexivity.
  - intros (cur1 & s1 & Hnext & Hcheck & Hrest).
    cbn [length Nat.add stream_events]. unfold bind at 1. rewrite Hnext.
    unfold bind at 1. rewrite (poll_cancel_not_cancelling _ _ Hcheck).
    unfold bind at 1. cbn [yield_all].
    exact (IH n cur1 _ cur_k s_k Hrest).
Qed.

Lemma streams_events_emitted (app : StateGraph W) (thread_id : option string)
    (evs : list event) :
  forall cur s cur_k s_k,
    streams_events B app thread_id evs cur s cur_k s_k ->
    emitted s_k = emitted s ++ concat (map event_frames evs).
Proof.
  induction evs as [|ev evs IH]; intros cur s cur_k s_k; cbn [streams_events].
  - intros [_ <-]. cbn. now rewrite app_nil_r.
  - intros (cur1 & s1 & Hnext & _ & Hrest).
    rewrite (IH _ _ _ _ Hrest). cbn [after_yield emitted map concat].
    rewrite (astream_next_emitted B _ _ _ _ _ Hnext), <- app_assoc. reflexivity.
Qed.

(** X9. A streaming run that nobody cancels, with or without a thread id,
    yields the frames of every event of the graph, in the order of the
    events, and then the final frame, and nothing else; the generator has
    written nothing to the thread table. *)
Theorem uncancelled_stream_yields_every_event_then_done
    (fuel : nat) (app : StateGraph W) (thread_id : option string) (evs : list event)
    (cur cur_k : cursor) (s s_k s_end : GenState) :
  streams_events B app thread_id evs cur s cur_k s_k ->
  astream_next B app cur_k s_k = Some (Value None, s_end) ->
  length evs < fuel ->
  exists s',
    stream_from B fuel app thread_id cur s = Some (Value tt, s')
    /\ emitted s' = emitted s ++ concat (map event_frames evs) ++ [done_frame]
    /\ g_threads s' = g_threads s_end
    /\ env s' = env s_end.
Proof.
  intros Hturns Hend Hfuel.
  replace fuel with (length evs + S (fuel - length evs - 1)) by lia.
  exists (after_yield [done_frame] s_end).
  unfold stream_from, bind.
  rewrite (stream_events_through app thread_id evs _ _ _ _ _ Hturns).
  cbn [stream_events]. unfold bind at 1. rewrite Hend. cbn [ret yield_all].
  split; [reflexivity|]. cbn [after_yield emitted g_threads env].
  rewrite (astream_next_emitted B _ _ _ _ _ Hend),
    (streams_events_emitted _ _ _ _ _ _ _ Hturns), <- app_assoc.
  repeat split.
Qed.

(** X10. The generator catches nothing: when a node of the graph raises,
    the exception leaves the generator as it is, after the frames of the
    events that came before, and the final frame is not yielded. *)
Theorem failed_stream_ends_without_the_final_frame
    (fuel : nat) (app : StateGraph W) (thread_id : option string) (evs : list event)
    (cur cur_k : cursor) (s s_k s1 : GenState) (e : exn) :
  streams_events B app thread_id evs cur s cur_k s_k ->
  astream_next B app cur_k s_k = Some (Raise e, s1) ->
  length evs < fuel ->
  stream_from B fuel app thread_id cur s = Some (Raise e, s1)
  /\ emitted s1 = emitted s ++ concat (map event_frames evs).
Proof.
  intros Hturns Hraise Hfuel.
  replace fuel with (length evs + S (fuel - length evs - 1)) by lia.
  unfold stream_from, bind.
  rewrite (stream_events_through app thread_id evs _ _ _ _ _ Hturns).
  cbn [stream_events]. unfold bind at 1. rewrite Hraise.
  split; [reflexivity|].
  rewrite (astream_next_emitted B _ _ _ _ _ Hraise).
  exact (streams_events_emitted _ _ _ _ _ _ _ Hturns).
Qed.

(** X11. With a thread id that is not in the thread table, the lookup of the
    first check after an event raises the [KeyError] of that id: the event
    that had just come is not yielded, the final frame neither, and the
    table is left as it was. *)
Theorem unknown_thread_id_raises_key_error
    (fuel : nat) (app : StateGraph W) (tid : string) (evs : list event)
    (cur cur_k cur' : cursor) (s s_k s1 : GenState) (ev : event) :
  streams_events B app (Some tid) evs cur s cur_k s_k ->
  astream_next B app cur_k s_k = Some (Value (Some (ev, cur')), s1) ->
  g_threads s1 !! tid = None ->
  length evs < fuel ->
  stream_from B fuel app (Some tid) cur s = Some (Raise (KeyError tid), s1)
  /\ emitted s1 = emitted s ++ concat (map event_frames evs).
Proof.
  intros Hturns Hnext Hmissing Hfuel.
  replace fuel with (length evs + S (fuel - length evs - 1)) by lia.
  unfold stream_from, bind.
  rewrite (stream_events_through app (Some tid) evs _ _ _ _ _ Hturns).
  cbn [stream_events]. unfold bind at 1. rewrite Hnext.
  unfold bind, poll_cancel. cbv beta. unfold ThreadEntry in *. rewrite Hmissing.
  split; [reflexivity|].
  rewrite (astream_next_emitted B _ _ _ _ _ Hnext).
  exact (streams_events_emitted _ _ _ _ _ _ _ Hturns).
Qed.

End StreamRuns.

Lemma uncancelled_stream_yields_every_event_then_done_witness :
  let B := Mock.backend None "t1" in
  let app := workflow B 5 Mock.executor in
  let cur := astream_start app (prepare_initial_state "What is 2+3, then double it?") in
  exists ev1 ev2 ev3 cur_k s_k s_end s',
    streams_events B app None [ev1; ev2; ev3] cur (Mock.gen_start Mock.arithmetic) cur_k s_k
    /\ astream_next B app cur_k s_k = Some (Value None, s_end)
    /\ stream_generator B 5 app "What is 2+3, then double it?" None
         (Mock.gen_start Mock.arithmetic) = Some (Value tt, s')
    /\ emitted s' = event_frames ev1 ++ event_frames ev2 ++ event_frames ev3 ++ [done_frame].
Proof.
  intros B app cur.
  assert (Hturns : exists ev1 ev2 ev3 cur_k s_k s_end,
            streams_events B app None [ev1; ev2; ev3] cur
              (Mock.gen_start Mock.arithmetic) cur_k s_k
            /\ astream_next B app cur_k s_k = Some (Value None, s_end)).
  { do 6 eexists. split.
    - cbn [streams_events].
      do 2 eexists. split; [vm_compute; reflexivity|]. split; [exact I|].
      do 2 eexists. split; [vm_compute; reflexivity|]. split; [exact I|].
      do 2 eexists. split; [vm_compute; reflexivity|]. split; [exact I|].
      split; reflexivity.
    - vm_compute. reflexivity. }
  destruct Hturns as (ev1 & ev2 & ev3 & cur_k & s_k & s_end & Hturns & Hend).
  destruct (uncancelled_stream_yields_every_event_then_done B 5 app None [ev1; ev2; ev3]
              cur cur_k _ s_k s_end Hturns Hend ltac:(simpl; lia))
    as (s' & Hrun & Hemit & _).
  exists ev1, ev2, ev3, cur_k, s_k, s_end, s'.
  split; [exact Hturns|]. split; [exact Hend|]. split; [exact Hrun|].
  rewrite Hemit. cbn [map concat Mock.gen_start emitted].
  rewrite app_nil_r, app_nil_l, <- ?app_assoc. reflexivity.
Defined.

Lemma failed_stream_ends_without_the_final_frame_witness :
  let B := Mock.backend None "t1" in
  let app := workflow B 5 Mock.executor in
  let cur := astream_start app (prepare_initial_state "What is 2+3, then double it?") in
  let w :=
    {| Mock.plans := [Value {| steps := ["compute 2+3"] |}];
       Mock.grades := [Mock.yes];
       Mock.agent_outputs := [Raise (OtherException "ToolError" "calculator is down")];
       Mock.answers := []; Mock.answer_grades := []; Mock.replans := [];
       Mock.ticks := 0 |} in
  exists ev1 cur_k s_k s1,
    streams_events B app (Some "t1") [ev1] cur (Mock.gen_start w) cur_k s_k
    /\ astream_next B app cur_k s_k
       = Some (Raise (OtherException "ToolError" "calculator is down"), s1)
    /\ stream_generator B 5 app "What is 2+3, then double it?" (Some "t1") (Mock.gen_start w)
       = Some (Raise (OtherException "ToolError" "calculator is down"), s1)
    /\ emitted s1 = event_frames ev1.
Proof.
  intros B app cur w.
  assert (Hturns : exists ev1 cur_k s_k s1,
            streams_events B app (Some "t1") [ev1] cur (Mock.gen_start w) cur_k s_k
            /\ astream_next B app cur_k s_k
               = Some (Raise (OtherException "ToolError" "calculator is down"), s1)).
  { do 4 eexists. split.
    - cbn [streams_events].
      do 2 eexists. split; [vm_compute; reflexivity|].
      split; [|split; reflexivity].
      cbn [not_cancelling]. do 3 eexists. split; [vm_compute; reflexivity | discriminate].
    - vm_compute. reflexivity. }
  destruct Hturns as (ev1 & cur_k & s_k & s1 & Hturns & Hraise).
  destruct (failed_stream_ends_without_the_final_frame B 5 app (Some "t1") [ev1]
              cur cur_k _ s_k s1 _ Hturns Hraise ltac:(simpl; lia))
    as (Hrun & Hemit).
  exists ev1, cur_k, s_k, s1.
  split; [exact Hturns|]. split; [exact Hraise|]. split; [exact Hrun|].
  rewrite Hemit. cbn [map concat Mock.gen_start emitted].
  rewrite app_nil_r, app_nil_l, <- ?app_assoc. reflexivity.
Defined.

Lemma unknown_thread_id_raises_key_error_witness :
  let B := Mock.backend None "t1" in
  let app := workflow B 5 Mock.executor in
  let cur := astream_start app (prepare_initial_state "What is 2+3, then double it?") in
  exists ev cur' s1,
    astream_next B app cur (Mock.gen_start Mock.arithmetic) = Some (Value (Some (ev, cur')), s1)
    /\ g_threads s1 !! "t2" = None
    /\ stream_generator B 5 app "What is 2+3, then double it?" (Some "t2")
         (Mock.gen_start Mock.arithmetic) = Some (Raise (KeyError "t2"), s1)
    /\ emitted s1 = [].
Proof.
  intros B app cur.
  assert (Hnext : exists ev cur' s1,
            astream_next B app cur (Mock.gen_start Mock.arithmetic)
            = Some (Value (Some (ev, cur')), s1)
            /\ g_threads s1 !! "t2" = None).
  { do 3 eexists. split; vm_compute; reflexivity. }
  destruct Hnext as (ev & cur' & s1 & Hnext & Hmissing).
  destruct (unknown_thread_id_raises_key_error B 5 app "t2" [] cur cur cur'
              (Mock.gen_start Mock.arithmetic) _ s1 ev
              (conj eq_refl eq_refl) Hnext Hmissing ltac:(simpl; lia))
    as (Hrun & Hemit).
  exists ev, cur', s1.
  split; [exact Hnext|]. split; [exact Hmissing|]. split; [exact Hrun|].
  exact Hemit.
Defined.

(** * Properties of the trimming of a summary's input *)

Module GraphRAGStoreFacts.

Import GraphRAGStore.

Lemma len_nonneg (s : string) : (0 <= len s)%Z.
Proof. unfold len. lia. Qed.

Lemma len_append (a b : string) : len (a +:+ b) = (len a + len b)%Z.
Proof.
  unfold len. induction a as [|c a IH].
  - change (EmptyString +:+ b) with b. simpl. lia.
  - rewrite append_cons. cbn [String.length]. lia.
Qed.

Lemma len_zero (s : string) : len s = 0%Z -> s = EmptyString.
Proof. destruct s; [reflexivity | unfold len; simpl; lia]. Qed.

Lemma chars_nonneg (l : list string) : (0 <= chars l)%Z.
Proof.
  induction l as [|x l IH]; simpl; [lia|]. pose proof (len_nonneg x). lia.
Qed.

Lemma chars_app (a b : list string) : chars (a ++ b) = (chars a + chars b)%Z.
Proof. induction a as [|x a IH]; simpl; lia. Qed.

Lemma len_join (l : list string) :
  len (PyStr.join (PyStr.chr PyStr.nl) l)
  = match l with [] => 0%Z | _ => (chars l - 1)%Z end.
Proof.
  induction l as [|x l IH]; [reflexivity|].
  destruct l as [|y l].
  - simpl. lia.
  - rewrite join_cons, !len_append, IH.
    change (len (PyStr.chr PyStr.nl)) with 1%Z. cbn [chars fold_right]. lia.
Qed.

Lemma split_not_nil (sep : ascii) (s : string) : split sep s <> [].
Proof.
  induction s as [|c s IH]; simpl; [discriminate|].
  destruct (Ascii.eqb c sep); [discriminate|].
  destruct (split sep s); discriminate.
Qed.

(** joining what was split gives the text back *)
Lemma join_split (s : string) :
  PyStr.join (PyStr.chr PyStr.nl) (split PyStr.nl s) = s.
Proof.
  induction s as [|c s IH]; [reflexivity|].
  cbn [split]. destruct (Ascii.eqb_spec c PyStr.nl) as [->|Hc].
  - pose proof (split_not_nil PyStr.nl s) as Hne.
    destruct (split PyStr.nl s) as [|y l]; [congruence|].
    rewrite join_cons, IH. reflexivity.
  - pose proof (split_not_nil PyStr.nl s) as Hne.
    destruct (split PyStr.nl s) as [|y l]; [congruence|].
    destruct l as [|z l].
    + cbn [PyStr.join] in *. now rewrite IH.
    + rewrite join_cons in *. rewrite append_cons, IH. reflexivity.
Qed.

Lemma chars_split (s : string) : chars (split PyStr.nl s) = (len s + 1)%Z.
Proof.
  pose proof (len_join (split PyStr.nl s)) as H. rewrite join_split in H.
  pose proof (split_not_nil PyStr.nl s).
  destruct (split PyStr.nl s); [congruence | lia].
Qed.

(** what the loop keeps: the longest run of the first relationships whose
    count of characters stays within the budget *)
Lemma keep_relationships_spec (relationships : list string) (available : Z) :
  forall trimmed_text current_chars,
  exists n,
    n <= length relationships
    /\ keep_relationships relationships trimmed_text current_chars available
       = trimmed_text ++ take n relationships
    /\ (0 < n -> (current_chars + chars (take n relationships) <= available)%Z)
    /\ (n < length relationships ->
        (current_chars + chars (take (S n) relationships) > available)%Z).
Proof.
  induction relationships as [|rel rest IH]; intros trimmed_text current_chars.
  - exists 0. simpl. rewrite app_nil_r. repeat split; lia.
  - cbn [keep_relationships].
    destruct (Z.gtb_spec (current_chars + (len rel + 1)) available) as [Hover|Hfits].
    + exists 0. simpl. rewrite app_nil_r. repeat split; lia.
    + destruct (IH (trimmed_text ++ [rel]) (current_chars + (len rel + 1))%Z)
        as (n & Hn & Hkeep & Hfit & Hmax).
      exists (S n). rewrite !firstn_cons. cbn [length]. split; [lia|]. split.
      * rewrite Hkeep, <- app_assoc. reflexivity.
      * change (chars (rel :: ?l)) with (len rel + 1 + chars l)%Z. split.
        -- intros _. destruct n as [|n].
           ++ rewrite firstn_O. change (chars []) with 0%Z. lia.
           ++ specialize (Hfit ltac:(lia)). lia.
        -- intros Hlt. specialize (Hmax ltac:(lia)). lia.
Qed.

(** the estimate, once the text is known not to fit *)
Lemma estimated_trim_inv (text system_prompt : string) (max_input_tokens : Z) :
  let available := available_chars system_prompt max_input_tokens in
  (available < len text)%Z ->
  exists n,
    n < length (split PyStr.nl text)
    /\ (0 < n -> (chars (take n (split PyStr.nl text)) <= available)%Z)
    /\ (chars (take (S n) (split PyStr.nl text)) > available)%Z
    /\ let kept := PyStr.join (PyStr.chr PyStr.nl) (take n (split PyStr.nl text)) in
       len kept = (if (n =? 0)%nat then 0 else chars (take n (split PyStr.nl text)) - 1)%Z
       /\ _trim_messages_with_estimated_tokens text system_prompt max_input_tokens
          = if (len text =? 0)%Z
            then Raise (OtherException "ZeroDivisionError" "division by zero")
            else Value (if (len kept + len warning <=? available)%Z
                        then kept +:+ warning else kept, true).
Proof.
  intros available Hover.
  destruct (keep_relationships_spec (split PyStr.nl text) available [] 0%Z)
    as (n & Hn & Hkeep & Hfit & Hmax).
  cbn [app] in Hkeep.
  assert (Hlt : n < length (split PyStr.nl text)).
  { destruct (Nat.eq_dec n (length (split PyStr.nl text))) as [->|]; [|lia].
    exfalso. rewrite firstn_all in Hfit.
    pose proof (split_not_nil PyStr.nl text) as Hne.
    assert (0 < length (split PyStr.nl text)) as Hpos
      by (destruct (split PyStr.nl text); [congruence | simpl; lia]).
    specialize (Hfit Hpos). rewrite chars_split in Hfit. lia. }
  exists n. split; [exact Hlt|]. split; [intros H; specialize (Hfit H); lia|].
  split; [specialize (Hmax Hlt); lia|]. cbv zeta. split.
  - rewrite len_join. destruct n as [|n]; [reflexivity|].
    destruct (split PyStr.nl text) as [|x l]; [simpl in Hlt; lia|]. reflexivity.
  - unfold _trim_messages_with_estimated_tokens. fold available.
    destruct (Z.leb_spec (len text) available) as [|_]; [lia|].
    rewrite Hkeep. reflexivity.
Qed.

(** X12. The estimate returns the text as it is, and says so, exactly when
    the text is within the budget of characters; a text it has trimmed is
    shorter than the original and within the budget, or empty when the
    budget is negative. *)
Theorem estimated_trim_fits_the_budget (text system_prompt : string)
    (max_input_tokens : Z) (result : string) (was_trimmed : bool) :
  _trim_messages_with_estimated_tokens text system_prompt max_input_tokens
    = Value (result, was_trimmed) ->
  let available := available_chars system_prompt max_input_tokens in
  (was_trimmed = false <-> (len text <= available)%Z)
  /\ (was_trimmed = false -> result = text)
  /\ (was_trimmed = true ->
      (len result <= Z.max 0 available)%Z /\ (len result < len text)%Z).
Proof.
  intros Hcall available.
  destruct (Z.leb_spec (len text) available) as [Hfits|Hover].
  - unfold _trim_messages_with_estimated_tokens in Hcall. fold available in Hcall.
    destruct (Z.leb_spec (len text) available) as [_|]; [|lia].
    injection Hcall as <- <-. repeat split; auto; discriminate.
  - destruct (estimated_trim_inv text system_prompt max_input_tokens Hover)
      as (n & Hn & Hfit & Hmax & Hlen & Heq).
    fold available in Hfit, Hmax, Hlen, Heq. cbv zeta in Hlen, Heq.
    rewrite Heq in Hcall.
    destruct (Z.eqb_spec (len text) 0) as [|Hnonempty]; [discriminate|].
    pose proof (len_nonneg text).
    injection Hcall as <- <-.
    split; [split; [discriminate | lia]|]. split; [discriminate|]. intros _.
    set (kept := PyStr.join (PyStr.chr PyStr.nl) (take n (split PyStr.nl text))) in *.
    destruct (Z.leb_spec (len kept + len warning) available) as [Hroom|Hnoroom].
    + rewrite len_append. lia.
    + destruct n as [|n]; cbn [Nat.eqb] in Hlen; [lia|].
      specialize (Hfit ltac:(lia)). lia.
Qed.

(** X13. What the estimate keeps of a text it trims is a run of its first
    lines, the longest whose count of characters, one more than its length
    for each line, stays within the budget; at least one line is dropped. The
    lines are joined again, and the note is added when there is room for it. *)
Theorem estimated_trim_keeps_the_first_relationships (text system_prompt : string)
    (max_input_tokens : Z) (result : string) :
  _trim_messages_with_estimated_tokens text system_prompt max_input_tokens
    = Value (result, true) ->
  let available := available_chars system_prompt max_input_tokens in
  let relationships := split PyStr.nl text in
  exists n,
    n < length relationships
    /\ (0 < n -> (chars (take n relationships) <= available)%Z)
    /\ (chars (take (S n) relationships) > available)%Z
    /\ let kept := PyStr.join (PyStr.chr PyStr.nl) (take n relationships) in
       result = if (len kept + len warning <=? available)%Z
                then kept +:+ warning else kept.
Proof.
  intros Hcall available relationships.
  assert (Hover : (available < len text)%Z).
  { destruct (Z.leb_spec (len text) available) as [Hfits|]; [|assumption].
    unfold _trim_messages_with_estimated_tokens in Hcall. fold available in Hcall.
    destruct (Z.leb_spec (len text) available) as [_|]; [|lia]. discriminate. }
  destruct (estimated_trim_inv text system_prompt max_input_tokens Hover)
    as (n & Hn & Hfit & Hmax & _ & Heq).
  exists n. split; [exact Hn|]. split; [exact Hfit|]. split; [exact Hmax|].
  cbv zeta in Heq |- *. rewrite Heq in Hcall.
  destruct (len text =? 0)%Z; [discriminate|]. now injection Hcall.
Qed.

(** X14. The estimate raises only on an empty text with a negative budget:
    the text then counts as not fitting, and the share of it that was kept,
    computed for the log, divides by its length, which is zero. *)
Theorem estimated_trim_divides_by_zero_on_empty_text (text system_prompt : string)
    (max_input_tokens : Z) (e : exn) :
  _trim_messages_with_estimated_tokens text system_prompt max_input_tokens = Raise e
  <-> text = EmptyString
      /\ (available_chars system_prompt max_input_tokens < 0)%Z
      /\ e = OtherException "ZeroDivisionError" "division by zero".
Proof.
  set (available := available_chars system_prompt max_input_tokens).
  split.
  - intros Hcall.
    destruct (Z.leb_spec (len text) available) as [Hfits|Hover].
    + unfold _trim_messages_with_estimated_tokens in Hcall. fold available in Hcall.
      destruct (Z.leb_spec (len text) available) as [_|]; [discriminate | lia].
    + destruct (estimated_trim_inv text system_prompt max_input_tokens Hover)
        as (n & _ & _ & _ & _ & Heq).
      rewrite Heq in Hcall.
      destruct (Z.eqb_spec (len text) 0) as [Hzero|]; [|discriminate].
      injection Hcall as <-. fold available in Hover.
      split; [now apply len_zero|]. split; [lia | reflexivity].
  - intros (-> & Hneg & ->).
    unfold _trim_messages_with_estimated_tokens. fold available.
    change (len EmptyString) with 0%Z.
    destruct (Z.leb_spec 0 available) as [|_]; [lia|]. reflexivity.
Qed.

Section TokenizerFacts.

Context {token : Type}
        (tokenize : string -> list token)
        (convert_tokens_to_string : list token -> string).

Lemma token_count_nonneg (object : ChatMessage) : (0 <= token_count tokenize object)%Z.
Proof. unfold token_count. lia. Qed.

Lemma total_count_nonneg (h : heap) (addresses : list nat) :
  (0 <= total_count tokenize h addresses)%Z.
Proof.
  induction addresses as [|a l IH]; cbn [total_count fold_right]; [lia|].
  fold (total_count tokenize h l).
  destruct (h !! a) as [object|]; [pose proof (token_count_nonneg object)|]; lia.
Qed.

Lemma total_count_cons (h : heap) (a : nat) (l : list nat) (object : ChatMessage) :
  h !! a = Some object ->
  total_count tokenize h (a :: l)
  = (token_count tokenize object + total_count tokenize h l)%Z.
Proof. intros H. cbn [total_count fold_right]. now rewrite H. Qed.

(** the loop up to the first message that does not fit *)
Lemma trim_loop_cut (h : heap) (effective : Z) (before : list nat) :
  forall (total : Z) (acc after : list nat) (address : nat) (object : ChatMessage),
    Forall (fun a => is_Some (h !! a)) before ->
    h !! address = Some object ->
    (total + total_count tokenize h before <= effective)%Z ->
    (total + total_count tokenize h before + token_count tokenize object > effective)%Z ->
    trim_loop tokenize convert_tokens_to_string (before ++ address :: after) h total acc
              effective
    = (acc ++ before ++ [address],
       <[address := cut convert_tokens_to_string object
                      (slice_to (tokenize (chat_content object))
                                (effective - (total + total_count tokenize h before)))]> h).
Proof.
  induction before as [|a before IH]; intros total acc after address object Hvalid Hobj Hle Hgt.
  - cbn [app trim_loop total_count fold_right] in *. rewrite Hobj.
    fold (token_count tokenize object).
    destruct (Z.gtb_spec (total + token_count tokenize object) effective) as [_|]; [|lia].
    rewrite Z.add_0_r. reflexivity.
  - apply Forall_cons in Hvalid as [[first Hfirst] Hvalid].
    rewrite (total_count_cons h a before first Hfirst) in Hle, Hgt |- *.
    pose proof (total_count_nonneg h before).
    cbn [app trim_loop]. rewrite Hfirst. fold (token_count tokenize first).
    destruct (Z.gtb_spec (total + token_count tokenize first) effective) as [|_]; [lia|].
    rewrite (IH (total + token_count tokenize first)%Z (acc ++ [a]) after address object
               Hvalid Hobj ltac:(lia) ltac:(lia)).
    rewrite <- !app_assoc. cbn [app]. do 4 f_equal. lia.
Qed.

(** the loop over messages that all fit *)
Lemma trim_loop_fits (h : heap) (effective : Z) (messages : list nat) :
  forall (total : Z) (acc : list nat),
    Forall (fun a => is_Some (h !! a)) messages ->
    (total + total_count tokenize h messages <= effective)%Z ->
    trim_loop tokenize convert_tokens_to_string messages h total acc effective
    = (acc ++ messages, h).
Proof.
  induction messages as [|a messages IH]; intros total acc Hvalid Hle.
  - cbn. now rewrite app_nil_r.
  - apply Forall_cons in Hvalid as [[first Hfirst] Hvalid].
    rewrite (total_count_cons h a messages first Hfirst) in Hle.
    pose proof (total_count_nonneg h messages).
    cbn [trim_loop]. rewrite Hfirst. fold (token_count tokenize first).
    destruct (Z.gtb_spec (total + token_count tokenize first) effective) as [|_]; [lia|].
    rewrite (IH (total + token_count tokenize first)%Z (acc ++ [a]) Hvalid ltac:(lia)),
      <- app_assoc.
    reflexivity.
Qed.

(** X15. Messages whose tokens, added up, stay within the limit less the
    buffer of 100 are returned as they are, all of them, and no message is
    changed. *)
Theorem tokenizer_trim_keeps_messages_that_fit (h : heap) (messages : list nat)
    (max_tokens : Z) :
  Forall (fun a => is_Some (h !! a)) messages ->
  (total_count tokenize h messages <= max_tokens - 100)%Z ->
  _trim_messages_to_token_limit tokenize convert_tokens_to_string h messages max_tokens
  = (messages, h).
Proof.
  intros Hvalid Hle. unfold _trim_messages_to_token_limit.
  rewrite (trim_loop_fits h (max_tokens - 100)%Z messages 0%Z [] Hvalid ltac:(lia)).
  reflexivity.
Qed.

(** X16. At the first message with which the count of tokens passes the
    limit less 100, the loop stops: the messages before it are returned
    unchanged, that message is returned with its content made again from its
    first tokens, as many as were left of the budget, so that the tokens kept
    add up to the budget exactly, and the messages after it are dropped. The
    message is changed in place. *)
Theorem tokenizer_trim_cuts_the_first_message_over_budget
    (h : heap) (before after : list nat) (address : nat) (object : ChatMessage)
    (max_tokens : Z) :
  Forall (fun a => is_Some (h !! a)) before ->
  h !! address = Some object ->
  (total_count tokenize h before <= max_tokens - 100)%Z ->
  (total_count tokenize h before + token_count tokenize object > max_tokens - 100)%Z ->
  let remaining := (max_tokens - 100 - total_count tokenize h before)%Z in
  let kept := take (Z.to_nat remaining) (tokenize (chat_content object)) in
  _trim_messages_to_token_limit tokenize convert_tokens_to_string h
    (before ++ address :: after) max_tokens
  = (before ++ [address], <[address := cut convert_tokens_to_string object kept]> h)
  /\ (total_count tokenize h before + Z.of_nat (length kept) = max_tokens - 100)%Z
  /\ (Z.of_nat (length kept) < token_count tokenize object)%Z.
Proof.
  intros Hvalid Hobj Hle Hgt remaining kept.
  unfold _trim_messages_to_token_limit.
  rewrite (trim_loop_cut h (max_tokens - 100)%Z before 0%Z [] after address object
             Hvalid Hobj ltac:(lia) ltac:(lia)).
  assert (Hlen : Z.of_nat (length kept) = remaining).
  { unfold kept. rewrite length_take. unfold token_count in Hgt. lia. }
  split; [|unfold token_count in *; lia].
  cbn [app]. do 3 f_equal. unfold slice_to.
  destruct (Z.ltb_spec (max_tokens - 100 - (0 + total_count tokenize h before)) 0) as [|_];
    [lia|].
  unfold kept, remaining. do 2 f_equal; lia.
Qed.

(** the two messages of the wrapper, when both fit *)
Lemma tokenizer_trim_keeps_messages_that_fit_aux (system_prompt text : string)
    (max_input_tokens : Z) :
  (Z.of_nat (length (tokenize system_prompt)) + Z.of_nat (length (tokenize text))
   <= max_input_tokens - 100)%Z ->
  _trim_messages_to_token_limit tokenize convert_tokens_to_string
    [{| chat_role := "system"; chat_content := system_prompt |};
     {| chat_role := "user"; chat_content := text |}] [0; 1] max_input_tokens
  = ([0; 1],
     [{| chat_role := "system"; chat_content := system_prompt |};
      {| chat_role := "user"; chat_content := text |}]).
Proof.
  intros Hfits. unfold _trim_messages_to_token_limit.
  rewrite (trim_loop_fits _ (max_input_tokens - 100)%Z [0; 1] 0%Z []).
  - reflexivity.
  - repeat constructor; now eexists.
  - unfold total_count. cbn [fold_right lookup list_lookup].
    unfold token_count. cbn [chat_content]. lia.
Qed.

(** the wrapper when the prompt fits and the text does not *)
Lemma text_cut_in_place (system_prompt text : string)
    (max_input_tokens : Z) :
  let prompt_tokens := Z.of_nat (length (tokenize system_prompt)) in
  let text_tokens := Z.of_nat (length (tokenize text)) in
  (prompt_tokens <= max_input_tokens - 100)%Z ->
  (prompt_tokens + text_tokens > max_input_tokens - 100)%Z ->
  trimmed_messages_with_tokenizer tokenize convert_tokens_to_string system_prompt text
    max_input_tokens
  = Value ([0; 1],
           [{| chat_role := "system"; chat_content := system_prompt |};
            {| chat_role := "user";
               chat_content :=
                 convert_tokens_to_string
                   (take (Z.to_nat (max_input_tokens - 100 - prompt_tokens))
                         (tokenize text)) |}],
           false).
Proof.
  intros prompt_tokens text_tokens Hprompt Htext.
  subst prompt_tokens text_tokens.
  unfold trimmed_messages_with_tokenizer.
  set (h := [{| chat_role := "system"; chat_content := system_prompt |};
             {| chat_role := "user"; chat_content := text |}]).
  assert (Htrim :
    _trim_messages_to_token_limit tokenize convert_tokens_to_string h [0; 1] max_input_tokens
    = ([0; 1],
       [{| chat_role := "system"; chat_content := system_prompt |};
        {| chat_role := "user";
           chat_content :=
             convert_tokens_to_string
               (take (Z.to_nat (max_input_tokens - 100
                                - Z.of_nat (length (tokenize system_prompt))))
                     (tokenize text)) |}])).
  { unfold _trim_messages_to_token_limit.
    change [0; 1] with ([0] ++ 1 :: @nil nat) at 1.
    rewrite (trim_loop_cut h (max_input_tokens - 100) [0] 0%Z [] [] 1
               {| chat_role := "user"; chat_content := text |}).
    - unfold slice_to, cut, total_count.
      cbn [app fold_right h lookup list_lookup chat_content chat_role list_insert insert].
      unfold token_count. cbn [chat_content].
      match goal with
      | |- context [Z.ltb ?a ?b] => destruct (Z.ltb_spec a b) as [Hneg|_]
      end; [lia|].
      match goal with
      | |- context [Z.to_nat ?a] =>
          replace a
            with (max_input_tokens - 100 - Z.of_nat (length (tokenize system_prompt)))%Z
            by lia
      end.
      reflexivity.
    - repeat constructor. now eexists.
    - reflexivity.
    - unfold total_count. cbn [fold_right h lookup list_lookup].
      unfold token_count. cbn [chat_content]. lia.
    - unfold total_count. cbn [fold_right h lookup list_lookup].
      unfold token_count. cbn [chat_content]. lia. }
  rewrite Htrim. cbn [length Nat.ltb Nat.leb last orb].
  rewrite bool_decide_eq_true_2 by reflexivity. reflexivity.
Qed.

(** X17. The cut of the user's text goes unreported. When the system
    prompt fits and the text does not, the text is cut in place, to the
    tokens left after the prompt, and both messages are returned; the last
    message of the list returned is then the very object that is the last of
    the original list, so their contents are equal, [was_trimmed] is false,
    and the note is not added to the system prompt. *)
Theorem text_cut_in_place_is_not_reported (system_prompt text : string)
    (max_input_tokens : Z) :
  let prompt_tokens := Z.of_nat (length (tokenize system_prompt)) in
  let text_tokens := Z.of_nat (length (tokenize text)) in
  (prompt_tokens <= max_input_tokens - 100)%Z ->
  (prompt_tokens + text_tokens > max_input_tokens - 100)%Z ->
  trimmed_messages_with_tokenizer tokenize convert_tokens_to_string system_prompt text
    max_input_tokens
  = Value ([0; 1],
           [{| chat_role := "system"; chat_content := system_prompt |};
            {| chat_role := "user";
               chat_content :=
                 convert_tokens_to_string
                   (take (Z.to_nat (max_input_tokens - 100 - prompt_tokens))
                         (tokenize text)) |}],
           false).
Proof. apply text_cut_in_place. Qed.

(** X18. [was_trimmed] tells of a trimming only when the system prompt
    alone is over the limit less 100: then the first message alone is
    returned and the text is dropped. In every other case both messages are
    returned and [was_trimmed] is false, the text having been cut or not. *)
Theorem was_trimmed_only_tells_of_a_cut_prompt (system_prompt text : string)
    (max_input_tokens : Z) :
  exists messages h was_trimmed,
    trimmed_messages_with_tokenizer tokenize convert_tokens_to_string system_prompt text
      max_input_tokens = Value (messages, h, was_trimmed)
    /\ (was_trimmed = true
        <-> (Z.of_nat (length (tokenize system_prompt)) > max_input_tokens - 100)%Z)
    /\ (was_trimmed = true -> messages = [0])
    /\ (was_trimmed = false -> messages = [0; 1]).
Proof.
  destruct (Z.le_gt_cases (Z.of_nat (length (tokenize system_prompt)))
                          (max_input_tokens - 100)) as [Hprompt|Hprompt].
  - destruct (Z.le_gt_cases (Z.of_nat (length (tokenize system_prompt))
                              + Z.of_nat (length (tokenize text)))
                            (max_input_tokens - 100)) as [Htext|Htext].
    + exists [0; 1],
        [{| chat_role := "system"; chat_content := system_prompt |};
         {| chat_role := "user"; chat_content := text |}], false.
      split; [|split; [split; [discriminate | lia]|split; [discriminate | reflexivity]]].
      unfold trimmed_messages_with_tokenizer.
      rewrite tokenizer_trim_keeps_messages_that_fit_aux; [|exact Htext].
      cbn [length Nat.ltb Nat.leb last orb].
      rewrite bool_decide_eq_true_2 by reflexivity. reflexivity.
    + eexists [0; 1], _, false.
      split; [apply text_cut_in_place; lia|].
      split; [split; [discriminate | lia]|split; [discriminate | reflexivity]].
  - eexists [0], _, true.
    split; [|split; [split; [lia | reflexivity]|split; [reflexivity | discriminate]]].
    unfold trimmed_messages_with_tokenizer, _trim_messages_to_token_limit.
    cbn [trim_loop lookup list_lookup chat_content].
    destruct (Z.gtb_spec (0 + Z.of_nat (length (tokenize system_prompt)))
                         (max_input_tokens - 100)) as [_|]; [|lia].
    cbn [app length Nat.ltb Nat.leb orb list_insert insert lookup list_lookup
         chat_role chat_content].
    reflexivity.
Qed.

(** X19. With a limit below the buffer of 100 the budget is negative, and
    the slice [tokens[:remaining_tokens]] then counts from the end: only the
    first message is returned, and it keeps all its tokens but the last
    [100 - max_tokens], none if it has fewer. *)
Theorem tokenizer_trim_with_a_limit_below_the_buffer
    (h : heap) (address : nat) (after : list nat) (object : ChatMessage) (max_tokens : Z) :
  (max_tokens < 100)%Z ->
  h !! address = Some object ->
  _trim_messages_to_token_limit tokenize convert_tokens_to_string h (address :: after)
    max_tokens
  = ([address],
     <[address := cut convert_tokens_to_string object
                    (take (length (tokenize (chat_content object))
                           - Z.to_nat (100 - max_tokens))
                          (tokenize (chat_content object)))]> h).
Proof.
  intros Hlimit Hobj. unfold _trim_messages_to_token_limit.
  cbn [trim_loop]. rewrite Hobj.
  destruct (Z.gtb_spec (0 + Z.of_nat (length (tokenize (chat_content object))))
                       (max_tokens - 100)) as [_|]; [|lia].
  unfold slice_to, cut.
  destruct (Z.ltb_spec (max_tokens - 100 - 0) 0) as [_|]; [|lia].
  replace (Z.to_nat (Z.max 0 (Z.of_nat (length (tokenize (chat_content object)))
                              + (max_tokens - 100 - 0))))
    with (length (tokenize (chat_content object)) - Z.to_nat (100 - max_tokens)) by lia.
  reflexivity.
Qed.

End TokenizerFacts.

Lemma estimated_trim_fits_the_budget_witness :
  let text := "a->b" +:+ PyStr.chr PyStr.nl +:+ "c->d" +:+ PyStr.chr PyStr.nl +:+ "e->f" in
  let result := "a->b" +:+ PyStr.chr PyStr.nl +:+ "c->d" in
  _trim_messages_with_estimated_tokens text EmptyString 103 = Value (result, true)
  /\ (len result <= Z.max 0 (available_chars EmptyString 103))%Z
  /\ (len result < len text)%Z.
Proof.
  intros text result.
  assert (H : _trim_messages_with_estimated_tokens text EmptyString 103
              = Value (result, true)) by (vm_compute; reflexivity).
  split; [exact H|].
  destruct (estimated_trim_fits_the_budget text EmptyString 103 result true H)
    as (_ & _ & Hcut).
  exact (Hcut eq_refl).
Defined.

Lemma estimated_trim_keeps_the_first_relationships_witness :
  let text := "a->b" +:+ PyStr.chr PyStr.nl +:+ "c->d" +:+ PyStr.chr PyStr.nl +:+ "e->f" in
  let result := "a->b" +:+ PyStr.chr PyStr.nl +:+ "c->d" in
  _trim_messages_with_estimated_tokens text EmptyString 103 = Value (result, true)
  /\ exists n,
       n < length (split PyStr.nl text)
       /\ (chars (take (S n) (split PyStr.nl text)) > available_chars EmptyString 103)%Z.
Proof.
  intros text result.
  assert (H : _trim_messages_with_estimated_tokens text EmptyString 103
              = Value (result, true)) by (vm_compute; reflexivity).
  split; [exact H|].
  destruct (estimated_trim_keeps_the_first_relationships text EmptyString 103 result H)
    as (n & Hn & _ & Hmax & _).
  exists n. split; [exact Hn | exact Hmax].
Defined.

Lemma tokenizer_trim_keeps_messages_that_fit_witness :
  let h := [{| chat_role := "system"; chat_content := "ab" |};
            {| chat_role := "user"; chat_content := "cde" |}] in
  Forall (fun a => is_Some (h !! a)) [0; 1]
  /\ (total_count list_ascii_of_string h [0%nat; 1%nat] <= 105 - 100)%Z
  /\ _trim_messages_to_token_limit list_ascii_of_string string_of_list_ascii h [0; 1] 105
     = ([0; 1], h).
Proof.
  intros h.
  assert (Hvalid : Forall (fun a => is_Some (h !! a)) [0; 1])
    by (repeat constructor; eexists; reflexivity).
  assert (Hfits : (total_count list_ascii_of_string h [0%nat; 1%nat] <= 105 - 100)%Z)
    by (apply Z.leb_le; vm_compute; reflexivity).
  split; [exact Hvalid|]. split; [exact Hfits|].
  exact (tokenizer_trim_keeps_messages_that_fit list_ascii_of_string string_of_list_ascii
           h [0; 1] 105 Hvalid Hfits).
Defined.

Lemma tokenizer_trim_cuts_the_first_message_over_budget_witness :
  let h := [{| chat_role := "system"; chat_content := "ab" |};
            {| chat_role := "user"; chat_content := "cde" |}] in
  _trim_messages_to_token_limit list_ascii_of_string string_of_list_ascii h [0; 1] 104
  = ([0; 1],
     [{| chat_role := "system"; chat_content := "ab" |};
      {| chat_role := "user"; chat_content := "cd" |}]).
Proof.
  intros h.
  assert (Hvalid : Forall (fun a => is_Some (h !! a)) [0])
    by (repeat constructor; eexists; reflexivity).
  assert (Hle : (total_count list_ascii_of_string h [0%nat] <= 104 - 100)%Z)
    by (apply Z.leb_le; vm_compute; reflexivity).
  assert (Hgt : (total_count list_ascii_of_string h [0%nat]
                 + token_count list_ascii_of_string
                     {| chat_role := "user"; chat_content := "cde" |} > 104 - 100)%Z)
    by (vm_compute; reflexivity).
  exact (proj1 (tokenizer_trim_cuts_the_first_message_over_budget list_ascii_of_string
                  string_of_list_ascii h [0] [] 1
                  {| chat_role := "user"; chat_content := "cde" |} 104
                  Hvalid eq_refl Hle Hgt)).
Defined.

Lemma text_cut_in_place_is_not_reported_witness :
  trimmed_messages_with_tokenizer list_ascii_of_string string_of_list_ascii "ab" "cde" 104
  = Value ([0; 1],
           [{| chat_role := "system"; chat_content := "ab" |};
            {| chat_role := "user"; chat_content := "cd" |}],
           false).
Proof.
  assert (Hprompt : (Z.of_nat (length (list_ascii_of_string "ab")) <= 104 - 100)%Z)
    by (apply Z.leb_le; vm_compute; reflexivity).
  assert (Htext : (Z.of_nat (length (list_ascii_of_string "ab"))
                   + Z.of_nat (length (list_ascii_of_string "cde")) > 104 - 100)%Z)
    by (vm_compute; reflexivity).
  exact (text_cut_in_place_is_not_reported list_ascii_of_string string_of_list_ascii
           "ab" "cde" 104 Hprompt Htext).
Defined.

Lemma tokenizer_trim_with_a_limit_below_the_buffer_witness :
  let h := [{| chat_role := "system"; chat_content := "ab" |};
            {| chat_role := "user"; chat_content := "cde" |}] in
  _trim_messages_to_token_limit list_ascii_of_string string_of_list_ascii h [0; 1] 99
  = ([0],
     [{| chat_role := "system"; chat_content := "a" |};
      {| chat_role := "user"; chat_content := "cde" |}]).
Proof.
  intros h.
  assert (Hlimit : (99 < 100)%Z) by reflexivity.
  exact (tokenizer_trim_with_a_limit_below_the_buffer list_ascii_of_string
           string_of_list_ascii h 0 [1]
           {| chat_role := "system"; chat_content := "ab" |} 99 Hlimit eq_refl).
Defined.

End GraphRAGStoreFacts.

(** * Properties of the file list of a search *)

Module VectorStoreUtilsFacts.

Import VectorStoreUtils.

(** the indices of the loop: the odd ones below the length *)
Lemma py_range_by_two (fuel : nat) :
  forall start stop,
    stop <= start + fuel ->
    py_range fuel start stop 2
    = map (fun k => start + 2 * k) (seq 0 ((stop - start + 1) / 2)).
Proof.
  induction fuel as [|fuel IH]; intros start stop Hfuel.
  - replace ((stop - start + 1) / 2) with 0; [reflexivity|].
    replace (stop - start + 1) with 1 by lia. reflexivity.
  - cbn [py_range]. destruct (Nat.ltb_spec start stop) as [Hlt|Hge].
    + rewrite (IH (start + 2) stop ltac:(lia)).
      replace ((stop - start + 1) / 2) with (S ((stop - (start + 2) + 1) / 2)).
      * cbn [seq map]. rewrite <- seq_shift, map_map.
        f_equal; [lia|]. apply map_ext. intros k. lia.
      * assert (Hd : stop - start + 1 = 2 + (stop - (start + 2) + 1)
                     \/ (stop - start + 1 = 2 /\ stop - (start + 2) + 1 = 1)) by lia.
        destruct Hd as [-> | [-> ->]]; [|reflexivity].
        replace (2 + (stop - (start + 2) + 1)) with (1 * 2 + (stop - (start + 2) + 1)) by lia.
        rewrite Nat.div_add_l by lia. reflexivity.
    + replace ((stop - start + 1) / 2) with 0; [reflexivity|].
      replace (stop - start + 1) with 1 by lia. reflexivity.
Qed.

Section CodecFacts.

Context (bytes_decode : list Byte.byte -> outcome string)
        (unquote : string -> string).

(** the loop over any list of indices *)
Lemma append_entries_spec (response : list reply) (indices : list nat) :
  forall file_list,
  exists entries,
    snd (append_entries bytes_decode unquote response indices file_list)
      = file_list ++ entries
    /\ (forall k entry, entries !! k = Some entry ->
          exists i, indices !! k = Some i
                    /\ file_entry bytes_decode unquote response i = Value entry)
    /\ match fst (append_entries bytes_decode unquote response indices file_list) with
       | None => length entries = length indices
       | Some e =>
           exists i, indices !! length entries = Some i
                     /\ file_entry bytes_decode unquote response i = Raise e
       end.
Proof.
  induction indices as [|i indices IH]; intros file_list.
  - exists []. cbn. rewrite app_nil_r. repeat split. intros k entry H. destruct k; discriminate.
  - cbn [append_entries].
    destruct (file_entry bytes_decode unquote response i) as [file_dict|e] eqn:Hentry.
    + destruct (IH (file_list ++ [file_dict])) as (entries & Hres & Hpoint & Herr).
      exists (file_dict :: entries). split; [now rewrite Hres, <- app_assoc|]. split.
      * intros [|k] entry Hk.
        -- injection Hk as <-. now exists i.
        -- exact (Hpoint k entry Hk).
      * destruct (fst (append_entries bytes_decode unquote response indices
                         (file_list ++ [file_dict]))); cbn [length]; [exact Herr | lia].
    + exists []. cbn [fst snd length]. rewrite app_nil_r. repeat split.
      * intros k entry H. destruct k; discriminate.
      * now exists i.
Qed.

(** X20. [format_search_results] looks at the elements of the reply at the
    odd positions only, from the first on: it appends to the list it was
    given, keeping what was there, one entry for each, in order, until the
    reply is through, so half as many as the reply has elements, or until
    an element cannot be decoded. An entry carries under [name] and under
    [id] the same string, the unquoted key less its first five characters.
    The exception is that of the decoding, the element being a count or
    bytes that do not decode, never an index out of range, and the entries
    made before it stay in the caller's list. *)
Theorem format_search_results_appends_an_entry_for_each_odd_position
    (response : list reply) (file_list : list (pydict string)) :
  exists entries,
    snd (format_search_results bytes_decode unquote response file_list)
      = file_list ++ entries
    /\ (forall k entry, entries !! k = Some entry ->
          exists b decoded,
            response !! (2 * k + 1) = Some (ReplyBytes b)
            /\ bytes_decode b = Value decoded
            /\ entry = [("name", unquote (drop_chars 5 decoded));
                        ("id", unquote (drop_chars 5 decoded));
                        ("type", "File");
                        ("parent", EmptyString)])
    /\ match fst (format_search_results bytes_decode unquote response file_list) with
       | None => length entries = length response / 2
       | Some e =>
           length entries < length response / 2
           /\ ((exists n, response !! (2 * length entries + 1) = Some (ReplyInt n)
                          /\ e = OtherException "AttributeError"
                                   "'int' object has no attribute 'decode'")
               \/ (exists b, response !! (2 * length entries + 1) = Some (ReplyBytes b)
                             /\ bytes_decode b = Raise e))
       end.
Proof.
  unfold format_search_results.
  rewrite (py_range_by_two (length response) 1 (length response) ltac:(lia)).
  replace ((length response - 1 + 1) / 2) with (length response / 2)
    by (destruct (length response); [reflexivity | f_equal; lia]).
  set (indices := map (fun k => 1 + 2 * k) (seq 0 (length response / 2))).
  assert (Hindex : forall k i, indices !! k = Some i ->
                               i = 2 * k + 1 /\ k < length response / 2).
  { intros k i Hk. unfold indices in Hk. rewrite list_lookup_fmap in Hk.
    destruct (seq 0 (length response / 2) !! k) as [j|] eqn:Hj; [|discriminate].
    injection Hk as <-. apply lookup_seq in Hj as [-> Hlt]. split; lia. }
  destruct (append_entries_spec response indices file_list)
    as (entries & Hres & Hpoint & Herr).
  exists entries. split; [exact Hres|]. split.
  - intros k entry Hk. destruct (Hpoint k entry Hk) as (i & Hi & Hentry).
    apply Hindex in Hi as [-> _]. unfold file_entry in Hentry.
    destruct (response !! (2 * k + 1)) as [[n|b]|]; try discriminate.
    exists b. destruct (bytes_decode b) as [decoded|e]; [|discriminate].
    exists decoded. split; [reflexivity|]. split; [reflexivity|].
    now injection Hentry as <-.
  - destruct (fst (append_entries bytes_decode unquote response indices file_list)) as [e|].
    + destruct Herr as (i & Hi & Hentry).
      apply Hindex in Hi as [-> Hlt]. split; [exact Hlt|].
      unfold file_entry in Hentry.
      assert (Hin : 2 * length entries + 1 < length response).
      { pose proof (Nat.div_mod (length response) 2 ltac:(lia)).
        pose proof (Nat.mod_upper_bound (length response) 2 ltac:(lia)). lia. }
      apply lookup_lt_is_Some in Hin as [item Hitem]. rewrite Hitem in Hentry.
      destruct item as [n|b].
      * left. exists n. split; [exact Hitem|]. now injection Hentry.
      * right. exists b. split; [exact Hitem|].
        destruct (bytes_decode b) as [decoded|e']; [discriminate|]. now injection Hentry as ->.
    + rewrite Herr. unfold indices. now rewrite length_map, length_seq.
Qed.

End CodecFacts.

End VectorStoreUtilsFacts.

(** * Properties of the collection of the communities *)

Module GraphCommunitiesFacts.

Import GraphCommunities.

Section GraphFacts.

Context (neighbors : string -> outcome (list string))
        (get_edge_data : string -> string -> option (pydict string)).

Lemma listed_append_detail (community_info : gmap Z (list string)) (c : Z) (d : string)
    (c' : Z) (d' : string) :
  listed (append_detail community_info c d) c' d'
  <-> listed community_info c' d' \/ (c' = c /\ d' = d).
Proof.
  unfold listed, append_detail. destruct (decide (c' = c)) as [->|Hne].
  - rewrite lookup_insert_eq. split.
    + intros (details & [= <-] & Hin). apply elem_of_app in Hin as [Hin|Hin].
      * left. destruct (community_info !! c) as [old|]; [|inversion Hin]. now exists old.
      * right. now apply list_elem_of_singleton in Hin.
    + intros [(details & Hold & Hin) | [_ ->]]; eexists; (split; [reflexivity|]).
      * rewrite Hold. apply elem_of_app. now left.
      * apply elem_of_app. right. now apply list_elem_of_singleton.
  - rewrite lookup_insert_ne by congruence. split; [now left|].
    intros [H | [? _]]; [exact H | contradiction].
Qed.

Lemma append_detail_nonempty (community_info : gmap Z (list string)) (c : Z) (d : string) :
  (forall c', community_info !! c' <> Some []) ->
  forall c', append_detail community_info c d !! c' <> Some [].
Proof.
  intros Hne c'. unfold append_detail. destruct (decide (c' = c)) as [->|Hc].
  - rewrite lookup_insert_eq. intros [= H]. now apply app_eq_nil in H as [_ ?].
  - rewrite lookup_insert_ne by congruence. apply Hne.
Qed.

(** the loop over the neighbours adds the details of the edges of the node,
    under the cluster of the item, and nothing else *)
Lemma collect_neighbors_spec (node : string) (c : Z) (nbrs : list string) :
  forall community_info community_info',
    collect_neighbors get_edge_data node c nbrs community_info = Value community_info' ->
    (forall c' d, listed community_info' c' d
                  <-> listed community_info c' d
                      \/ (c' = c /\ edge_detail get_edge_data node nbrs d))
    /\ ((forall c', community_info !! c' <> Some []) ->
        forall c', community_info' !! c' <> Some []).
Proof.
  induction nbrs as [|neighbor rest IH]; intros community_info community_info' Hcall.
  - injection Hcall as <-. split; [|auto]. intros c' d. split; [now left|].
    intros [H | [_ (nb & ? & Hin & _)]]; [exact H | inversion Hin].
  - cbn [collect_neighbors] in Hcall.
    assert (Hskip : forall P : Prop,
              (get_edge_data node neighbor = None
               \/ get_edge_data node neighbor = Some []) ->
              forall d, edge_detail get_edge_data node (neighbor :: rest) d
                        <-> edge_detail get_edge_data node rest d).
    { intros _ Hnone d. split.
      - intros (nb & edge_data & Hin & Hdata & Hne & Hd).
        apply elem_of_cons in Hin as [->|Hin]; [|now exists nb, edge_data].
        destruct Hnone as [Hnone|Hnone]; rewrite Hnone in Hdata; congruence.
      - intros (nb & edge_data & Hin & Hrest).
        exists nb, edge_data. split; [now apply list_elem_of_further | exact Hrest]. }
    destruct (get_edge_data node neighbor) as [[|entry edge_data]|] eqn:Hdata.
    + destruct (IH _ _ Hcall) as [Hl Hn]. split; [|exact Hn].
      intros c' d. rewrite Hl, (Hskip True); [reflexivity | now right].
    + destruct (detail node neighbor (entry :: edge_data)) as [d0|e] eqn:Hd; [|discriminate].
      destruct (IH _ _ Hcall) as [Hl Hn]. split.
      * intros c' d. rewrite Hl, listed_append_detail. split.
        -- intros [[H | [-> ->]] | [-> (nb & ed & Hin & Hrest)]].
           ++ now left.
           ++ right. split; [reflexivity|]. exists neighbor, (entry :: edge_data).
              split; [apply list_elem_of_here|]. split; [exact Hdata|].
              split; [discriminate | exact Hd].
           ++ right. split; [reflexivity|]. exists nb, ed.
              split; [now apply list_elem_of_further | exact Hrest].
        -- intros [H | [-> (nb & ed & Hin & Hed & Hne & Hdet)]]; [now left; left|].
           apply elem_of_cons in Hin as [->|Hin].
           ++ left. right. split; [reflexivity|]. congruence.
           ++ right. split; [reflexivity|]. now exists nb, ed.
      * intros Hne. apply Hn. now apply append_detail_nonempty.
    + destruct (IH _ _ Hcall) as [Hl Hn]. split; [|exact Hn].
      intros c' d. rewrite Hl, (Hskip True); [reflexivity | now left].
Qed.

Lemma filed_add_cluster (entity_info : gmap string (gset Z)) (node : string) (c : Z)
    (node' : string) (c' : Z) :
  filed (add_cluster entity_info node c) node' c'
  <-> filed entity_info node' c' \/ (node' = node /\ c' = c).
Proof.
  unfold filed, add_cluster. destruct (decide (node' = node)) as [->|Hne].
  - rewrite lookup_insert_eq. split.
    + intros (ids & [= <-] & Hin). apply elem_of_union in Hin as [Hin|Hin].
      * left. destruct (entity_info !! node) as [old|]; [|set_solver]. now exists old.
      * right. split; [reflexivity|]. set_solver.
    + intros [(ids & Hold & Hin) | [_ ->]]; eexists; (split; [reflexivity|]).
      * rewrite Hold. set_solver.
      * set_solver.
  - rewrite lookup_insert_ne by congruence. split; [now left|].
    intros [H | [? _]]; [exact H | contradiction].
Qed.

(** the loop over the items *)
Lemma collect_items_spec (clusters : list HierarchicalCluster) :
  forall entity_info community_info entity_info' community_info',
    collect_items neighbors get_edge_data clusters entity_info community_info
      = Value (entity_info', community_info') ->
    (forall node c,
        filed entity_info' node c
        <-> filed entity_info node c
            \/ {| item_node := node; item_cluster := c |} ∈ clusters)
    /\ (forall c d,
          listed community_info' c d
          <-> listed community_info c d
              \/ exists item nbrs,
                   item ∈ clusters /\ item_cluster item = c
                   /\ neighbors (item_node item) = Value nbrs
                   /\ edge_detail get_edge_data (item_node item) nbrs d)
    /\ ((forall c, community_info !! c <> Some []) ->
        forall c, community_info' !! c <> Some [])
    /\ Forall (fun item => exists nbrs, neighbors (item_node item) = Value nbrs) clusters.
Proof.
  induction clusters as [|item rest IH];
    intros entity_info community_info entity_info' community_info' Hcall.
  - injection Hcall as <- <-. split; [|split; [|split; [auto | constructor]]].
    + intros node c. split; [now left|]. intros [H|H]; [exact H | inversion H].
    + intros c d. split; [now left|].
      intros [H | (it & ? & H & _)]; [exact H | inversion H].
  - cbn [collect_items] in Hcall.
    destruct (neighbors (item_node item)) as [nbrs|e] eqn:Hnbrs; [|discriminate].
    destruct (collect_neighbors get_edge_data (item_node item) (item_cluster item) nbrs
                community_info) as [community_info1|e] eqn:Hnode; [|discriminate].
    destruct (collect_neighbors_spec _ _ _ _ _ Hnode) as [Hl1 Hn1].
    destruct (IH _ _ _ _ Hcall) as (Hf & Hl & Hn & Hall).
    split; [|split; [|split]].
    + intros node c. rewrite Hf, filed_add_cluster, elem_of_cons.
      destruct item as [n0 c0]. cbn [item_node item_cluster]. split.
      * intros [[H | [-> ->]] | H]; [now left | right; now left | right; now right].
      * intros [H | [[= -> ->] | H]]; [now left; left | left; now right | now right].
    + intros c d. rewrite Hl, Hl1. split.
      * intros [[H | [-> Hd]] | (it & nb & Hin & Hrest)].
        -- now left.
        -- right. exists item, nbrs. split; [apply list_elem_of_here|]. now split.
        -- right. exists it, nb. split; [now apply list_elem_of_further | exact Hrest].
      * intros [H | (it & nb & Hin & Hc & Hnb & Hd)]; [now left; left|].
        apply elem_of_cons in Hin as [->|Hin].
        -- left. right. split; [now symmetry|]. rewrite Hnbrs in Hnb. now injection Hnb as ->.
        -- right. now exists it, nb.
    + intros Hne. apply Hn, Hn1, Hne.
    + constructor; [now exists nbrs | exact Hall].
Qed.

(** X21. In what [_collect_community_info] returns, a node is filed under
    a cluster exactly when the clustering has an item of that node and that
    cluster, so a node of several clusters is filed under each of them, and
    no cluster is listed twice for a node. *)
Theorem entity_info_files_each_node_under_all_its_clusters
    (clusters : list HierarchicalCluster)
    (entity_info : gmap string (list Z)) (community_info : gmap Z (list string)) :
  _collect_community_info neighbors get_edge_data clusters
    = Value (entity_info, community_info) ->
  (forall node c,
      filed entity_info node c
      <-> {| item_node := node; item_cluster := c |} ∈ clusters)
  /\ (forall node ids, entity_info !! node = Some ids -> NoDup ids).
Proof.
  unfold _collect_community_info.
  destruct (collect_items neighbors get_edge_data clusters ∅ ∅)
    as [[sets community_info0]|e] eqn:Hcall; [|discriminate].
  intros [= <- <-].
  destruct (collect_items_spec _ _ _ _ _ Hcall) as (Hf & _).
  split.
  - intros node c. transitivity (filed sets node c).
    + unfold filed. rewrite lookup_fmap. split.
      * intros (ids & Hids & Hin). destruct (sets !! node) as [ids0|]; [|discriminate].
        injection Hids as <-. exists ids0. split; [reflexivity|].
        now apply elem_of_elements in Hin.
      * intros (ids0 & -> & Hin). exists (elements ids0). split; [reflexivity|].
        now apply elem_of_elements.
    + rewrite Hf. split; [|now right].
      intros [(ids & Hempty & _) | H]; [|exact H]. now rewrite lookup_empty in Hempty.
  - intros node ids. rewrite lookup_fmap.
    destruct (sets !! node) as [ids0|]; [|discriminate].
    intros [= <-]. apply NoDup_elements.
Qed.

(** X22. The details listed under a cluster are those of the edges that
    carry data and leave a node of that cluster, towards any neighbour, of
    the cluster or not; a cluster none of whose nodes has such an edge has
    no key at all, so that no key holds an empty list. *)
Theorem community_info_lists_the_edges_of_the_nodes_of_a_cluster
    (clusters : list HierarchicalCluster)
    (entity_info : gmap string (list Z)) (community_info : gmap Z (list string)) :
  _collect_community_info neighbors get_edge_data clusters
    = Value (entity_info, community_info) ->
  (forall c d,
      listed community_info c d
      <-> exists item nbrs,
            item ∈ clusters /\ item_cluster item = c
            /\ neighbors (item_node item) = Value nbrs
            /\ edge_detail get_edge_data (item_node item) nbrs d)
  /\ (forall c, community_info !! c <> Some []).
Proof.
  unfold _collect_community_info.
  destruct (collect_items neighbors get_edge_data clusters ∅ ∅)
    as [[sets community_info0]|e] eqn:Hcall; [|discriminate].
  intros [= <- <-].
  destruct (collect_items_spec _ _ _ _ _ Hcall) as (_ & Hl & Hn & _).
  split.
  - intros c d. rewrite Hl. split; [|now right].
    intros [(details & Hempty & _) | H]; [|exact H]. now rewrite lookup_empty in Hempty.
  - apply Hn. intros c. now rewrite lookup_empty.
Qed.

(** X23. One item whose node the graph does not have fails the whole
    collection: the call raises, and returns nothing of what it had
    collected. *)
Theorem collection_fails_on_a_node_outside_the_graph
    (clusters : list HierarchicalCluster) (item : HierarchicalCluster) (e : exn) :
  item ∈ clusters ->
  neighbors (item_node item) = Raise e ->
  exists e', _collect_community_info neighbors get_edge_data clusters = Raise e'.
Proof.
  intros Hin Hraise. unfold _collect_community_info.
  destruct (collect_items neighbors get_edge_data clusters ∅ ∅)
    as [[sets community_info0]|e'] eqn:Hcall; [|now exists e'].
  destruct (collect_items_spec _ _ _ _ _ Hcall) as (_ & _ & _ & Hall).
  rewrite Forall_forall in Hall. destruct (Hall item Hin) as (nbrs & Hnbrs). congruence.
Qed.

End GraphFacts.

Lemma entity_info_files_each_node_under_all_its_clusters_witness :
  exists entity_info community_info,
    _collect_community_info Example.neighbors Example.get_edge_data Example.clusters
      = Value (entity_info, community_info)
    /\ (forall node c,
          filed entity_info node c
          <-> {| item_node := node; item_cluster := c |} ∈ Example.clusters)
    /\ (forall node ids, entity_info !! node = Some ids -> NoDup ids).
Proof.
  assert (H : exists r,
            _collect_community_info Example.neighbors Example.get_edge_data
              Example.clusters = Value r)
    by (eexists; vm_compute; reflexivity).
  destruct H as [[entity_info community_info] H].
  exists entity_info, community_info. split; [exact H|].
  exact (entity_info_files_each_node_under_all_its_clusters
           Example.neighbors Example.get_edge_data Example.clusters
           entity_info community_info H).
Defined.

Lemma community_info_lists_the_edges_of_the_nodes_of_a_cluster_witness :
  exists entity_info community_info,
    _collect_community_info Example.neighbors Example.get_edge_data Example.clusters
      = Value (entity_info, community_info)
    /\ community_info !! 2%Z <> Some [].
Proof.
  assert (H : exists r,
            _collect_community_info Example.neighbors Example.get_edge_data
              Example.clusters = Value r)
    by (eexists; vm_compute; reflexivity).
  destruct H as [[entity_info community_info] H].
  exists entity_info, community_info. split; [exact H|].
  exact (proj2 (community_info_lists_the_edges_of_the_nodes_of_a_cluster
                  Example.neighbors Example.get_edge_data Example.clusters
                  entity_info community_info H) 2%Z).
Defined.

Lemma collection_fails_on_a_node_outside_the_graph_witness :
  exists e',
    _collect_community_info Example.neighbors Example.get_edge_data
      (Example.clusters ++ [{| item_node := "z"; item_cluster := 0 |}]) = Raise e'.
Proof.
  apply (collection_fails_on_a_node_outside_the_graph
           Example.neighbors Example.get_edge_data
           (Example.clusters ++ [{| item_node := "z"; item_cluster := 0 |}])
           {| item_node := "z"; item_cluster := 0 |}
           (OtherException "NetworkXError" "The node z is not in the graph.")).
  - apply elem_of_app. right. apply list_elem_of_here.
  - reflexivity.
Defined.

End GraphCommunitiesFacts.
